(** * Voice Blog Creator: the workflow orchestrator ([scripts/workflow.py])

    A shallow embedding of [WorkflowOrchestrator] and of [main], and the
    properties of the orchestrator stated in the specification.

    The orchestrator is a sequential program over a filesystem: it tests
    whether paths exist, creates the output directory, starts the three
    stage scripts as child processes and prints log lines.  The embedding
    keeps these effects explicit:

    - the filesystem is a finite map from paths to their kind;
    - what a child process does is not decided by the orchestrator, so
      [subprocess.run] is a parameter of the development: an arbitrary
      function from the command and the state of the operating system to a
      completed process (or an exception) and a new state;
    - standard output and the started processes are recorded as a list of
      events, in order. *)

From Stdlib Require Import ZArith List String Ascii Bool Lia Sorted.
From stdpp Require Import gmap strings list fin_maps pretty.
Import ListNotations.
Open Scope Z_scope.

(** ** Paths ([pathlib.PurePosixPath]) *)

(** An absolute path is the list of its components below the root.  As in
    [pathlib], [".."] is kept as a component and no symbolic link is
    followed. *)
Definition Path := list string.

(** The pieces of [s] between slashes; [cur] is the piece being read. *)
Fixpoint split_slash (s : string) (cur : string) : list string :=
  match s with
  | EmptyString => [cur]
  | String c s' =>
      if Ascii.eqb c "/" then cur :: split_slash s' EmptyString
      else split_slash s' (cur +:+ String c EmptyString)
  end.

Definition is_component (c : string) : bool :=
  negb (String.eqb c "") && negb (String.eqb c ".").

(** Components of a path segment: empty pieces and ["."] are dropped. *)
Definition parts (s : string) : list string :=
  List.filter is_component (split_slash s EmptyString).

Definition is_absolute (s : string) : bool :=
  match s with
  | String c _ => Ascii.eqb c "/"
  | EmptyString => false
  end.

(** [p / s]: an absolute segment replaces the path, a relative one is
    appended.  The paths are taken by their letters: [".."] is a component
    like any other, where the operating system would go up one directory,
    and a segment that begins with exactly two slashes, whose root [pathlib]
    keeps as ["//"], is read as one that begins with one.  The folder
    arguments meant are names and relative paths without [".."]. *)
Definition joinpath (p : Path) (s : string) : Path :=
  if is_absolute s then parts s else p ++ parts s.

Notation "p // s" := (joinpath p s) (at level 40, left associativity).

(** [p.parent]; the root is its own parent. *)
Definition parent (p : Path) : Path := removelast p.

(** [str(p)] *)
Definition str_path (p : Path) : string := "/" +:+ String.concat "/" p.

(** ** The filesystem *)

Inductive Kind := File | Dir.

Definition kind_of (fs : gmap Path Kind) (p : Path) : option Kind :=
  match p with
  | [] => Some Dir
  | _ => fs !! p
  end.

(** [p.exists()] *)
Definition path_exists (fs : gmap Path Kind) (p : Path) : bool :=
  match kind_of fs p with
  | Some _ => true
  | None => false
  end.

(** The non-empty prefixes of a path, the shortest first: the directories
    that [mkdir(parents=True)] visits. *)
Fixpoint prefixes_from (base : Path) (p : Path) : list Path :=
  match p with
  | [] => []
  | c :: p' => (base ++ [c]) :: prefixes_from (base ++ [c]) p'
  end.

Definition prefixes (p : Path) : list Path := prefixes_from [] p.

(** One directory of [mkdir(exist_ok=True)]: an existing directory is left
    alone, an existing file is an error ([None]). *)
Definition mkdir_one (fs : option (gmap Path Kind)) (p : Path)
  : option (gmap Path Kind) :=
  match fs with
  | None => None
  | Some m =>
      match m !! p with
      | Some Dir => Some m
      | Some File => None
      | None => Some (<[p := Dir]> m)
      end
  end.

(** [p.mkdir(parents=True, exist_ok=True)]; [None] stands for the [OSError]
    raised when a component exists and is not a directory. *)
Definition mkdir_p (fs : gmap Path Kind) (p : Path) : option (gmap Path Kind) :=
  fold_left mkdir_one (prefixes p) (Some fs).

(** ** Exceptions, events and the result of [subprocess.run] *)

Inductive exn :=
  | ValueError (msg : string)
  | OSError (msg : string)
  | KeyboardInterrupt
  | OtherException (msg : string).

(** [str(e)] *)
Definition exn_str (e : exn) : string :=
  match e with
  | ValueError msg => msg
  | OSError msg => msg
  | KeyboardInterrupt => ""
  | OtherException msg => msg
  end.

Inductive event :=
  | Log (level : string) (message : string)
  | Print (text : string)
  | Spawn (command : list string) (cwd : Path) (capture_output : bool)
  | Traceback.

Record CompletedProcess := mkCompleted {
  returncode : Z;
  stderr : option string
}.

(** Truth value of [result.stderr]: [None] and the empty string are false. *)
Definition truthy (s : option string) : bool :=
  match s with
  | Some t => negb (String.eqb t "")
  | None => false
  end.

(** The tokens a [steps] list may hold: [run_workflow] looks for the
    integers 1, 2, 3 and for the string ['all']. *)
Inductive token :=
  | TInt (n : Z)
  | TStr (s : string).

Definition token_eqb (a b : token) : bool :=
  match a, b with
  | TInt x, TInt y => Z.eqb x y
  | TStr x, TStr y => String.eqb x y
  | _, _ => false
  end.

(** [x in steps] *)
Definition contains (x : token) (steps : list token) : bool :=
  existsb (token_eqb x) steps.

(** [str(x)] for a token *)
Definition token_str (x : token) : string :=
  match x with
  | TInt n => pretty n
  | TStr s => s
  end.

(** [str(b)] for a Python bool *)
Definition bool_str (b : bool) : string := if b then "True" else "False".

(** ["=" * n] *)
Fixpoint rule (n : nat) : string :=
  match n with
  | O => EmptyString
  | S n' => String "=" (rule n')
  end.

(** A line feed, for the messages that start with one. *)
Definition nl : string := String (ascii_of_nat 10) EmptyString.

(** ** The operating system and computations over it *)

Section Computations.

(** Whatever the child processes depend on besides the files (network,
    credentials, time) is an abstract component of the state. *)
Context {Ext : Type}.

Record OS := mkOS {
  files : gmap Path Kind;
  outside : Ext
}.

(** A finished computation: its value or the exception it raised, the
    state it leaves and the events it emitted, the oldest first. *)
Record Run (A : Type) := mkRun {
  value : A + exn;
  final : OS;
  emitted : list event
}.
Arguments mkRun {A} _ _ _.
Arguments value {A} _.
Arguments final {A} _.
Arguments emitted {A} _.

Definition M (A : Type) : Type := OS -> Run A.

Definition ret {A} (a : A) : M A := fun os => mkRun (inl a) os [].

Definition raise {A} (e : exn) : M A := fun os => mkRun (inr e) os [].

Definition bind {A B} (m : M A) (k : A -> M B) : M B := fun os =>
  let r := m os in
  match value r with
  | inl a =>
      let r' := k a (final r) in
      mkRun (value r') (final r') (emitted r ++ emitted r')
  | inr e => mkRun (inr e) (final r) (emitted r)
  end.

(** [try: m  except ...: h e]; [h e = None] when no clause matches [e]. *)
Definition try_except {A} (m : M A) (h : exn -> option (M A)) : M A := fun os =>
  let r := m os in
  match value r with
  | inl _ => r
  | inr e =>
      match h e with
      | Some k =>
          let r' := k (final r) in
          mkRun (value r') (final r') (emitted r ++ emitted r')
      | None => r
      end
  end.

Definition emit (e : event) : M unit := fun os => mkRun (inl tt) os [e].

Definition exists_ (p : Path) : M bool := fun os =>
  mkRun (inl (path_exists (files os) p)) os [].

Definition mkdir (p : Path) : M unit := fun os =>
  match mkdir_p (files os) p with
  | Some fs' => mkRun (inl tt) (mkOS fs' (outside os)) []
  | None => mkRun (inr (OSError ("File exists: " +:+ str_path p))) os []
  end.

End Computations.

Arguments OS : clear implicits.
Arguments Run : clear implicits.
Arguments M : clear implicits.
Arguments mkRun {Ext A} _ _ _.
Arguments value {Ext A} _.
Arguments final {Ext A} _.
Arguments emitted {Ext A} _.

Notation "x <- c1 ;; c2" := (bind c1 (fun x => c2))
  (at level 100, c1 at next level, right associativity).
Notation "c1 ;;; c2" := (bind c1 (fun _ => c2))
  (at level 100, right associativity).

(** ** Concrete worlds, used to run the model *)

Module Demo.

Definition scripts : Path := ["srv"; "vbc"; "scripts"].
Definition interpreter : string := "/usr/bin/python3".

Definition root : Path := ["srv"; "vbc"].

(** The project with [input/audio-file/7/raw.mp3] and no [output]. *)
Definition fresh : gmap Path Kind :=
  list_to_map
    [ (["srv"], Dir);
      (root, Dir);
      (root ++ ["scripts"], Dir);
      (root ++ ["input"], Dir);
      (root ++ ["input"; "audio-file"], Dir);
      (root ++ ["input"; "audio-file"; "7"], Dir);
      (root ++ ["input"; "audio-file"; "7"; "raw.mp3"], File) ].

(** The same project after an interrupted history: the transcript of
    folder 7 is there, the processed audio is not. *)
Definition orphan_transcript : gmap Path Kind :=
  <[ root ++ ["output"; "7"; "transcript.txt"] := File ]>
    (<[ root ++ ["output"; "7"] := Dir ]>
       (<[ root ++ ["output"] := Dir ]> fresh)).

(** Create a file unless something is already there. *)
Definition touch (p : Path) (fs : gmap Path Kind) : gmap Path Kind :=
  match fs !! p with
  | Some _ => fs
  | None => <[p := File]> fs
  end.

(** The path after [--output] on a stage command line. *)
Definition output_of (command : list string) : Path :=
  [] // nth 5 command EmptyString.

Definition Oracle : Type :=
  list string -> Path -> bool -> OS unit -> (CompletedProcess + exn) * OS unit.

(** A child process that writes its output file and exits with status 0. *)
Definition writer : Oracle := fun command _ _ os =>
  (inl (mkCompleted 0 (Some EmptyString)),
   mkOS (touch (output_of command) (files os)) (outside os)).

(** A child process that exits with status 0 and writes nothing. *)
Definition quiet : Oracle := fun _ _ _ os =>
  (inl (mkCompleted 0 (Some EmptyString)), os).

(** A child process that exits with status 1. *)
Definition broken : Oracle := fun _ _ _ os =>
  (inl (mkCompleted 1 (Some "boom")), os).

(** [subprocess.run] itself raises. *)
Definition crash : Oracle := fun _ _ _ os =>
  (inr (OtherException "No such file or directory"), os).

(** The project after steps 1 and 2: the processed audio and the transcript
    of folder 7 are there, the blog post is not. *)
Definition transcribed : gmap Path Kind :=
  <[ root ++ ["output"; "7"; "processed.mp3"] := File ]> orphan_transcript.

(** The fresh project with a regular file named [output]. *)
Definition blocked : gmap Path Kind :=
  <[ root ++ ["output"] := File ]> fresh.

(** A child process that exits with status 0 each time, and writes its
    output file unless it runs the blog-post script. *)
Definition forgetful : Oracle := fun command cwd capture os =>
  if String.eqb (nth 1 command EmptyString) "gemini_blog_post.py"
  then quiet command cwd capture os
  else writer command cwd capture os.

End Demo.

(** ** The orchestrator *)

Section Orchestrator.

Context {Ext : Type}.

(** [SCRIPT_DIR = Path(__file__).parent] and [sys.executable]. *)
Variable SCRIPT_DIR : Path.
Variable sys_executable : string.

(** [subprocess.run(command, shell=False, cwd=cwd, ...)]: the child process
    runs to completion, or the call raises. *)
Variable subprocess_run :
  list string -> Path -> bool -> OS Ext -> (CompletedProcess + exn) * OS Ext.

Definition PROJECT_ROOT : Path := parent SCRIPT_DIR.

Definition spawn (command : list string) (capture_output : bool)
  : M Ext CompletedProcess := fun os =>
  let '(res, os') := subprocess_run command SCRIPT_DIR capture_output os in
  mkRun res os' [Spawn command SCRIPT_DIR capture_output].

(** ** [get_python_executable] *)

Definition get_python_executable : M Ext string :=
  v1 <- exists_ (PROJECT_ROOT // ".venv/bin/python") ;;
  if v1 then ret (str_path (PROJECT_ROOT // ".venv/bin/python"))
  else
    v2 <- exists_ (PROJECT_ROOT // "venv/bin/python") ;;
    if v2 then ret (str_path (PROJECT_ROOT // "venv/bin/python"))
    else ret sys_executable.

(** ** [class WorkflowOrchestrator] *)

Record Orchestrator := mkOrchestrator {
  folder_number : string;
  verbose : bool;
  force : bool;
  python : string;
  input_dir : Path;
  output_dir : Path;
  raw_audio : Path;
  processed_audio : Path;
  transcript : Path;
  blog_post : Path
}.

(** The object that [__init__] builds before it validates anything. *)
Definition new_orchestrator (folder : string) (v f : bool) (py : string)
  : Orchestrator :=
  let input := PROJECT_ROOT // "input" // "audio-file" // folder in
  let output := PROJECT_ROOT // "output" // folder in
  {| folder_number := folder;
     verbose := v;
     force := f;
     python := py;
     input_dir := input;
     output_dir := output;
     raw_audio := input // "raw.mp3";
     processed_audio := output // "processed.mp3";
     transcript := output // "transcript.txt";
     blog_post := output // "blog_post.md" |}.

(** [WorkflowOrchestrator.__init__] *)
Definition init (folder : string) (v f : bool) : M Ext Orchestrator :=
  py <- get_python_executable ;;
  let self := new_orchestrator folder v f py in
  d <- exists_ (input_dir self) ;;
  if negb d then
    raise (ValueError ("Input folder not found: " +:+ str_path (input_dir self)))
  else
    a <- exists_ (raw_audio self) ;;
    if negb a then
      raise (ValueError ("Raw audio not found: " +:+ str_path (raw_audio self)))
    else
      mkdir (output_dir self) ;;;
      ret self.

(** [log]: the line carries a time stamp, which is left out of the event. *)
Definition log (message : string) (level : string) : M Ext unit :=
  emit (Log level message).

(** [run_command] *)
Definition run_command (self : Orchestrator) (command : list string)
  (description : string) : M Ext bool :=
  log ("Running: " +:+ description) "INFO" ;;;
  result <- spawn command (negb (verbose self)) ;;
  if negb (returncode result =? 0) then
    log ("Failed: " +:+ description) "ERROR" ;;;
    (if negb (verbose self) && truthy (stderr result)
     then emit (Print (default "" (stderr result)))
     else ret tt) ;;;
    ret false
  else
    log ("Completed: " +:+ description) "SUCCESS" ;;;
    ret true.

(** [check_file_exists] *)
Definition check_file_exists (self : Orchestrator) (file_path : Path)
  (step_name : string) : M Ext bool :=
  e <- exists_ file_path ;;
  if e then
    if force self then
      log ("File exists but --force is set, will overwrite: "
             +:+ str_path file_path) "INFO" ;;;
      ret false
    else
      log ("File exists, skipping " +:+ step_name +:+ ": "
             +:+ str_path file_path) "INFO" ;;;
      ret true
  else ret false.

(** The command line of a stage script. *)
Definition stage_command (self : Orchestrator) (script : string)
  (input output : Path) : list string :=
  [python self; script; "--input"; str_path input; "--output"; str_path output]
  ++ (if verbose self then ["--verbose"] else []).

(** [step_1_preprocess_audio] *)
Definition step_1_preprocess_audio (self : Orchestrator) : M Ext bool :=
  log (rule 70) "INFO" ;;;
  log "STEP 1: Audio Preprocessing" "INFO" ;;;
  log (rule 70) "INFO" ;;;
  skip <- check_file_exists self (processed_audio self) "audio preprocessing" ;;
  if skip then ret true
  else
    run_command self
      (stage_command self "preprocess_audio.py"
         (raw_audio self) (processed_audio self))
      "Audio preprocessing".

(** [step_2_transcribe] *)
Definition step_2_transcribe (self : Orchestrator) : M Ext bool :=
  log (rule 70) "INFO" ;;;
  log "STEP 2: Audio Transcription" "INFO" ;;;
  log (rule 70) "INFO" ;;;
  have <- exists_ (processed_audio self) ;;
  if negb have then
    log ("Processed audio not found: " +:+ str_path (processed_audio self))
      "ERROR" ;;;
    log "Please run Step 1 first" "ERROR" ;;;
    ret false
  else
    skip <- check_file_exists self (transcript self) "transcription" ;;
    if skip then ret true
    else
      run_command self
        (stage_command self "gemini_transcribe.py"
           (processed_audio self) (transcript self))
        "Audio transcription".

(** [step_3_generate_blog] *)
Definition step_3_generate_blog (self : Orchestrator) : M Ext bool :=
  log (rule 70) "INFO" ;;;
  log "STEP 3: Blog Post Generation" "INFO" ;;;
  log (rule 70) "INFO" ;;;
  have <- exists_ (transcript self) ;;
  if negb have then
    log ("Transcript not found: " +:+ str_path (transcript self)) "ERROR" ;;;
    log "Please run Step 2 first" "ERROR" ;;;
    ret false
  else
    skip <- check_file_exists self (blog_post self) "blog post generation" ;;
    if skip then ret true
    else
      run_command self
        (stage_command self "gemini_blog_post.py"
           (transcript self) (blog_post self))
        "Blog post generation".

(** ** [run_workflow] *)

Definition all_steps : list token := [TInt 1; TInt 2; TInt 3].

(** [if steps is None or 'all' in steps: steps = [1, 2, 3]] *)
Definition effective_steps (steps : option (list token)) : list token :=
  match steps with
  | None => all_steps
  | Some l => if contains (TStr "all") l then all_steps else l
  end.

Definition header (self : Orchestrator) (steps : list token) : M Ext unit :=
  log "" "INFO" ;;;
  log (rule 70) "INFO" ;;;
  log "VOICE BLOG CREATOR - WORKFLOW ORCHESTRATOR" "INFO" ;;;
  log (rule 70) "INFO" ;;;
  log ("Folder: " +:+ folder_number self) "INFO" ;;;
  log ("Input: " +:+ str_path (input_dir self)) "INFO" ;;;
  log ("Output: " +:+ str_path (output_dir self)) "INFO" ;;;
  log ("Steps to run: " +:+ String.concat ", " (map token_str steps)) "INFO" ;;;
  log ("Force overwrite: " +:+ bool_str (force self)) "INFO" ;;;
  log ("Verbose: " +:+ bool_str (verbose self)) "INFO" ;;;
  log (rule 70) "INFO" ;;;
  log "" "INFO".

(** One line of the summary: printed only when the artifact exists. *)
Definition report (label : string) (p : Path) : M Ext unit :=
  e <- exists_ p ;;
  if e then log ("  ✓ " +:+ label +:+ ": " +:+ str_path p) "INFO" else ret tt.

(** The end of [run_workflow], reached when no requested step failed. *)
Definition summary (self : Orchestrator) : M Ext bool :=
  log "" "INFO" ;;;
  log (rule 70) "INFO" ;;;
  log "WORKFLOW COMPLETE" "INFO" ;;;
  log (rule 70) "INFO" ;;;
  log "Generated files:" "INFO" ;;;
  report "Processed audio" (processed_audio self) ;;;
  report "Transcript" (transcript self) ;;;
  report "Blog post" (blog_post self) ;;;
  log (rule 70) "INFO" ;;;
  ret true.

(** The body of [run_workflow] from a given step on.  The local dictionary
    [results] is returned with the result, so that statements can refer to
    what each step returned; an early [return False] ends the computation. *)
Definition from_step_3 (self : Orchestrator) (steps : list token)
  (results : gmap Z bool) : M Ext (gmap Z bool * bool) :=
  if contains (TInt 3) steps then
    r <- step_3_generate_blog self ;;
    let results := <[3 := r]> results in
    if negb r then
      log "Workflow stopped due to error in Step 3" "ERROR" ;;;
      ret (results, false)
    else
      ok <- summary self ;;
      ret (results, ok)
  else
    ok <- summary self ;;
    ret (results, ok).

Definition from_step_2 (self : Orchestrator) (steps : list token)
  (results : gmap Z bool) : M Ext (gmap Z bool * bool) :=
  if contains (TInt 2) steps then
    r <- step_2_transcribe self ;;
    let results := <[2 := r]> results in
    if negb r then
      log "Workflow stopped due to error in Step 2" "ERROR" ;;;
      ret (results, false)
    else from_step_3 self steps results
  else from_step_3 self steps results.

Definition from_step_1 (self : Orchestrator) (steps : list token)
  (results : gmap Z bool) : M Ext (gmap Z bool * bool) :=
  if contains (TInt 1) steps then
    r <- step_1_preprocess_audio self ;;
    let results := <[1 := r]> results in
    if negb r then
      log "Workflow stopped due to error in Step 1" "ERROR" ;;;
      ret (results, false)
    else from_step_2 self steps results
  else from_step_2 self steps results.

Definition run_workflow_results (self : Orchestrator)
  (steps : option (list token)) : M Ext (gmap Z bool * bool) :=
  let steps := effective_steps steps in
  header self steps ;;;
  from_step_1 self steps ∅.

Definition run_workflow (self : Orchestrator) (steps : option (list token))
  : M Ext bool :=
  r <- run_workflow_results self steps ;;
  ret (snd r).

(** ** [main] *)

(** The parsed command line. *)
Record Args := mkArgs {
  arg_folder : string;
  arg_steps : option (list Z);
  arg_verbose : bool;
  arg_force : bool
}.

(** [main], from the parsed arguments on; the value is its return value. *)
Definition main (args : Args) : M Ext Z :=
  o <- try_except
         (self <- init (arg_folder args) (arg_verbose args) (arg_force args) ;;
          ret (Some self))
         (fun e =>
            match e with
            | ValueError _ =>
                Some (emit (Print ("Error: " +:+ exn_str e)) ;;; ret None)
            | _ => None
            end) ;;
  match o with
  | None => ret 1
  | Some orchestrator =>
      try_except
        (success <- run_workflow orchestrator (option_map (map TInt) (arg_steps args)) ;;
         ret (if success : bool then 0 else 1))
        (fun e =>
           match e with
           | KeyboardInterrupt =>
               Some (emit (Print (nl +:+ nl +:+ "Workflow interrupted by user")) ;;;
                     ret 1)
           | _ =>
               Some (emit (Print (nl +:+ "Error: " +:+ exn_str e)) ;;;
                     (if arg_verbose args then emit Traceback else ret tt) ;;;
                     ret 1)
           end)
  end.

(** [sys.exit(main())]: the exit status of the process.  An exception that
    [main] does not catch ends the interpreter with status 1. *)
Definition exit_code (r : Run Ext Z) : Z :=
  match value r with
  | inl c => c
  | inr _ => 1
  end.

(** ** What a run shows *)

(** The commands of the child processes a computation started. *)
Definition spawned (l : list event) : list (list string) :=
  flat_map (fun e => match e with Spawn c _ _ => [c] | _ => [] end) l.

(** The line a step prints when it is entered. *)
Definition banner (k : Z) : string :=
  if k =? 1 then "STEP 1: Audio Preprocessing"
  else if k =? 2 then "STEP 2: Audio Transcription"
  else if k =? 3 then "STEP 3: Blog Post Generation"
  else "".

Definition banner_stage (e : event) : list Z :=
  match e with
  | Log level message =>
      if String.eqb level "INFO" then
        filter (fun k => String.eqb message (banner k)) [1; 2; 3]
      else []
  | _ => []
  end.

(** The steps a computation entered, in the order of their banners. *)
Definition stages_entered (l : list event) : list Z :=
  flat_map banner_stage l.

(** The script a command runs, and the step it belongs to. *)
Definition script_stage (command : list string) : list Z :=
  match command with
  | _ :: script :: _ =>
      if String.eqb script "preprocess_audio.py" then [1]
      else if String.eqb script "gemini_transcribe.py" then [2]
      else if String.eqb script "gemini_blog_post.py" then [3]
      else []
  | _ => []
  end.

(** The steps whose external operation was started, in order. *)
Definition stages_invoked (l : list event) : list Z :=
  flat_map script_stage (spawned l).

(** The outcome of a step in the words of the specification: a step that
    returns [True] was skipped when it started no process and succeeded when
    it started one; a step that returns [False] failed. *)
Inductive StageOutcome := Skipped | Succeeded | Failed.

Definition stage_outcome (r : Run Ext bool) : option StageOutcome :=
  match value r with
  | inl true =>
      match spawned (emitted r) with
      | [] => Some Skipped
      | _ => Some Succeeded
      end
  | inl false => Some Failed
  | inr _ => None
  end.

(** The artifacts named in the summary. *)
Definition manifest_line (label : string) (p : Path) : event :=
  Log "INFO" ("  ✓ " +:+ label +:+ ": " +:+ str_path p).

Definition manifest (self : Orchestrator) (fs : gmap Path Kind) : list event :=
  (if path_exists fs (processed_audio self)
   then [manifest_line "Processed audio" (processed_audio self)] else [])
  ++ (if path_exists fs (transcript self)
      then [manifest_line "Transcript" (transcript self)] else [])
  ++ (if path_exists fs (blog_post self)
      then [manifest_line "Blog post" (blog_post self)] else []).

(** ** The requested steps and the contract of a stage script *)

(** The steps that a [steps] list selects, in the order [run_workflow]
    considers them. *)
Definition requested (steps : list token) : list Z :=
  List.filter (fun k => contains (TInt k) steps) [1; 2; 3].

(** The command lines that the three steps of [self] run. *)
Definition command_1 (self : Orchestrator) : list string :=
  stage_command self "preprocess_audio.py" (raw_audio self) (processed_audio self).

Definition command_2 (self : Orchestrator) : list string :=
  stage_command self "gemini_transcribe.py" (processed_audio self) (transcript self).

Definition command_3 (self : Orchestrator) : list string :=
  stage_command self "gemini_blog_post.py" (transcript self) (blog_post self).

(** What the specification asks of an external operation that reports
    success (4.2, side effects on success): it leaves its output artifact on
    disk and takes no file away.  [command] writes to [output]. *)
Definition produces (self : Orchestrator) (command : list string)
  (output : Path) : Prop :=
  forall os cp os',
    subprocess_run command SCRIPT_DIR (negb (verbose self)) os = (inl cp, os') ->
    returncode cp = 0 ->
    files os ⊆ files os' /\ path_exists (files os') output = true.

Definition honours_contract (self : Orchestrator) : Prop :=
  produces self (command_1 self) (processed_audio self)
  /\ produces self (command_2 self) (transcript self)
  /\ produces self (command_3 self) (blog_post self).

(** ** The shape of a step's run *)

(** The three events of a step's banner. *)
Definition banner_events (k : Z) : list event :=
  [Log "INFO" (rule 70); Log "INFO" (banner k); Log "INFO" (rule 70)].

(** What [check_file_exists] prints. *)
Definition check_events (self : Orchestrator) (fs : gmap Path Kind)
  (file_path : Path) (step_name : string) : list event :=
  if path_exists fs file_path then
    if force self then
      [Log "INFO" ("File exists but --force is set, will overwrite: "
                     +:+ str_path file_path)]
    else
      [Log "INFO" ("File exists, skipping " +:+ step_name +:+ ": "
                     +:+ str_path file_path)]
  else [].

(** The decision of [check_file_exists]. *)
Definition should_skip (self : Orchestrator) (fs : gmap Path Kind)
  (file_path : Path) : bool :=
  path_exists fs file_path && negb (force self).

(** A step that passed its guards: the banner, the lines of
    [check_file_exists], then either nothing more or [run_command]. *)
Definition guarded (self : Orchestrator) (k : Z) (output : Path)
  (step_name : string) (command : list string) (description : string)
  (os : OS Ext) : Run Ext bool :=
  if should_skip self (files os) output then
    mkRun (inl true) os
      (banner_events k ++ check_events self (files os) output step_name)
  else
    let r := run_command self command description os in
    mkRun (value r) (final r)
      (banner_events k ++ check_events self (files os) output step_name
         ++ emitted r).

(** A step whose input artifact is missing. *)
Definition refused (k : Z) (what : string) (input : Path) (advice : string)
  (os : OS Ext) : Run Ext bool :=
  mkRun (inl false) os
    (banner_events k
       ++ [Log "ERROR" (what +:+ " not found: " +:+ str_path input);
           Log "ERROR" advice]).

(** ** The three steps, by index *)

(** The method that runs step [k]. *)
Definition step_method (k : Z) : Orchestrator -> M Ext bool :=
  if k =? 1 then step_1_preprocess_audio
  else if k =? 2 then step_2_transcribe
  else step_3_generate_blog.

(** The artifact that step [k] reads. *)
Definition input_artifact (self : Orchestrator) (k : Z) : Path :=
  if k =? 1 then raw_audio self
  else if k =? 2 then processed_audio self
  else transcript self.

(** The artifact that step [k] writes. *)
Definition output_artifact (self : Orchestrator) (k : Z) : Path :=
  if k =? 1 then processed_audio self
  else if k =? 2 then transcript self
  else blog_post self.

(** The command line of step [k]. *)
Definition command_of (self : Orchestrator) (k : Z) : list string :=
  if k =? 1 then command_1 self
  else if k =? 2 then command_2 self
  else command_3 self.

(** The line that [run_workflow] prints when step [k] returned [False]. *)
Definition stopped (k : Z) : event :=
  Log "ERROR" ("Workflow stopped due to error in Step " +:+ pretty k).

(** A step starts its command, once, exactly when its input is there and
    [check_file_exists] does not tell it to skip. *)
Definition starts (self : Orchestrator) (fs : gmap Path Kind) (k : Z) : bool :=
  (if k =? 1 then true else path_exists fs (input_artifact self k))
  && negb (should_skip self fs (output_artifact self k)).

(** ** The shape of a whole run *)

(** The interpreter that [get_python_executable] finds. *)
Definition python_for (fs : gmap Path Kind) : string :=
  if path_exists fs (PROJECT_ROOT // ".venv/bin/python")
  then str_path (PROJECT_ROOT // ".venv/bin/python")
  else if path_exists fs (PROJECT_ROOT // "venv/bin/python")
       then str_path (PROJECT_ROOT // "venv/bin/python")
       else sys_executable.

(** The lines that open [run_workflow]. *)
Definition header_events (self : Orchestrator) (steps : list token)
  : list event :=
  [Log "INFO" "";
   Log "INFO" (rule 70);
   Log "INFO" "VOICE BLOG CREATOR - WORKFLOW ORCHESTRATOR";
   Log "INFO" (rule 70);
   Log "INFO" ("Folder: " +:+ folder_number self);
   Log "INFO" ("Input: " +:+ str_path (input_dir self));
   Log "INFO" ("Output: " +:+ str_path (output_dir self));
   Log "INFO" ("Steps to run: " +:+ String.concat ", " (map token_str steps));
   Log "INFO" ("Force overwrite: " +:+ bool_str (force self));
   Log "INFO" ("Verbose: " +:+ bool_str (verbose self));
   Log "INFO" (rule 70);
   Log "INFO" ""].

(** The lines that close a run in which no requested step failed: the
    manifest is taken from the files as they are at that moment. *)
Definition summary_events (self : Orchestrator) (fs : gmap Path Kind)
  : list event :=
  [Log "INFO" "";
   Log "INFO" (rule 70);
   Log "INFO" "WORKFLOW COMPLETE";
   Log "INFO" (rule 70);
   Log "INFO" "Generated files:"]
  ++ manifest self fs
  ++ [Log "INFO" (rule 70)].

(** Step [k] has nothing left to do: its output artifact is there, and so is
    the input artifact that steps 2 and 3 look for first. *)
Definition ready (self : Orchestrator) (fs : gmap Path Kind) (k : Z) : bool :=
  path_exists fs (output_artifact self k)
  && (if k =? 1 then true else path_exists fs (input_artifact self k)).

(** The three [if k in steps:] blocks of [run_workflow] as one loop over the
    requested steps: run the step, record what it returned, stop at the first
    [False], and print the summary when the list is exhausted. *)
Fixpoint run_stages (self : Orchestrator) (ks : list Z)
  (results : gmap Z bool) (os : OS Ext) : Run Ext (gmap Z bool * bool) :=
  match ks with
  | [] => mkRun (inl (results, true)) os (summary_events self (files os))
  | k :: ks' =>
      let r := step_method k self os in
      match value r with
      | inl true =>
          let r' := run_stages self ks' (<[k := true]> results) (final r) in
          mkRun (value r') (final r') (emitted r ++ emitted r')
      | inl false =>
          mkRun (inl (<[k := false]> results, false)) (final r)
            (emitted r ++ [stopped k])
      | inr e => mkRun (inr e) (final r) (emitted r)
      end
  end.

(** The label of step [k]'s artifact in the summary. *)
Definition artifact_label (k : Z) : string :=
  if k =? 1 then "Processed audio"
  else if k =? 2 then "Transcript"
  else "Blog post".

(** The steps are among 1, 2 and 3. *)
Definition known (k : Z) : Prop := k = 1 \/ k = 2 \/ k = 3.

(** ** The command line *)




(** * The Gemini stage scripts *)

(** The model of the disk keeps the kind of each entry, not its contents:
    what a script reads from a file, like everything else that comes from
    outside the project files, belongs to the outside world.  Printing is
    taken to succeed, and no signal arrives between two steps of a script:
    what is proved of a script that fails is proved of the failures of its
    library calls and of its file operations. *)

(** ** What the scripts get from outside *)

(** One piece of a request to the model. *)
Inductive Part :=
  | Text (s : string)
  | InlineData (mime_type : string) (data : string).

(** The answer of the model; reading [response.text] may raise. *)
Record Response := mkResponse { response_text : string + exn }.

(** The environment, the [google.generativeai] and [mimetypes] libraries,
    the contents of files, and the functions of Python's [str] and of its
    number formatting that the scripts use.  The library calls may change
    the outside world and may raise; they do not touch the files. *)
Record Library := mkLibrary {
  (** [os.getenv(name)], after [load_dotenv()] *)
  os_getenv : string -> Ext -> option string;
  (** [genai.configure(api_key=key)] *)
  genai_configure : string -> Ext -> (unit + exn) * Ext;
  (** [genai.GenerativeModel(name)] *)
  genai_GenerativeModel : string -> Ext -> (unit + exn) * Ext;
  (** [self.model.generate_content(...)] *)
  generate_content : list Part -> Ext -> (Response + exn) * Ext;
  (** the decoded text of a regular file *)
  file_text : Path -> Ext -> string + exn;
  (** the bytes of a regular file *)
  file_bytes : Path -> Ext -> string + exn;
  (** [st_size] of an existing entry *)
  file_size : Path -> Ext -> Z;
  (** [mimetypes.guess_type(name)[0]] *)
  guess_type : string -> option string;
  (** [s.strip()] *)
  py_strip : string -> string;
  (** [len(s)] *)
  py_len : string -> Z;
  (** the text of [size / (1024 * 1024)] printed with [:.2f] *)
  format_mb : Z -> string;
  (** what goes wrong, if anything, while a text is written to a file that
      is open for writing: text that cannot be encoded, a full disk, an
      error of the device *)
  write_error : Path -> string -> Ext -> option exn
}.

(** A library call. *)
Definition call {A} (f : Ext -> (A + exn) * Ext) : M Ext A := fun os =>
  let '(res, x) := f (outside os) in
  mkRun res (mkOS (files os) x) [].

(** ** Paths given as strings *)

(** [Path(s)], for a process whose working directory is [cwd]. *)
Definition path_of (cwd : Path) (s : string) : Path := cwd // s.

(** [str(Path(s))] *)
Definition path_text (s : string) : string :=
  if is_absolute s then str_path (parts s)
  else match parts s with
       | [] => "."
       | l => String.concat "/" l
       end.

(** [Path(s).name] *)
Definition path_name (s : string) : string :=
  List.last (parts s) EmptyString.

(** ** Files *)

(** [p.stat().st_size] *)
Definition stat_size (lib : Library) (p : Path) : M Ext Z := fun os =>
  match kind_of (files os) p with
  | Some _ => mkRun (inl (file_size lib p (outside os))) os []
  | None =>
      mkRun (inr (OSError ("No such file or directory: " +:+ str_path p))) os []
  end.

(** Opening [p] for reading: [what] gives what is read from a regular
    file. *)
Definition read_file_as {A} (what : Path -> Ext -> A + exn) (p : Path)
  : M Ext A := fun os =>
  match kind_of (files os) p with
  | Some File => mkRun (what p (outside os)) os []
  | Some Dir => mkRun (inr (OSError ("Is a directory: " +:+ str_path p))) os []
  | None =>
      mkRun (inr (OSError ("No such file or directory: " +:+ str_path p))) os []
  end.

Definition read_file (what : Path -> Ext -> string + exn) (p : Path)
  : M Ext string := read_file_as what p.

(** [p.write_text(data, encoding='utf-8')]: a directory in the place of the
    file, or no directory above it, is an [OSError]; otherwise the file is
    created or emptied, and then the text is encoded and written.  What goes
    wrong from there on, text that cannot be encoded or a write that fails,
    is raised after the file was created. *)
Definition write_text (lib : Library) (p : Path) (data : string)
  : M Ext unit := fun os =>
  match kind_of (files os) p with
  | Some Dir => mkRun (inr (OSError ("Is a directory: " +:+ str_path p))) os []
  | _ =>
      match kind_of (files os) (parent p) with
      | Some Dir =>
          mkRun (match write_error lib p data (outside os) with
                 | None => inl tt
                 | Some e => inr e
                 end)
            (mkOS (<[p := File]> (files os)) (outside os)) []
      | _ =>
          mkRun (inr (OSError ("No such file or directory: " +:+ str_path p)))
            os []
      end
  end.

(** ** The [log] method of the scripts' classes *)

Definition script_log (verbose : bool) (message : string) : M Ext unit :=
  if verbose then emit (Print ("[INFO] " +:+ message)) else ret tt.

(** ** [gemini_blog_post.py] *)

(** The text that [generate_blog_post] puts before the transcript. *)
Definition blog_prompt : string :=
  "You are a professional blog writer. Convert the following transcript into a well-formatted, engaging blog post.

Requirements:
1. Create a compelling, SEO-friendly title
2. Write a brief, engaging introduction that hooks the reader
3. Organize the content into logical sections with clear subheadings (using ## for main sections, ### for subsections)
4. Ensure smooth transitions between sections
5. Add a conclusion that summarizes key points
6. Use proper markdown formatting:
   - Use **bold** for emphasis on important points
   - Use bullet points (-) for lists where appropriate
   - Use > blockquotes for notable quotes or key insights
   - Use code blocks (```) if technical content is discussed
7. Maintain the original meaning and insights from the transcript
8. Optimize for web readability (shorter paragraphs, clear structure)
9. Keep the author's voice and tone

Do NOT add:
- Meta descriptions or SEO tags
- Publishing dates or author bios
- Links or references not in the original content
- Content not present in the transcript

Output the blog post in markdown format, starting with the title as an H1 (#).

Here's the transcript:

---

".

(** [GeminiBlogGenerator.__init__], called without a key *)
Definition GeminiBlogGenerator_init (lib : Library) (verbose : bool)
  : M Ext unit :=
  key <- (fun os => ret (os_getenv lib "GEMINI_API_KEY" (outside os)) os) ;;
  if negb (truthy key) then
    raise (ValueError "GEMINI_API_KEY not found in environment or .env file")
  else
    call (genai_configure lib (default "" key)) ;;;
    call (genai_GenerativeModel lib "gemini-2.5-flash") ;;;
    script_log verbose "Gemini blog generator initialized".

(** [GeminiBlogGenerator.generate_blog_post] *)
Definition generate_blog_post (lib : Library) (cwd : Path) (verbose : bool)
  (transcript_path output_path : string) : M Ext string :=
  script_log verbose (rule 60) ;;;
  script_log verbose "Starting blog post generation" ;;;
  script_log verbose (rule 60) ;;;
  found <- exists_ (path_of cwd transcript_path) ;;
  if negb found then
    raise (OSError ("Transcript not found: " +:+ path_text transcript_path))
  else
    transcript <- read_file (file_text lib) (path_of cwd transcript_path) ;;
    script_log verbose
      ("Loaded transcript (" +:+ pretty (py_len lib transcript)
         +:+ " characters)") ;;;
    let prompt := blog_prompt +:+ transcript in
    script_log verbose "Sending blog post generation request to Gemini..." ;;;
    response <- call (generate_content lib [Text prompt]) ;;
    answer <- (fun os => mkRun (response_text response) os []) ;;
    let blog_post := py_strip lib answer in
    script_log verbose
      ("Blog post generated (" +:+ pretty (py_len lib blog_post)
         +:+ " characters)") ;;;
    script_log verbose ("Saving blog post to " +:+ output_path) ;;;
    mkdir (parent (path_of cwd output_path)) ;;;
    write_text lib (path_of cwd output_path) blog_post ;;;
    script_log verbose (rule 60) ;;;
    script_log verbose "Blog post saved successfully!" ;;;
    script_log verbose (rule 60) ;;;
    ret blog_post.

(** [main] of [gemini_blog_post.py] when both [--input] and [--output] are
    given, which is how the orchestrator calls it. *)
Definition blog_main (lib : Library) (cwd : Path) (input output : string)
  (verbose : bool) : M Ext Z :=
  made <- try_except
            (GeminiBlogGenerator_init lib verbose ;;; ret true)
            (fun e =>
               match e with
               | ValueError _ =>
                   Some (emit (Print ("Error: " +:+ exn_str e)) ;;; ret false)
               | _ => None
               end) ;;
  if negb made then ret 1
  else
    try_except
      (generate_blog_post lib cwd verbose input output ;;;
       emit (Print (nl +:+ "✓ Successfully generated blog post from "
                      +:+ path_name input)) ;;;
       ret 0)
      (fun e =>
         match e with
         | KeyboardInterrupt => None
         | _ =>
             Some (emit (Print (nl +:+ "✗ Error generating blog post: "
                                  +:+ exn_str e)) ;;;
                   (if verbose then emit Traceback else ret tt) ;;;
                   ret 1)
         end).

(** ** [gemini_transcribe.py] *)

(** The request that [transcribe_audio] sends with the audio. *)
Definition transcribe_prompt : string :=
  "Generate a transcript of this audio with the following light redactions:

1. Remove common filler words (um, uh, like, you know, so, actually, basically, etc.)
2. Organize the content into clear paragraphs based on topic shifts
3. Add proper spacing between paragraphs
4. Maintain the original content, meaning, and speaker's voice
5. Do NOT change the actual words or meaning beyond removing fillers
6. Do NOT add content that wasn't spoken
7. Preserve the natural flow and conversational tone

Output only the transcribed text with no additional commentary or formatting markers.".

(** [GeminiTranscriber.__init__], called without a key *)
Definition GeminiTranscriber_init (lib : Library) (verbose : bool)
  : M Ext unit :=
  key <- (fun os => ret (os_getenv lib "GEMINI_API_KEY" (outside os)) os) ;;
  if negb (truthy key) then
    raise (ValueError "GEMINI_API_KEY not found in environment or .env file")
  else
    call (genai_configure lib (default "" key)) ;;;
    call (genai_GenerativeModel lib "gemini-2.5-flash") ;;;
    script_log verbose "Gemini transcriber initialized (gemini-2.5-flash)".

(** [GeminiTranscriber.transcribe_audio] *)
Definition transcribe_audio (lib : Library) (cwd : Path) (verbose : bool)
  (audio_path output_path : string) : M Ext string :=
  script_log verbose (rule 60) ;;;
  script_log verbose "Starting transcription with light redaction" ;;;
  script_log verbose (rule 60) ;;;
  size <- stat_size lib (path_of cwd audio_path) ;;
  script_log verbose ("Audio file size: " +:+ format_mb lib size +:+ "MB") ;;;
  script_log verbose ("Reading audio file: " +:+ path_text audio_path) ;;;
  script_log verbose "Sending transcription request to Gemini..." ;;;
  audio_data <- read_file (file_bytes lib) (path_of cwd audio_path) ;;
  let mime_type :=
    match guess_type lib (path_text audio_path) with
    | Some t => if String.eqb t "" then "audio/mpeg" else t
    | None => "audio/mpeg"
    end in
  script_log verbose ("MIME type: " +:+ mime_type) ;;;
  response <- call (generate_content lib
                      [Text transcribe_prompt; InlineData mime_type audio_data]) ;;
  answer <- (fun os => mkRun (response_text response) os []) ;;
  let transcript := py_strip lib answer in
  script_log verbose
    ("Transcription complete (" +:+ pretty (py_len lib transcript)
       +:+ " characters)") ;;;
  script_log verbose ("Saving transcript to " +:+ output_path) ;;;
  mkdir (parent (path_of cwd output_path)) ;;;
  write_text lib (path_of cwd output_path) transcript ;;;
  script_log verbose (rule 60) ;;;
  script_log verbose "Transcription saved successfully!" ;;;
  script_log verbose (rule 60) ;;;
  ret transcript.

(** [main] of [gemini_transcribe.py] when both [--input] and [--output] are
    given. *)
Definition transcribe_main (lib : Library) (cwd : Path)
  (input output : string) (verbose : bool) : M Ext Z :=
  made <- try_except
            (GeminiTranscriber_init lib verbose ;;; ret true)
            (fun e =>
               match e with
               | ValueError _ =>
                   Some (emit (Print ("Error: " +:+ exn_str e)) ;;; ret false)
               | _ => None
               end) ;;
  if negb made then ret 1
  else
    try_except
      (transcribe_audio lib cwd verbose input output ;;;
       emit (Print (nl +:+ "✓ Successfully transcribed " +:+ path_name input)) ;;;
       ret 0)
      (fun e =>
         match e with
         | KeyboardInterrupt => None
         | _ =>
             Some (emit (Print (nl +:+ "✗ Error transcribing: " +:+ exn_str e)) ;;;
                   (if verbose then emit Traceback else ret tt) ;;;
                   ret 1)
         end).

(** ** Reasoning about computations *)

(** [m], started in a state that satisfies [P], ends in a state that
    satisfies [Q a] when it returns [a] and [E e] when it raises [e]. *)
Definition triple {A} (P : OS Ext -> Prop) (m : M Ext A)
  (Q : A -> OS Ext -> Prop) (E : exn -> OS Ext -> Prop) : Prop :=
  forall os, P os ->
    match value (m os) with
    | inl a => Q a (final (m os))
    | inr e => E e (final (m os))
    end.

(** A statement about the files alone. *)
Definition on_files (F : gmap Path Kind -> Prop) : OS Ext -> Prop :=
  fun os => F (files os).

(** ** Paths that survive printing *)

Fixpoint has_slash (s : string) : bool :=
  match s with
  | EmptyString => false
  | String c s' => Ascii.eqb c "/" || has_slash s'
  end.

(** A component as [pathlib] keeps them: not empty, not ["."], no slash. *)
Definition clean (c : string) : bool := is_component c && negb (has_slash c).

(** What the orchestrator assumes of a child process that runs a script
    whose [main] is [script]: it exits with status 0 only when [main]
    returns 0, and it leaves the state that [main] leaves. *)
Definition runs_script (command : list string) (capture_output : bool)
  (script : M Ext Z) : Prop :=
  forall os cp os',
    subprocess_run command SCRIPT_DIR capture_output os = (inl cp, os') ->
    returncode cp = 0 ->
    value (script os) = inl 0 /\ final (script os) = os'.

(** What [script_log] prints for a list of messages. *)
Definition said (verbose : bool) (messages : list string) : list event :=
  if verbose then map (fun m => Print ("[INFO] " +:+ m)) messages else [].

(** * [preprocess_audio.py] *)

(** What the script gets from [pydub], [numpy] and [noisereduce], and from
    Python's floats.  [Audio] stands for [AudioSegment], [Float] for
    [float]. *)
Record Pydub (Audio Float : Type) := mkPydub {
  (** [AudioSegment.from_file(name)] on a regular file *)
  from_file : Path -> Ext -> Audio + exn;
  (** [len(audio)], in milliseconds *)
  audio_len : Audio -> Z;
  audio_channels : Audio -> Z;
  audio_frame_rate : Audio -> Z;
  set_channels : Audio -> Z -> Audio;
  set_frame_rate : Audio -> Z -> Audio;
  (** [detect_nonsilent(audio, min_silence_len=, silence_thresh=)] *)
  detect_nonsilent : Audio -> Z -> Z -> list (Z * Z);
  (** [AudioSegment.empty()] *)
  audio_empty : Audio;
  (** [audio[start:end]] *)
  audio_slice : Audio -> Z -> Z -> Audio;
  (** [a + b] *)
  audio_append : Audio -> Audio -> Audio;
  (** the samples as an array, [nr.reduce_noise] on them, and the
      [AudioSegment] made of the result *)
  noise_reduced : Audio -> Ext -> (Audio + exn) * Ext;
  (** [pydub.effects.normalize(audio)] *)
  effects_normalize : Audio -> Audio;
  audio_dBFS : Audio -> Float;
  apply_gain : Audio -> Float -> Audio;
  (** [compress_dynamic_range(audio, threshold=-20.0, ratio=4.0,
      attack=5.0, release=50.0)] *)
  compress_dynamic_range : Audio -> Audio;
  (** [audio.export(name, format="mp3", bitrate="128k")] *)
  export_mp3 : Audio -> Path -> OS Ext -> (unit + exn) * OS Ext;
  (** [float(n)] *)
  float_of_int : Z -> Float;
  (** [a - b] *)
  float_sub : Float -> Float -> Float;
  (** [a / b * 100] for integers [a] and [b], [b] not zero *)
  percent : Z -> Z -> Float;
  (** [str(x)] *)
  float_str : Float -> string;
  (** [x] printed with [:.1f] *)
  float_1f : Float -> string
}.

Arguments from_file {Audio Float} _.
Arguments audio_len {Audio Float} _.
Arguments audio_channels {Audio Float} _.
Arguments audio_frame_rate {Audio Float} _.
Arguments set_channels {Audio Float} _.
Arguments set_frame_rate {Audio Float} _.
Arguments detect_nonsilent {Audio Float} _.
Arguments audio_empty {Audio Float} _.
Arguments audio_slice {Audio Float} _.
Arguments audio_append {Audio Float} _.
Arguments noise_reduced {Audio Float} _.
Arguments effects_normalize {Audio Float} _.
Arguments audio_dBFS {Audio Float} _.
Arguments apply_gain {Audio Float} _.
Arguments compress_dynamic_range {Audio Float} _.
Arguments export_mp3 {Audio Float} _.
Arguments float_of_int {Audio Float} _.
Arguments float_sub {Audio Float} _.
Arguments percent {Audio Float} _.
Arguments float_str {Audio Float} _.
Arguments float_1f {Audio Float} _.

Section Preprocessor.

Context {Audio Float : Type} (lib : Pydub Audio Float).

(** The object: [input_path] and [output_path] are [Path(...)] of the two
    strings, in the working directory [cwd]. *)
Record AudioPreprocessor := mkPreprocessor {
  pre_cwd : Path;
  input_path : string;
  output_path : string;
  pre_verbose : bool
}.

Definition pre_log (self : AudioPreprocessor) (message : string)
  : M Ext unit :=
  script_log (pre_verbose self) message.

(** [load_audio] *)
Definition load_audio (self : AudioPreprocessor) : M Ext Audio :=
  pre_log self ("Loading audio from " +:+ path_text (input_path self)) ;;;
  audio <- read_file_as (from_file lib)
             (path_of (pre_cwd self) (input_path self)) ;;
  pre_log self ("Audio loaded: " +:+ pretty (audio_len lib audio) +:+ "ms, "
                  +:+ pretty (audio_channels lib audio) +:+ " channels, "
                  +:+ pretty (audio_frame_rate lib audio) +:+ "Hz") ;;;
  ret audio.

(** [convert_to_mono] *)
Definition convert_to_mono (self : AudioPreprocessor) (audio : Audio)
  : M Ext Audio :=
  if 1 <? audio_channels lib audio then
    pre_log self "Converting stereo to mono" ;;;
    ret (set_channels lib audio 1)
  else
    pre_log self "Audio is already mono" ;;;
    ret audio.

(** The loop of [remove_silence]: each range, widened by [padding] and cut
    to the audio, is appended to [output]. *)
Definition padded (total padding : Z) (range : Z * Z) : Z * Z :=
  (Z.max 0 (fst range - padding), Z.min total (snd range + padding)).

Definition append_ranges (audio : Audio) (padding : Z)
  (ranges : list (Z * Z)) (output : Audio) : Audio :=
  fold_left
    (fun out range =>
       let '(start, stop) := padded (audio_len lib audio) padding range in
       audio_append lib out (audio_slice lib audio start stop))
    ranges output.

(** [remove_silence] *)
Definition remove_silence (self : AudioPreprocessor) (audio : Audio)
  (silence_thresh min_silence_len padding : Z) : M Ext Audio :=
  pre_log self ("Removing silence (threshold: " +:+ pretty silence_thresh
                  +:+ "dB, min_len: " +:+ pretty min_silence_len +:+ "ms)") ;;;
  let nonsilent_ranges :=
    detect_nonsilent lib audio min_silence_len silence_thresh in
  match nonsilent_ranges with
  | [] =>
      pre_log self "Warning: No non-silent audio detected, returning original" ;;;
      ret audio
  | _ =>
      let output := append_ranges audio padding nonsilent_ranges
                      (audio_empty lib) in
      let removed_ms := audio_len lib audio - audio_len lib output in
      if audio_len lib audio =? 0 then
        raise (OtherException "division by zero")
      else
        pre_log self ("Removed " +:+ pretty removed_ms +:+ "ms of silence ("
                        +:+ float_1f lib (percent lib removed_ms
                                            (audio_len lib audio))
                        +:+ "%)") ;;;
        ret output
  end.

(** [reduce_noise] *)
Definition reduce_noise (self : AudioPreprocessor) (audio : Audio)
  : M Ext Audio :=
  pre_log self "Reducing background noise" ;;;
  reduced_audio <- call (noise_reduced lib audio) ;;
  pre_log self "Noise reduction complete" ;;;
  ret reduced_audio.

(** [normalize_audio] *)
Definition normalize_audio (self : AudioPreprocessor) (audio : Audio)
  (target_dBFS : Float) : M Ext Audio :=
  pre_log self ("Normalizing audio (target: " +:+ float_str lib target_dBFS
                  +:+ "dBFS)") ;;;
  let normalized := effects_normalize lib audio in
  let change_in_dBFS := float_sub lib target_dBFS (audio_dBFS lib normalized) in
  let normalized := apply_gain lib normalized change_in_dBFS in
  pre_log self ("Normalized to " +:+ float_1f lib (audio_dBFS lib normalized)
                  +:+ "dBFS") ;;;
  ret normalized.

(** [apply_compression] *)
Definition apply_compression (self : AudioPreprocessor) (audio : Audio)
  : M Ext Audio :=
  pre_log self "Applying dynamic range compression" ;;;
  ret (compress_dynamic_range lib audio).

(** [optimize_for_stt] *)
Definition optimize_for_stt (self : AudioPreprocessor) (audio : Audio)
  : M Ext Audio :=
  pre_log self "Applying STT optimizations" ;;;
  if negb (audio_frame_rate lib audio =? 16000) then
    pre_log self ("Resampling from " +:+ pretty (audio_frame_rate lib audio)
                    +:+ "Hz to 16000Hz") ;;;
    ret (set_frame_rate lib audio 16000)
  else ret audio.

(** [audio.export(str(p), format="mp3", bitrate="128k")] *)
Definition export_to (audio : Audio) (p : Path) : M Ext unit := fun os =>
  let '(res, os') := export_mp3 lib audio p os in
  mkRun res os' [].

(** [name in steps] *)
Definition has_step (name : string) (steps : list string) : bool :=
  existsb (String.eqb name) steps.

Definition all_processing_steps : list string :=
  ["mono"; "silence"; "noise"; "normalize"; "compress"; "optimize"].

(** [process] *)
Definition process (self : AudioPreprocessor) (steps : option (list string))
  : M Ext unit :=
  let steps := default all_processing_steps steps in
  pre_log self (rule 60) ;;;
  pre_log self "Starting audio preprocessing" ;;;
  pre_log self (rule 60) ;;;
  audio <- load_audio self ;;
  audio <- (if has_step "mono" steps then convert_to_mono self audio
            else ret audio) ;;
  audio <- (if has_step "silence" steps
            then remove_silence self audio (-40) 500 300
            else ret audio) ;;
  audio <- (if has_step "noise" steps then reduce_noise self audio
            else ret audio) ;;
  audio <- (if has_step "normalize" steps
            then normalize_audio self audio (float_of_int lib (-20))
            else ret audio) ;;
  audio <- (if has_step "compress" steps then apply_compression self audio
            else ret audio) ;;
  audio <- (if has_step "optimize" steps then optimize_for_stt self audio
            else ret audio) ;;
  pre_log self ("Saving processed audio to " +:+ path_text (output_path self)) ;;;
  export_to audio (path_of (pre_cwd self) (output_path self)) ;;;
  pre_log self (rule 60) ;;;
  pre_log self "Processing complete!" ;;;
  pre_log self ("Output: " +:+ path_text (output_path self)) ;;;
  pre_log self (rule 60).

(** [main] of [preprocess_audio.py] when both [--input] and [--output] are
    given; [steps] is [args.steps]. *)
Definition preprocess_main (cwd : Path) (input output : string)
  (steps : option (list string)) (verbose : bool) : M Ext Z :=
  mkdir (parent (path_of cwd output)) ;;;
  let preprocessor := mkPreprocessor cwd input output verbose in
  try_except
    (process preprocessor steps ;;;
     emit (Print (nl +:+ "✓ Successfully processed " +:+ path_name input)) ;;;
     ret 0)
    (fun e =>
       match e with
       | KeyboardInterrupt => None
       | _ =>
           Some (emit (Print (nl +:+ "✗ Error processing " +:+ path_name input
                                +:+ ": " +:+ exn_str e)) ;;;
                 (if verbose then emit Traceback else ret tt) ;;;
                 ret 1)
       end).

End Preprocessor.

(** What [pydub] promises of lengths: a slice within the audio has the
    length of its range, and appending adds lengths. *)
Definition length_laws {Audio Float : Type} (lib : Pydub Audio Float) : Prop :=
  audio_len lib (audio_empty lib) = 0
  /\ (forall a b, audio_len lib (audio_append lib a b)
                  = audio_len lib a + audio_len lib b)
  /\ (forall a start stop,
        0 <= start <= stop -> stop <= audio_len lib a ->
        audio_len lib (audio_slice lib a start stop) = stop - start).

(** What [pydub] promises of [export]: it takes no file away, and when it
    returns the file is there. *)
Definition export_laws {Audio Float : Type} (lib : Pydub Audio Float) : Prop :=
  forall audio p os res os',
    export_mp3 lib audio p os = (res, os') ->
    files os ⊆ files os'
    /\ (res = inl tt -> path_exists (files os') p = true).

(** The length that the padded ranges add up to. *)
Definition padded_length (total padding : Z) (ranges : list (Z * Z)) : Z :=
  fold_right (fun range acc =>
                let '(start, stop) := padded total padding range in
                (stop - start) + acc) 0 ranges.

(** * Properties *)

(** ** How each function runs *)

Lemma run_command_run self command description os :
  run_command self command description os =
  let '(res, os') := subprocess_run command SCRIPT_DIR (negb (verbose self)) os in
  match res with
  | inl cp =>
      if returncode cp =? 0 then
        mkRun (inl true) os'
          [Log "INFO" ("Running: " +:+ description);
           Spawn command SCRIPT_DIR (negb (verbose self));
           Log "SUCCESS" ("Completed: " +:+ description)]
      else
        mkRun (inl false) os'
          ([Log "INFO" ("Running: " +:+ description);
            Spawn command SCRIPT_DIR (negb (verbose self));
            Log "ERROR" ("Failed: " +:+ description)]
           ++ (if negb (verbose self) && truthy (stderr cp)
               then [Print (default "" (stderr cp))] else []))
  | inr e =>
      mkRun (inr e) os'
        [Log "INFO" ("Running: " +:+ description);
         Spawn command SCRIPT_DIR (negb (verbose self))]
  end.
Proof.
  unfold run_command, spawn, log, emit, bind, ret.
  cbv beta zeta. cbn [value final emitted].
  destruct (subprocess_run command SCRIPT_DIR (negb (verbose self)) os)
    as [[cp | e] os']; cbn; [| reflexivity].
  destruct (returncode cp =? 0); cbn; [reflexivity |].
  destruct (negb (verbose self) && truthy (stderr cp)); reflexivity.
Qed.

Lemma check_file_exists_run self file_path step_name os :
  check_file_exists self file_path step_name os =
  mkRun (inl (should_skip self (files os) file_path)) os
    (check_events self (files os) file_path step_name).
Proof.
  unfold check_file_exists, should_skip, check_events, exists_, log, emit,
    bind, ret; cbn.
  destruct (path_exists (files os) file_path); [| reflexivity].
  destruct (force self); reflexivity.
Qed.

Ltac run_steps :=
  unfold bind, log, emit, exists_, ret; cbv beta zeta;
  cbn [value final emitted negb];
  rewrite ?check_file_exists_run; cbn [value final emitted].

Ltac close_run :=
  cbn [value final emitted app]; rewrite ?app_nil_r; reflexivity.

Lemma step_1_run self os :
  step_1_preprocess_audio self os =
  guarded self 1 (processed_audio self) "audio preprocessing"
    (command_1 self) "Audio preprocessing" os.
Proof.
  unfold step_1_preprocess_audio, guarded. run_steps.
  destruct (should_skip self (files os) (processed_audio self)); [close_run |].
  fold (command_1 self).
  destruct (run_command self (command_1 self) "Audio preprocessing" os)
    as [[v | e] o ev]; close_run.
Qed.

Lemma step_2_run self os :
  step_2_transcribe self os =
  if path_exists (files os) (processed_audio self) then
    guarded self 2 (transcript self) "transcription"
      (command_2 self) "Audio transcription" os
  else
    refused 2 "Processed audio" (processed_audio self)
      "Please run Step 1 first" os.
Proof.
  unfold step_2_transcribe, guarded, refused. run_steps.
  destruct (path_exists (files os) (processed_audio self)); [| close_run].
  run_steps.
  destruct (should_skip self (files os) (transcript self)); [close_run |].
  fold (command_2 self).
  destruct (run_command self (command_2 self) "Audio transcription" os)
    as [[v | e] o ev]; close_run.
Qed.

Lemma step_3_run self os :
  step_3_generate_blog self os =
  if path_exists (files os) (transcript self) then
    guarded self 3 (blog_post self) "blog post generation"
      (command_3 self) "Blog post generation" os
  else
    refused 3 "Transcript" (transcript self) "Please run Step 2 first" os.
Proof.
  unfold step_3_generate_blog, guarded, refused. run_steps.
  destruct (path_exists (files os) (transcript self)); [| close_run].
  run_steps.
  destruct (should_skip self (files os) (blog_post self)); [close_run |].
  fold (command_3 self).
  destruct (run_command self (command_3 self) "Blog post generation" os)
    as [[v | e] o ev]; close_run.
Qed.

(** ** What the events of a run show *)

Lemma spawned_app l1 l2 : spawned (l1 ++ l2) = spawned l1 ++ spawned l2.
Proof. apply flat_map_app. Qed.

Lemma stages_entered_app l1 l2 :
  stages_entered (l1 ++ l2) = stages_entered l1 ++ stages_entered l2.
Proof. apply flat_map_app. Qed.

Lemma stages_invoked_app l1 l2 :
  stages_invoked (l1 ++ l2) = stages_invoked l1 ++ stages_invoked l2.
Proof.
  unfold stages_invoked. rewrite spawned_app. apply flat_map_app.
Qed.

Lemma banner_events_entered k :
  k = 1 \/ k = 2 \/ k = 3 -> stages_entered (banner_events k) = [k].
Proof. intros [-> | [-> | ->]]; reflexivity. Qed.

Lemma banner_events_spawned k : spawned (banner_events k) = [].
Proof. reflexivity. Qed.

Lemma check_events_entered self fs p name :
  stages_entered (check_events self fs p name) = [].
Proof.
  unfold check_events.
  destruct (path_exists fs p); [| reflexivity].
  destruct (force self); reflexivity.
Qed.

Lemma check_events_spawned self fs p name :
  spawned (check_events self fs p name) = [].
Proof.
  unfold check_events.
  destruct (path_exists fs p); [| reflexivity].
  destruct (force self); reflexivity.
Qed.

Lemma run_command_entered self command description os :
  stages_entered (emitted (run_command self command description os)) = [].
Proof.
  rewrite run_command_run.
  destruct (subprocess_run command SCRIPT_DIR (negb (verbose self)) os)
    as [[cp | e] os']; [| reflexivity].
  destruct (returncode cp =? 0); [reflexivity |].
  destruct (negb (verbose self) && truthy (stderr cp)); reflexivity.
Qed.

Lemma run_command_spawned self command description os :
  spawned (emitted (run_command self command description os)) = [command].
Proof.
  rewrite run_command_run.
  destruct (subprocess_run command SCRIPT_DIR (negb (verbose self)) os)
    as [[cp | e] os']; [| reflexivity].
  destruct (returncode cp =? 0); [reflexivity |].
  destruct (negb (verbose self) && truthy (stderr cp)); reflexivity.
Qed.

Lemma guarded_entered self k output name command description os :
  k = 1 \/ k = 2 \/ k = 3 ->
  stages_entered (emitted (guarded self k output name command description os))
  = [k].
Proof.
  intros Hk. unfold guarded.
  destruct (should_skip self (files os) output); cbn [emitted];
    rewrite !stages_entered_app, ?run_command_entered, check_events_entered,
      (banner_events_entered k Hk); reflexivity.
Qed.

Lemma guarded_spawned self k output name command description os :
  spawned (emitted (guarded self k output name command description os))
  = if should_skip self (files os) output then [] else [command].
Proof.
  unfold guarded.
  destruct (should_skip self (files os) output); cbn [emitted];
    rewrite !spawned_app, ?run_command_spawned, check_events_spawned,
      banner_events_spawned; reflexivity.
Qed.

Lemma refused_entered k what input advice os :
  k = 1 \/ k = 2 \/ k = 3 ->
  stages_entered (emitted (refused k what input advice os)) = [k].
Proof.
  intros Hk. unfold refused. cbn [emitted].
  rewrite stages_entered_app, (banner_events_entered k Hk). reflexivity.
Qed.

Lemma refused_spawned k what input advice os :
  spawned (emitted (refused k what input advice os)) = [].
Proof. reflexivity. Qed.

Lemma step_entered self os k :
  k = 1 \/ k = 2 \/ k = 3 ->
  stages_entered (emitted (step_method k self os)) = [k].
Proof.
  intros Hk. unfold step_method.
  destruct Hk as [-> | [-> | ->]]; cbn [Z.eqb Pos.eqb].
  - rewrite step_1_run. apply guarded_entered; auto.
  - rewrite step_2_run.
    destruct (path_exists (files os) (processed_audio self));
      [apply guarded_entered | apply refused_entered]; auto.
  - rewrite step_3_run.
    destruct (path_exists (files os) (transcript self));
      [apply guarded_entered | apply refused_entered]; auto.
Qed.

Lemma step_spawned self os k :
  k = 1 \/ k = 2 \/ k = 3 ->
  spawned (emitted (step_method k self os))
  = if starts self (files os) k then [command_of self k] else [].
Proof.
  intros Hk. unfold step_method, starts, command_of, input_artifact,
    output_artifact.
  destruct Hk as [-> | [-> | ->]]; cbn [Z.eqb Pos.eqb andb].
  - rewrite step_1_run, guarded_spawned.
    destruct (should_skip self (files os) (processed_audio self)); reflexivity.
  - rewrite step_2_run.
    destruct (path_exists (files os) (processed_audio self)); cbn [andb].
    + rewrite guarded_spawned.
      destruct (should_skip self (files os) (transcript self)); reflexivity.
    + reflexivity.
  - rewrite step_3_run.
    destruct (path_exists (files os) (transcript self)); cbn [andb].
    + rewrite guarded_spawned.
      destruct (should_skip self (files os) (blog_post self)); reflexivity.
    + reflexivity.
Qed.

(** The run of a step that starts its command: the state and the value are
    those of [subprocess.run]. *)
Lemma step_started self os k :
  k = 1 \/ k = 2 \/ k = 3 ->
  starts self (files os) k = true ->
  let r := step_method k self os in
  let out := subprocess_run (command_of self k) SCRIPT_DIR
               (negb (verbose self)) os in
  final r = snd out
  /\ value r = match fst out with
               | inl cp => inl (returncode cp =? 0)
               | inr e => inr e
               end.
Proof.
  intros Hk. unfold step_method, starts, command_of, input_artifact,
    output_artifact.
  destruct Hk as [-> | [-> | ->]]; cbn [Z.eqb Pos.eqb];
    [rewrite step_1_run | rewrite step_2_run | rewrite step_3_run];
    intros Hs; apply andb_prop in Hs as [Hi Hn];
    apply negb_true_iff in Hn; try rewrite Hi; unfold guarded; rewrite Hn;
    cbn [value final emitted]; rewrite run_command_run;
    match goal with
    | |- context [subprocess_run ?c ?d ?b ?o] =>
        destruct (subprocess_run c d b o) as [[cp | e] os']
    end; cbn [fst snd]; try (destruct (returncode cp =? 0)); auto.
Qed.

(** The run of a step that does not start its command. *)
Lemma step_not_started self os k :
  k = 1 \/ k = 2 \/ k = 3 ->
  starts self (files os) k = false ->
  let r := step_method k self os in
  final r = os
  /\ value r = inl ((if k =? 1 then true
                     else path_exists (files os) (input_artifact self k))
                    && should_skip self (files os) (output_artifact self k)).
Proof.
  intros Hk. unfold step_method, starts, command_of, input_artifact,
    output_artifact.
  destruct Hk as [-> | [-> | ->]]; cbn [Z.eqb Pos.eqb andb];
    [rewrite step_1_run | rewrite step_2_run | rewrite step_3_run];
    intros Hs.
  - apply negb_false_iff in Hs. unfold guarded. rewrite Hs. auto.
  - destruct (path_exists (files os) (processed_audio self)); cbn [andb] in *.
    + apply negb_false_iff in Hs. unfold guarded. rewrite Hs. auto.
    + auto.
  - destruct (path_exists (files os) (transcript self)); cbn [andb] in *.
    + apply negb_false_iff in Hs. unfold guarded. rewrite Hs. auto.
    + auto.
Qed.

(** ** The completion check and the outcome of a step *)

(** C5.  [check_file_exists] returns [True] exactly when the path exists and
    [force] is off: it returns [False] for a missing path, and [False] for an
    existing path under [--force].  It changes nothing and starts no process.
    Step 1 therefore runs its command again over an existing
    [processed.mp3] when [force] is on, and skips it only when [force] is
    off. *)
Theorem check_file_exists_decides self file_path step_name os :
  let r := check_file_exists self file_path step_name os in
  value r = inl (path_exists (files os) file_path && negb (force self))
  /\ final r = os
  /\ spawned (emitted r) = []
  /\ spawned (emitted (step_1_preprocess_audio self os))
     = if path_exists (files os) (processed_audio self) && negb (force self)
       then [] else [command_1 self].
Proof.
  cbv zeta. rewrite check_file_exists_run. cbn [value final emitted].
  repeat split.
  - apply check_events_spawned.
  - rewrite step_1_run, guarded_spawned. reflexivity.
Qed.

Lemma stage_outcome_not_started self os k :
  k = 1 \/ k = 2 \/ k = 3 ->
  starts self (files os) k = false ->
  stage_outcome (step_method k self os)
  = if (if k =? 1 then true else path_exists (files os) (input_artifact self k))
         && should_skip self (files os) (output_artifact self k)
    then Some Skipped else Some Failed.
Proof.
  intros Hk Hs. unfold stage_outcome.
  destruct (step_not_started self os k Hk Hs) as [_ ->].
  rewrite (step_spawned self os k Hk), Hs.
  destruct ((if k =? 1 then true
             else path_exists (files os) (input_artifact self k))
            && should_skip self (files os) (output_artifact self k));
    reflexivity.
Qed.

(** C1, as amended.  For step 2 and step 3 the input artifact is looked for
    first.  When the output artifact exists and [force] is off, the step is
    skipped if its input artifact exists and fails if it does not; in both
    cases no process is started and nothing changes. *)
Theorem skip_after_input_check self os k :
  k = 2 \/ k = 3 ->
  path_exists (files os) (output_artifact self k) = true ->
  force self = false ->
  let r := step_method k self os in
  stage_outcome r
  = (if path_exists (files os) (input_artifact self k)
     then Some Skipped else Some Failed)
  /\ spawned (emitted r) = []
  /\ final r = os.
Proof.
  intros Hk Hout Hforce r.
  assert (Hk3 : k = 1 \/ k = 2 \/ k = 3) by tauto.
  assert (Hskip : should_skip self (files os) (output_artifact self k) = true).
  { unfold should_skip. rewrite Hout, Hforce. reflexivity. }
  assert (Hs : starts self (files os) k = false).
  { unfold starts. rewrite Hskip. apply andb_false_r. }
  subst r. repeat split.
  - rewrite (stage_outcome_not_started self os k Hk3 Hs), Hskip.
    destruct Hk as [-> | ->]; cbn [Z.eqb Pos.eqb]; rewrite andb_true_r;
      reflexivity.
  - rewrite (step_spawned self os k Hk3), Hs. reflexivity.
  - apply (step_not_started self os k Hk3 Hs).
Qed.

(** C2, as amended.  When a step starts its external operation, it starts it
    once, and the outcome is read off the termination status alone: the step
    succeeded when the status is zero, whether or not the output artifact
    exists afterwards, and failed when it is not zero.  An error raised by
    [subprocess.run] is not caught by the step: it leaves the step as an
    exception. *)
Theorem outcome_is_exit_status self os k :
  k = 1 \/ k = 2 \/ k = 3 ->
  let r := step_method k self os in
  spawned (emitted r) <> [] ->
  let out := subprocess_run (command_of self k) SCRIPT_DIR
               (negb (verbose self)) os in
  spawned (emitted r) = [command_of self k]
  /\ final r = snd out
  /\ value r = match fst out with
               | inl cp => inl (returncode cp =? 0)
               | inr e => inr e
               end
  /\ stage_outcome r = match fst out with
                       | inl cp =>
                           Some (if returncode cp =? 0
                                 then Succeeded else Failed)
                       | inr _ => None
                       end.
Proof.
  intros Hk r Hsp out. subst r.
  rewrite (step_spawned self os k Hk) in Hsp.
  destruct (starts self (files os) k) eqn:Hs; [| congruence].
  destruct (step_started self os k Hk Hs) as [Hfin Hval].
  fold out in Hfin, Hval.
  assert (Hcmd : spawned (emitted (step_method k self os)) = [command_of self k]).
  { rewrite (step_spawned self os k Hk), Hs. reflexivity. }
  repeat split; [exact Hcmd | exact Hfin | exact Hval |].
  unfold stage_outcome. rewrite Hval, Hcmd.
  destruct (fst out) as [cp | e]; [| reflexivity].
  destruct (returncode cp =? 0); reflexivity.
Qed.

(** ** The run of [run_workflow] and of [main] *)

Ltac run_lazy :=
  lazy beta iota zeta delta
    [bind log emit exists_ ret raise value final emitted app].

Lemma header_run self steps os :
  header self steps os = mkRun (inl tt) os (header_events self steps).
Proof. reflexivity. Qed.

Lemma summary_run self os :
  summary self os = mkRun (inl true) os (summary_events self (files os)).
Proof.
  unfold summary, summary_events, manifest, report, manifest_line. run_lazy.
  destruct (path_exists (files os) (processed_audio self));
    destruct (path_exists (files os) (transcript self));
    destruct (path_exists (files os) (blog_post self)); reflexivity.
Qed.

Lemma header_events_entered self steps :
  stages_entered (header_events self steps) = [].
Proof. reflexivity. Qed.

Lemma header_events_spawned self steps :
  spawned (header_events self steps) = [].
Proof. reflexivity. Qed.

Lemma summary_events_entered self fs :
  stages_entered (summary_events self fs) = [].
Proof.
  unfold summary_events, manifest.
  destruct (path_exists fs (processed_audio self));
    destruct (path_exists fs (transcript self));
    destruct (path_exists fs (blog_post self)); reflexivity.
Qed.

Lemma summary_events_spawned self fs :
  spawned (summary_events self fs) = [].
Proof.
  unfold summary_events, manifest.
  destruct (path_exists fs (processed_audio self));
    destruct (path_exists fs (transcript self));
    destruct (path_exists fs (blog_post self)); reflexivity.
Qed.

(** What [run_workflow] does with the result of a requested step: go on with
    [rest], or stop. *)
Lemma from_step_3_run self steps results os :
  from_step_3 self steps results os =
  if contains (TInt 3) steps then
    let r := step_3_generate_blog self os in
    match value r with
    | inl true =>
        mkRun (inl (<[3 := true]> results, true)) (final r)
          (emitted r ++ summary_events self (files (final r)))
    | inl false =>
        mkRun (inl (<[3 := false]> results, false)) (final r)
          (emitted r ++ [stopped 3])
    | inr e => mkRun (inr e) (final r) (emitted r)
    end
  else mkRun (inl (results, true)) os (summary_events self (files os)).
Proof.
  unfold from_step_3.
  destruct (contains (TInt 3) steps).
  - unfold bind at 1. cbv zeta.
    destruct (step_3_generate_blog self os) as [[[] | e] o ev];
      cbn [value final emitted negb]; [| reflexivity | reflexivity].
    unfold bind. rewrite summary_run. cbn. rewrite app_nil_r. reflexivity.
  - unfold bind. rewrite summary_run. cbn. rewrite app_nil_r. reflexivity.
Qed.

Lemma from_step_2_run self steps results os :
  from_step_2 self steps results os =
  if contains (TInt 2) steps then
    let r := step_2_transcribe self os in
    match value r with
    | inl true =>
        let r' := from_step_3 self steps (<[2 := true]> results) (final r) in
        mkRun (value r') (final r') (emitted r ++ emitted r')
    | inl false =>
        mkRun (inl (<[2 := false]> results, false)) (final r)
          (emitted r ++ [stopped 2])
    | inr e => mkRun (inr e) (final r) (emitted r)
    end
  else from_step_3 self steps results os.
Proof.
  unfold from_step_2.
  destruct (contains (TInt 2) steps); [| reflexivity].
  unfold bind at 1. cbv zeta.
  destruct (step_2_transcribe self os) as [[[] | e] o ev];
    cbn [value final emitted negb]; reflexivity.
Qed.

Lemma from_step_1_run self steps results os :
  from_step_1 self steps results os =
  if contains (TInt 1) steps then
    let r := step_1_preprocess_audio self os in
    match value r with
    | inl true =>
        let r' := from_step_2 self steps (<[1 := true]> results) (final r) in
        mkRun (value r') (final r') (emitted r ++ emitted r')
    | inl false =>
        mkRun (inl (<[1 := false]> results, false)) (final r)
          (emitted r ++ [stopped 1])
    | inr e => mkRun (inr e) (final r) (emitted r)
    end
  else from_step_2 self steps results os.
Proof.
  unfold from_step_1.
  destruct (contains (TInt 1) steps); [| reflexivity].
  unfold bind at 1. cbv zeta.
  destruct (step_1_preprocess_audio self os) as [[[] | e] o ev];
    cbn [value final emitted negb]; reflexivity.
Qed.

Lemma run_workflow_results_run self steps os :
  run_workflow_results self steps os =
  let r := from_step_1 self (effective_steps steps) ∅ os in
  mkRun (value r) (final r)
    (header_events self (effective_steps steps) ++ emitted r).
Proof.
  unfold run_workflow_results. unfold bind at 1. rewrite header_run.
  cbn [value final emitted].
  destruct (from_step_1 self (effective_steps steps) ∅ os) as [[v | e] o ev];
    reflexivity.
Qed.

Lemma run_workflow_run self steps os :
  run_workflow self steps os =
  let r := run_workflow_results self steps os in
  mkRun (match value r with inl p => inl (snd p) | inr e => inr e end)
    (final r) (emitted r).
Proof.
  unfold run_workflow, bind, ret. cbv zeta.
  destruct (run_workflow_results self steps os) as [[v | e] o ev];
    cbn [value final emitted]; rewrite ?app_nil_r; reflexivity.
Qed.

Lemma get_python_executable_run os :
  get_python_executable os = mkRun (inl (python_for (files os))) os [].
Proof.
  unfold get_python_executable, python_for. run_lazy.
  destruct (path_exists (files os) (PROJECT_ROOT // ".venv/bin/python"));
    [reflexivity |].
  destruct (path_exists (files os) (PROJECT_ROOT // "venv/bin/python"));
    reflexivity.
Qed.

(** [__init__]: two checks, then the output directory. *)
Lemma init_run folder v f os :
  init folder v f os =
  let self := new_orchestrator folder v f (python_for (files os)) in
  if negb (path_exists (files os) (input_dir self)) then
    mkRun (inr (ValueError ("Input folder not found: "
                              +:+ str_path (input_dir self)))) os []
  else if negb (path_exists (files os) (raw_audio self)) then
    mkRun (inr (ValueError ("Raw audio not found: "
                              +:+ str_path (raw_audio self)))) os []
  else
    match mkdir_p (files os) (output_dir self) with
    | Some fs' => mkRun (inl self) (mkOS fs' (outside os)) []
    | None =>
        mkRun (inr (OSError ("File exists: " +:+ str_path (output_dir self))))
          os []
    end.
Proof.
  unfold init, get_python_executable, python_for, mkdir. run_lazy.
  destruct (path_exists (files os) (PROJECT_ROOT // ".venv/bin/python"));
    [| destruct (path_exists (files os) (PROJECT_ROOT // "venv/bin/python"))];
    run_lazy;
    match goal with
    | |- context [path_exists (files os) (input_dir ?s)] =>
        destruct (path_exists (files os) (input_dir s)); cbn [negb];
        [| reflexivity];
        destruct (path_exists (files os) (raw_audio s)); cbn [negb];
        [| reflexivity];
        destruct (mkdir_p (files os) (output_dir s)); reflexivity
    end.
Qed.

Lemma init_emits_nothing folder v f os : emitted (init folder v f os) = [].
Proof.
  rewrite init_run. cbv zeta.
  repeat match goal with
         | |- context [if ?b then _ else _] => destruct b
         | |- context [match ?o with Some _ => _ | None => _ end] => destruct o
         end; reflexivity.
Qed.

(** The steps that [main] hands to [run_workflow]. *)
Lemma main_run args os :
  main args os =
  let i := init (arg_folder args) (arg_verbose args) (arg_force args) os in
  match value i with
  | inr (ValueError msg) => mkRun (inl 1) (final i) [Print ("Error: " +:+ msg)]
  | inr e => mkRun (inr e) (final i) []
  | inl self =>
      let r := run_workflow self (option_map (map TInt) (arg_steps args))
                 (final i) in
      match value r with
      | inl success =>
          mkRun (inl (if success : bool then 0 else 1)) (final r) (emitted r)
      | inr KeyboardInterrupt =>
          mkRun (inl 1) (final r)
            (emitted r ++ [Print (nl +:+ nl +:+ "Workflow interrupted by user")])
      | inr e =>
          mkRun (inl 1) (final r)
            (emitted r ++ [Print (nl +:+ "Error: " +:+ exn_str e)]
               ++ (if arg_verbose args then [Traceback] else []))
      end
  end.
Proof.
  unfold main.
  lazy beta iota zeta delta [bind try_except emit ret value final emitted].
  pose proof (init_emits_nothing (arg_folder args) (arg_verbose args)
                (arg_force args) os) as Hnil.
  destruct (init (arg_folder args) (arg_verbose args) (arg_force args) os)
    as [[self | e] o ev]; cbn [emitted] in Hnil; subst ev;
    cbn [value final emitted app].
  - destruct (run_workflow self (option_map (map TInt) (arg_steps args)) o)
      as [[b | e] o' ev']; cbn [value final emitted app];
      rewrite ?app_nil_r; [reflexivity |].
    destruct e; cbn [value final emitted app]; try reflexivity;
      destruct (arg_verbose args); cbn [value final emitted app];
      rewrite ?app_nil_r; reflexivity.
  - destruct e; cbn [value final emitted app]; reflexivity.
Qed.

(** ** The requested steps, one after the other *)

Lemma requested_known steps : Forall known (requested steps).
Proof.
  unfold requested. apply Forall_forall. intros k Hk.
  apply list_elem_of_In, filter_In in Hk as [Hk _]. unfold known.
  cbn in Hk. intuition.
Qed.

Lemma requested_sorted steps : sublist (requested steps) [1; 2; 3].
Proof.
  unfold requested. cbn [List.filter].
  destruct (contains (TInt 1) steps), (contains (TInt 2) steps),
    (contains (TInt 3) steps);
    repeat first [apply sublist_skip | apply sublist_cons | apply sublist_nil].
Qed.

Lemma from_step_1_stages self steps results os :
  from_step_1 self steps results os
  = run_stages self (requested steps) results os.
Proof.
  rewrite from_step_1_run. unfold requested. cbn [List.filter].
  destruct (contains (TInt 1) steps); cbn [run_stages].
  - change (step_method 1 self os) with (step_1_preprocess_audio self os).
    destruct (value (step_1_preprocess_audio self os)) as [[|] | e];
      try reflexivity.
    cbv zeta. rewrite from_step_2_run.
    destruct (contains (TInt 2) steps); cbn [run_stages].
    + change (step_method 2 self ?o) with (step_2_transcribe self o).
      destruct (value (step_2_transcribe self _)) as [[|] | e];
        try reflexivity.
      cbv zeta. rewrite from_step_3_run.
      destruct (contains (TInt 3) steps); cbn [run_stages]; [| reflexivity].
      change (step_method 3 self ?o) with (step_3_generate_blog self o).
      destruct (value (step_3_generate_blog self _)) as [[|] | e];
        reflexivity.
    + cbv zeta. rewrite from_step_3_run.
      destruct (contains (TInt 3) steps); cbn [run_stages]; [| reflexivity].
      change (step_method 3 self ?o) with (step_3_generate_blog self o).
      destruct (value (step_3_generate_blog self _)) as [[|] | e];
        reflexivity.
  - rewrite from_step_2_run.
    destruct (contains (TInt 2) steps); cbn [run_stages].
    + change (step_method 2 self ?o) with (step_2_transcribe self o).
      destruct (value (step_2_transcribe self _)) as [[|] | e];
        try reflexivity.
      cbv zeta. rewrite from_step_3_run.
      destruct (contains (TInt 3) steps); cbn [run_stages]; [| reflexivity].
      change (step_method 3 self ?o) with (step_3_generate_blog self o).
      destruct (value (step_3_generate_blog self _)) as [[|] | e];
        reflexivity.
    + rewrite from_step_3_run.
      destruct (contains (TInt 3) steps); cbn [run_stages]; [| reflexivity].
      change (step_method 3 self ?o) with (step_3_generate_blog self o).
      destruct (value (step_3_generate_blog self _)) as [[|] | e];
        reflexivity.
Qed.

Lemma run_workflow_results_stages self steps os :
  run_workflow_results self steps os =
  let r := run_stages self (requested (effective_steps steps)) ∅ os in
  mkRun (value r) (final r)
    (header_events self (effective_steps steps) ++ emitted r).
Proof.
  rewrite run_workflow_results_run. cbv zeta.
  rewrite from_step_1_stages. reflexivity.
Qed.

Lemma stopped_entered k : stages_entered [stopped k] = [].
Proof. reflexivity. Qed.

Lemma stopped_spawned k : spawned [stopped k] = [].
Proof. reflexivity. Qed.

Lemma script_stage_command self k :
  known k -> script_stage (command_of self k) = [k].
Proof. intros [-> | [-> | ->]]; reflexivity. Qed.

Lemma step_invoked self os k :
  known k ->
  stages_invoked (emitted (step_method k self os))
  = if starts self (files os) k then [k] else [].
Proof.
  intros Hk. unfold stages_invoked. rewrite (step_spawned self os k Hk).
  destruct (starts self (files os) k); [| reflexivity].
  cbn [flat_map]. rewrite (script_stage_command self k Hk). reflexivity.
Qed.

(** The steps that a run of the loop enters are an initial part of the list
    it was given, and all of it when the loop ends well. *)
Lemma run_stages_entered self ks : forall results os,
  Forall known ks ->
  let r := run_stages self ks results os in
  stages_entered (emitted r) `prefix_of` ks
  /\ (forall res, value r = inl (res, true) -> stages_entered (emitted r) = ks).
Proof.
  induction ks as [| k ks IH]; intros results os Hks; cbn [run_stages].
  - cbn [emitted value]. rewrite summary_events_entered. split; [| reflexivity].
    apply prefix_nil.
  - apply Forall_cons in Hks as [Hk Hks].
    pose proof (step_entered self os k Hk) as He.
    destruct (step_method k self os) as [[[|] | e] o ev];
      cbn [value final emitted] in *.
    + destruct (IH (<[k := true]> results) o Hks) as [Hp Hall].
      rewrite stages_entered_app, He. split.
      * apply prefix_cons. exact Hp.
      * intros res Hv. cbn [app]. f_equal. apply (Hall res Hv).
    + rewrite stages_entered_app, He, stopped_entered. split.
      * apply prefix_cons, prefix_nil.
      * intros res Hv. discriminate.
    + rewrite He. split.
      * apply prefix_cons, prefix_nil.
      * intros res Hv. discriminate.
Qed.

(** A process is started only for a step that was entered. *)
Lemma run_stages_invoked self ks : forall results os,
  Forall known ks ->
  let r := run_stages self ks results os in
  stages_invoked (emitted r) `sublist_of` stages_entered (emitted r).
Proof.
  induction ks as [| k ks IH]; intros results os Hks; cbn [run_stages].
  - cbn [emitted]. unfold stages_invoked.
    rewrite summary_events_spawned, summary_events_entered. constructor.
  - apply Forall_cons in Hks as [Hk Hks].
    pose proof (step_entered self os k Hk) as He.
    pose proof (step_invoked self os k Hk) as Hi.
    assert (Hone : stages_invoked (emitted (step_method k self os))
                     `sublist_of` [k]).
    { rewrite Hi. destruct (starts self (files os) k);
        [reflexivity | apply sublist_nil_l]. }
    clear Hi.
    destruct (step_method k self os) as [[[|] | e] o ev];
      cbn [value final emitted] in *.
    + rewrite stages_invoked_app, stages_entered_app, He.
      apply sublist_app; [exact Hone |]. apply (IH _ _ Hks).
    + rewrite stages_invoked_app, stages_entered_app, He, stopped_entered.
      apply sublist_app; [exact Hone |]. apply sublist_nil_l.
    + rewrite He. exact Hone.
Qed.

Lemma requested_strictly_sorted steps :
  StronglySorted Z.lt (requested steps).
Proof.
  unfold requested. cbn [List.filter].
  destruct (contains (TInt 1) steps), (contains (TInt 2) steps),
    (contains (TInt 3) steps);
    repeat (constructor; try lia).
Qed.

Lemma sorted_before (before after : list Z) k :
  StronglySorted Z.lt (before ++ k :: after) ->
  Forall (fun j => j < k) before.
Proof.
  induction before as [| a before IH]; cbn [app]; intros Hs; [constructor |].
  apply StronglySorted_inv in Hs as [Hs Ha]. constructor.
  - rewrite Forall_app in Ha. destruct Ha as [_ Ha].
    apply Forall_cons in Ha as [Ha _]. exact Ha.
  - apply IH, Hs.
Qed.

Lemma sorted_NoDup (l : list Z) : StronglySorted Z.lt l -> NoDup l.
Proof.
  induction 1 as [| a l Hs IH Ha]; constructor; [| exact IH].
  intros Hin. rewrite Forall_forall in Ha. specialize (Ha a Hin). lia.
Qed.

(** Fail-fast: when the loop recorded [False] for step [k], that step is the
    last one entered, the line that names it is the last one printed, and
    the loop's own result is [False]. *)
Lemma run_stages_failed self ks : forall results os res ok k,
  Forall known ks ->
  (forall j, results !! j <> Some false) ->
  value (run_stages self ks results os) = inl (res, ok) ->
  res !! k = Some false ->
  ok = false
  /\ (exists before after,
         ks = before ++ k :: after
         /\ stages_entered (emitted (run_stages self ks results os))
            = before ++ [k])
  /\ exists ev, emitted (run_stages self ks results os) = ev ++ [stopped k].
Proof.
  induction ks as [| j ks IH]; intros results os res ok k Hks Hres;
    cbn [run_stages].
  - cbn [value]. intros [= <- <-] Hk. destruct (Hres k Hk).
  - apply Forall_cons in Hks as [Hj Hks].
    pose proof (step_entered self os j Hj) as He.
    destruct (step_method j self os) as [[[|] | e] o ev];
      cbn [value final emitted] in *.
    + intros Hv Hk.
      assert (Hres' : forall i, <[j := true]> results !! i <> Some false).
      { intros i. destruct (decide (i = j)) as [-> | Hn].
        - rewrite lookup_insert_eq. discriminate.
        - rewrite lookup_insert_ne by congruence. apply Hres. }
      destruct (IH _ _ _ _ _ Hks Hres' Hv Hk)
        as (Hok & (before & after & Hsplit & Hent) & (ev' & Hev)).
      split; [exact Hok |]. split.
      * exists (j :: before), after. split; [cbn [app]; congruence |].
        rewrite stages_entered_app, He, Hent. reflexivity.
      * exists (ev ++ ev'). rewrite Hev. apply app_assoc.
    + intros [= <- <-] Hk.
      assert (k = j) as ->.
      { destruct (decide (k = j)) as [-> | Hn]; [reflexivity |].
        rewrite lookup_insert_ne in Hk by congruence. destruct (Hres k Hk). }
      split; [reflexivity |]. split.
      * exists [], ks. split; [reflexivity |].
        rewrite stages_entered_app, He, stopped_entered. reflexivity.
      * exists ev. reflexivity.
    + discriminate.
Qed.

(** ** [main] from end to end *)

(** The steps that [main] asks for. *)
Lemma main_stages args os :
  main args os =
  let self := new_orchestrator (arg_folder args) (arg_verbose args)
                (arg_force args) (python_for (files os)) in
  let steps := effective_steps (option_map (map TInt) (arg_steps args)) in
  if negb (path_exists (files os) (input_dir self)) then
    mkRun (inl 1) os
      [Print ("Error: " +:+ "Input folder not found: "
                +:+ str_path (input_dir self))]
  else if negb (path_exists (files os) (raw_audio self)) then
    mkRun (inl 1) os
      [Print ("Error: " +:+ "Raw audio not found: "
                +:+ str_path (raw_audio self))]
  else
    match mkdir_p (files os) (output_dir self) with
    | None =>
        mkRun (inr (OSError ("File exists: " +:+ str_path (output_dir self))))
          os []
    | Some fs' =>
        let r := run_stages self (requested steps) ∅ (mkOS fs' (outside os)) in
        let ev := header_events self steps ++ emitted r in
        match value r with
        | inl (_, ok) => mkRun (inl (if ok : bool then 0 else 1)) (final r) ev
        | inr KeyboardInterrupt =>
            mkRun (inl 1) (final r)
              (ev ++ [Print (nl +:+ nl +:+ "Workflow interrupted by user")])
        | inr e =>
            mkRun (inl 1) (final r)
              (ev ++ [Print (nl +:+ "Error: " +:+ exn_str e)]
                 ++ (if arg_verbose args then [Traceback] else []))
        end
    end.
Proof.
  rewrite main_run, init_run. cbv zeta.
  set (self := new_orchestrator (arg_folder args) (arg_verbose args)
                 (arg_force args) (python_for (files os))).
  destruct (path_exists (files os) (input_dir self)); cbn [negb];
    [| reflexivity].
  destruct (path_exists (files os) (raw_audio self)); cbn [negb];
    [| reflexivity].
  destruct (mkdir_p (files os) (output_dir self)) as [fs' |];
    cbn [value final emitted]; [| reflexivity].
  rewrite run_workflow_run. cbv zeta. cbn [value final emitted].
  rewrite run_workflow_results_stages. cbv zeta. cbn [value final emitted].
  destruct (value (run_stages self _ ∅ _)) as [[res ok] | e]; reflexivity.
Qed.

Lemma run_workflow_stages self steps os :
  run_workflow self steps os =
  let r := run_stages self (requested (effective_steps steps)) ∅ os in
  mkRun (match value r with inl p => inl (snd p) | inr e => inr e end)
    (final r) (header_events self (effective_steps steps) ++ emitted r).
Proof.
  rewrite run_workflow_run. cbv zeta.
  rewrite run_workflow_results_stages. reflexivity.
Qed.

(** ** Runs that start no step, or step 3 alone *)

(** C7.  When the input folder of the run, or the raw audio in it, does not
    exist, [main] prints the error, returns 1 and the process exits with
    status 1.  No step is entered, no process is started, and the files are
    as they were: the output directory of the run is not created. *)
Theorem missing_input_stops_main args os :
  let self := new_orchestrator (arg_folder args) (arg_verbose args)
                (arg_force args) (python_for (files os)) in
  path_exists (files os) (input_dir self) = false
  \/ path_exists (files os) (raw_audio self) = false ->
  let r := main args os in
  value r = inl 1
  /\ exit_code r = 1
  /\ final r = os
  /\ stages_entered (emitted r) = []
  /\ spawned (emitted r) = []
  /\ (exists msg, emitted r = [Print ("Error: " +:+ msg)])
  /\ path_exists (files (final r)) (output_dir self)
     = path_exists (files os) (output_dir self).
Proof.
  intros self Hmissing r. subst r. unfold exit_code.
  rewrite main_stages. cbv zeta. fold self.
  destruct (path_exists (files os) (input_dir self)); cbn [negb].
  - destruct Hmissing as [Hd | Hr]; [discriminate |]. rewrite Hr. cbn [negb].
    cbn [value final emitted]. repeat split; eauto.
  - cbn [value final emitted]. repeat split; eauto.
Qed.

(** C6.  With the steps list [[3]] and no transcript on disk, step 3 fails
    without starting a process; [run_workflow] returns [False] after
    entering step 3 only, so neither step 1 nor step 2 is run to make up for
    the missing transcript; nothing on disk changes, and [main] exits with
    status 1. *)
Theorem step_3_alone_needs_transcript self os :
  path_exists (files os) (transcript self) = false ->
  let r := run_workflow self (Some [TInt 3]) os in
  stage_outcome (step_3_generate_blog self os) = Some Failed
  /\ spawned (emitted (step_3_generate_blog self os)) = []
  /\ value r = inl false
  /\ final r = os
  /\ spawned (emitted r) = []
  /\ stages_entered (emitted r) = [3]
  /\ stages_invoked (emitted r) = []
  /\ emitted r
     = header_events self [TInt 3]
         ++ banner_events 3
         ++ [Log "ERROR" ("Transcript not found: " +:+ str_path (transcript self));
             Log "ERROR" "Please run Step 2 first";
             stopped 3]
  /\ forall args os0,
       arg_steps args = Some [3] ->
       let i := init (arg_folder args) (arg_verbose args) (arg_force args) os0 in
       value i = inl self -> final i = os ->
       exit_code (main args os0) = 1 /\ final (main args os0) = os.
Proof.
  intros Hno r.
  assert (Hstep : step_3_generate_blog self os
                  = refused 3 "Transcript" (transcript self)
                      "Please run Step 2 first" os).
  { rewrite step_3_run, Hno. reflexivity. }
  assert (Hr : r = mkRun (inl false) os
                 (header_events self [TInt 3]
                    ++ banner_events 3
                    ++ [Log "ERROR" ("Transcript not found: "
                                       +:+ str_path (transcript self));
                        Log "ERROR" "Please run Step 2 first";
                        stopped 3])).
  { subst r. rewrite run_workflow_stages. cbv zeta.
    change (requested (effective_steps (Some [TInt 3]))) with [3].
    cbn [run_stages].
    change (step_method 3 self os) with (step_3_generate_blog self os).
    rewrite Hstep. reflexivity. }
  split; [rewrite Hstep; reflexivity |].
  split; [rewrite Hstep; reflexivity |].
  rewrite Hr. cbn [value final emitted].
  do 6 (split; [reflexivity |]).
  intros args os0 Hsteps Hv Hf.
  rewrite main_run. cbv zeta. rewrite Hv, Hf, Hsteps. cbn [option_map map].
  fold r. rewrite Hr. split; reflexivity.
Qed.

(** C10.  With an empty steps list, [run_workflow] enters no step and starts
    no process; it prints the header and the summary, whose manifest lists
    the artifacts that are on disk, returns [True] and leaves the files as
    they are; [main] then exits with status 0. *)
Theorem empty_steps_run self os :
  let r := run_workflow self (Some []) os in
  value r = inl true
  /\ final r = os
  /\ stages_entered (emitted r) = []
  /\ spawned (emitted r) = []
  /\ emitted r = header_events self [] ++ summary_events self (files os)
  /\ (forall e, In e (manifest self (files os)) -> In e (emitted r))
  /\ forall args os0,
       arg_steps args = Some [] ->
       let i := init (arg_folder args) (arg_verbose args) (arg_force args) os0 in
       value i = inl self -> final i = os ->
       exit_code (main args os0) = 0 /\ final (main args os0) = os.
Proof.
  intros r.
  assert (Hr : r = mkRun (inl true) os
                 (header_events self [] ++ summary_events self (files os))).
  { subst r. rewrite run_workflow_stages. reflexivity. }
  rewrite Hr. cbn [value final emitted].
  split; [reflexivity |]. split; [reflexivity |].
  split; [rewrite stages_entered_app, header_events_entered,
            summary_events_entered; reflexivity |].
  split; [rewrite spawned_app, header_events_spawned,
            summary_events_spawned; reflexivity |].
  split; [reflexivity |]. split.
  - intros e He. apply in_or_app. right. unfold summary_events.
    apply in_or_app. right. apply in_or_app. left. exact He.
  - intros args os0 Hsteps Hv Hf.
    rewrite main_run. cbv zeta. rewrite Hv, Hf, Hsteps. cbn [option_map map].
    fold r. rewrite Hr. split; reflexivity.
Qed.

(** ** Which steps a run enters *)

Lemma Forall_sublist_of {A} (P : A -> Prop) (l1 l2 : list A) :
  l1 `sublist_of` l2 -> Forall P l2 -> Forall P l1.
Proof.
  induction 1 as [| x l1 l2 _ IH | x l1 l2 _ IH]; intros HP.
  - constructor.
  - apply Forall_cons in HP as [Hx HP]. constructor; auto.
  - apply Forall_cons in HP as [_ HP]. auto.
Qed.

Lemma contains_spec x l :
  contains x l = true <-> exists y, In y l /\ token_eqb x y = true.
Proof. unfold contains. apply existsb_exists. Qed.

(** Only membership of 1, 2 and 3 in the list matters, not their order. *)
Lemma requested_membership l l' :
  (forall x, In x l' <-> In x l) -> requested l' = requested l.
Proof.
  intros Hsame. unfold requested. apply filter_ext. intros k.
  apply eq_true_iff_eq. rewrite !contains_spec.
  split; intros (y & Hy & He); exists y; split; try exact He;
    apply Hsame; exact Hy.
Qed.

(** C3.  Fail-fast.  When [run_workflow] recorded [False] for step [k], the
    run's result is [False]; step [k] is the last step entered, the steps
    entered before it have smaller numbers, and no process belongs to a
    later step; the run ends on the line that names step [k], so no summary
    is printed; [main] exits with status 1. *)
Theorem fail_fast self steps os results ok k :
  value (run_workflow_results self steps os) = inl (results, ok) ->
  results !! k = Some false ->
  let r := run_workflow self steps os in
  ok = false
  /\ value r = inl false
  /\ (exists before,
         stages_entered (emitted r) = before ++ [k]
         /\ Forall (fun j => j < k) before)
  /\ Forall (fun j => j <= k) (stages_invoked (emitted r))
  /\ (exists ev, emitted r = ev ++ [stopped k])
  /\ forall args os0,
       option_map (map TInt) (arg_steps args) = steps ->
       let i := init (arg_folder args) (arg_verbose args) (arg_force args) os0 in
       value i = inl self -> final i = os ->
       value (main args os0) = inl 1 /\ exit_code (main args os0) = 1.
Proof.
  intros Hv Hk r.
  rewrite run_workflow_results_stages in Hv. cbv zeta in Hv.
  cbn [value] in Hv.
  set (ks := requested (effective_steps steps)) in *.
  assert (Hks : Forall known ks) by apply requested_known.
  assert (Hempty : forall j, (∅ : gmap Z bool) !! j <> Some false).
  { intros j. rewrite lookup_empty. discriminate. }
  destruct (run_stages_failed self ks ∅ os results ok k Hks Hempty Hv Hk)
    as (Hok & (before & after & Hsplit & Hent) & (ev & Hev)).
  assert (Hbefore : Forall (fun j => j < k) before).
  { apply (sorted_before before after). rewrite <- Hsplit.
    apply requested_strictly_sorted. }
  assert (Hr : r = mkRun (inl false) (final (run_stages self ks ∅ os))
                 (header_events self (effective_steps steps)
                    ++ emitted (run_stages self ks ∅ os))).
  { subst r. rewrite run_workflow_stages. cbv zeta. fold ks.
    rewrite Hv, Hok. reflexivity. }
  assert (Hentered : stages_entered (emitted r) = before ++ [k]).
  { rewrite Hr. cbn [emitted].
    rewrite stages_entered_app, header_events_entered. exact Hent. }
  split; [exact Hok |]. split; [rewrite Hr; reflexivity |].
  split; [exists before; split; assumption |]. split; [| split].
  - apply (Forall_sublist_of _ _ (before ++ [k])).
    + rewrite <- Hent, Hr. cbn [emitted]. unfold stages_invoked.
      rewrite spawned_app, header_events_spawned. cbn [app].
      apply (run_stages_invoked self ks ∅ os Hks).
    + apply Forall_app. split.
      * eapply Forall_impl; [exact Hbefore |]. cbn. intros; lia.
      * constructor; [lia | constructor].
  - exists (header_events self (effective_steps steps) ++ ev).
    rewrite Hr. cbn [emitted]. rewrite Hev. apply app_assoc.
  - intros args os0 Hsteps i Hi Hf. subst i.
    rewrite main_run. cbv zeta. rewrite Hi, Hf, Hsteps. fold r.
    rewrite Hr. cbn [value]. split; reflexivity.
Qed.

(** What the loop returns tells which steps it entered.  When it returns
    [True] it entered every step of its list and recorded [True] for each;
    when it returns [False] it entered the steps up to one that returned
    [False], which it recorded, and none after it; when a step raised, that
    step is the last one entered. *)
Lemma run_stages_outcome self ks : forall results os,
  Forall known ks -> NoDup ks ->
  let r := run_stages self ks results os in
  match value r with
  | inl (res, true) =>
      stages_entered (emitted r) = ks
      /\ (forall j, In j ks -> res !! j = Some true)
      /\ (forall j, ~ In j ks -> res !! j = results !! j)
  | inl (res, false) =>
      exists before k after,
        ks = before ++ k :: after
        /\ stages_entered (emitted r) = before ++ [k]
        /\ res !! k = Some false
        /\ (forall j, In j before -> res !! j = Some true)
        /\ (forall j, ~ In j (before ++ [k]) -> res !! j = results !! j)
  | inr _ =>
      exists before k after,
        ks = before ++ k :: after
        /\ stages_entered (emitted r) = before ++ [k]
  end.
Proof.
  induction ks as [| k ks IH]; intros results os Hks Hnd; cbn [run_stages].
  - cbn [value emitted]. rewrite summary_events_entered.
    split; [reflexivity |]. split; [intros j [] | reflexivity].
  - apply Forall_cons in Hks as [Hk Hks].
    apply NoDup_cons in Hnd as [Hnk Hnd].
    rewrite list_elem_of_In in Hnk.
    pose proof (step_entered self os k Hk) as He.
    destruct (step_method k self os) as [[[|] | e] o ev];
      cbn [value final emitted] in *.
    + specialize (IH (<[k := true]> results) o Hks Hnd). cbv zeta in IH.
      destruct (value (run_stages self ks (<[k := true]> results) o))
        as [[res [|]] | e].
      * destruct IH as (Hent & Htrue & Hrest).
        rewrite stages_entered_app, He, Hent. split; [reflexivity |]. split.
        -- intros j [<- | Hj]; [| apply Htrue, Hj].
           rewrite (Hrest k Hnk). apply lookup_insert_eq.
        -- intros j Hj. rewrite Hrest by (intros Hin; apply Hj; right; exact Hin).
           apply lookup_insert_ne. intros ->. apply Hj. left. reflexivity.
      * destruct IH as (before & k' & after & Hsplit & Hent & Hfalse & Htrue
                        & Hrest).
        exists (k :: before), k', after.
        split; [cbn [app]; congruence |].
        split; [rewrite stages_entered_app, He, Hent; reflexivity |].
        split; [exact Hfalse |]. split.
        -- intros j [<- | Hj]; [| apply Htrue, Hj].
           rewrite Hrest; [apply lookup_insert_eq |].
           intros Hin. apply Hnk. rewrite Hsplit.
           apply in_app_iff in Hin as [Hin | [<- | []]]; apply in_app_iff;
             [left; exact Hin | right; left; reflexivity].
        -- intros j Hj.
           rewrite Hrest by (intros Hin; apply Hj; right; exact Hin).
           apply lookup_insert_ne. intros ->. apply Hj. left. reflexivity.
      * destruct IH as (before & k' & after & Hsplit & Hent).
        exists (k :: before), k', after.
        split; [cbn [app]; congruence |].
        rewrite stages_entered_app, He, Hent. reflexivity.
    + exists [], k, ks. split; [reflexivity |].
      split; [rewrite stages_entered_app, He, stopped_entered; reflexivity |].
      split; [apply lookup_insert_eq |]. split; [intros j [] |].
      intros j Hj. apply lookup_insert_ne. intros ->. apply Hj. left.
      reflexivity.
    + exists [], k, ks. split; [reflexivity | exact He].
Qed.

(** C8.  The steps that a run enters are an initial part of the steps that
    the list selects; the selected steps are listed in the order 1, 2, 3
    whatever the order of the list, so that each step is entered at most
    once and in that order; a process is started only for a step that was
    entered.  How far the run goes is fixed by what the steps return: a run
    that returns [True] entered every selected step and recorded [True] for
    each; any other run entered the selected steps up to and including the
    one that did not return [True], and no later one; when the run returns
    [False] that step is recorded as [False] and every step before it as
    [True].  The steps with a record are exactly the steps entered. *)
Theorem stages_follow_list self steps os :
  let r := run_workflow self steps os in
  let l := requested (effective_steps steps) in
  stages_entered (emitted r) `prefix_of` l
  /\ (value r = inl true -> stages_entered (emitted r) = l)
  /\ l `sublist_of` [1; 2; 3]
  /\ (forall k, In k l <-> known k /\ contains (TInt k) (effective_steps steps) = true)
  /\ (forall steps', (forall x, In x steps' <-> In x (effective_steps steps)) ->
        requested steps' = l)
  /\ NoDup (stages_entered (emitted r))
  /\ stages_invoked (emitted r) `sublist_of` stages_entered (emitted r)
  /\ (value r <> inl true ->
      exists before k after,
        l = before ++ k :: after
        /\ stages_entered (emitted r) = before ++ [k])
  /\ match value (run_workflow_results self steps os) with
     | inl (results, ok) =>
         value r = inl ok
         /\ (forall k, In k (stages_entered (emitted r))
                       <-> is_Some (results !! k))
         /\ (if ok : bool
             then forall k, In k l -> results !! k = Some true
             else exists before k,
                 stages_entered (emitted r) = before ++ [k]
                 /\ results !! k = Some false
                 /\ forall j, In j before -> results !! j = Some true)
     | inr e => value r = inr e
     end.
Proof.
  intros r l.
  assert (Hks : Forall known l) by apply requested_known.
  assert (Hr : r = let s := run_stages self l ∅ os in
                   mkRun (match value s with
                          | inl p => inl (snd p) | inr e => inr e end)
                     (final s)
                     (header_events self (effective_steps steps) ++ emitted s)).
  { subst r. apply run_workflow_stages. }
  cbv zeta in Hr.
  assert (Hent : stages_entered (emitted r)
                 = stages_entered (emitted (run_stages self l ∅ os))).
  { rewrite Hr. cbn [emitted].
    rewrite stages_entered_app, header_events_entered. reflexivity. }
  destruct (run_stages_entered self l ∅ os Hks) as [Hp Hall].
  assert (Hnd : NoDup l).
  { apply sorted_NoDup, requested_strictly_sorted. }
  pose proof (run_stages_outcome self l ∅ os Hks Hnd) as Hout.
  cbv zeta in Hout.
  split; [rewrite Hent; exact Hp |].
  split; [| split; [| split; [| split; [| split; [| split; [| split]]]]]].
  - rewrite Hent, Hr. cbn [value]. intros Hv.
    destruct (value (run_stages self l ∅ os)) as [[res b] | e] eqn:Hs;
      [| discriminate].
    cbn [snd] in Hv. injection Hv as ->. apply (Hall res). reflexivity.
  - apply requested_sorted.
  - intros k. unfold l, requested. rewrite filter_In. unfold known.
    cbn [In]. intuition.
  - intros steps' Hsame. apply requested_membership, Hsame.
  - rewrite Hent. destruct Hp as [rest Hrest]. rewrite Hrest in Hnd.
    apply NoDup_app in Hnd as [Hnd _]. exact Hnd.
  - rewrite Hent. rewrite Hr. cbn [emitted]. unfold stages_invoked.
    rewrite spawned_app, header_events_spawned. cbn [app].
    apply (run_stages_invoked self l ∅ os Hks).
  - rewrite Hent, Hr. cbn [value]. intros Hv.
    destruct (value (run_stages self l ∅ os)) as [[res [|]] | e].
    + destruct Hv. reflexivity.
    + destruct Hout as (before & k & after & Hsplit & He & _).
      exists before, k, after. split; assumption.
    + exact Hout.
  - rewrite run_workflow_results_stages. cbv zeta. cbn [value].
    fold l. rewrite Hent, Hr. cbn [value].
    destruct (value (run_stages self l ∅ os)) as [[res [|]] | e];
      [| | reflexivity].
    + destruct Hout as (He & Htrue & Hrest). rewrite He.
      split; [reflexivity |]. split; [| exact Htrue].
      intros k. split.
      * intros Hk. rewrite (Htrue k Hk). eexists. reflexivity.
      * intros Hsome. destruct (in_dec Z.eq_dec k l) as [Hk | Hk];
          [exact Hk |].
        rewrite (Hrest k Hk), lookup_empty in Hsome.
        destruct Hsome as [b Hb]. discriminate.
    + destruct Hout as (before & k & after & Hsplit & He & Hfalse & Htrue
                        & Hrest).
      rewrite He. split; [reflexivity |]. split.
      * intros j. split.
        -- intros Hj. apply in_app_iff in Hj as [Hj | [<- | []]].
           ++ rewrite (Htrue j Hj). eexists. reflexivity.
           ++ rewrite Hfalse. eexists. reflexivity.
        -- intros Hsome.
           destruct (in_dec Z.eq_dec j (before ++ [k])) as [Hj | Hj];
             [exact Hj |].
           rewrite (Hrest j Hj), lookup_empty in Hsome.
           destruct Hsome as [b Hb]. discriminate.
      * exists before, k. repeat split; assumption.
Qed.

(** ** Files that stay *)

Lemma path_exists_mono (fs fs' : gmap Path Kind) p :
  fs ⊆ fs' -> path_exists fs p = true -> path_exists fs' p = true.
Proof.
  intros Hsub. unfold path_exists, kind_of. destruct p as [| c p]; [auto |].
  cbv beta iota.
  match goal with
  | |- match ?t with _ => _ end = true -> match ?t' with _ => _ end = true =>
      destruct t as [kd |] eqn:Hl; [| discriminate];
      assert (Hl' : t' = Some kd) by exact (lookup_weaken _ _ _ _ Hl Hsub);
      rewrite Hl'
  end.
  reflexivity.
Qed.

Lemma mkdir_none l : fold_left mkdir_one l None = None.
Proof. induction l as [| q l IH]; [reflexivity | exact IH]. Qed.

Lemma mkdir_fold_grows l : forall (m m' : gmap Path Kind),
  fold_left mkdir_one l (Some m) = Some m' ->
  m ⊆ m' /\ Forall (fun q => m' !! q = Some Dir) l.
Proof.
  induction l as [| q l IH]; intros m m'; cbn [fold_left].
  - intros [= ->]. split; [reflexivity | constructor].
  - unfold mkdir_one at 2. destruct (m !! q) as [[|] |] eqn:Hq.
    + rewrite mkdir_none. discriminate.
    + intros Hf. destruct (IH _ _ Hf) as [Hsub Hall].
      split; [exact Hsub |]. constructor; [| exact Hall].
      apply (lookup_weaken _ _ _ _ Hq Hsub).
    + intros Hf. destruct (IH _ _ Hf) as [Hsub Hall]. split.
      * etransitivity; [apply (insert_subseteq m q Dir Hq) | exact Hsub].
      * constructor; [| exact Hall].
        apply (lookup_weaken (<[q := Dir]> m)); [apply lookup_insert_eq | exact Hsub].
Qed.

Lemma mkdir_fold_again l : forall (m : gmap Path Kind),
  Forall (fun q => m !! q = Some Dir) l ->
  fold_left mkdir_one l (Some m) = Some m.
Proof.
  induction l as [| q l IH]; intros m Hall; cbn [fold_left]; [reflexivity |].
  apply Forall_cons in Hall as [Hq Hall].
  unfold mkdir_one at 2. rewrite Hq. apply IH, Hall.
Qed.

(** [mkdir(parents=True, exist_ok=True)] takes nothing away. *)
Lemma mkdir_p_mono fs p fs' : mkdir_p fs p = Some fs' -> fs ⊆ fs'.
Proof. intros Hm. apply (mkdir_fold_grows _ _ _ Hm). Qed.

(** Once made, the directory is found again, whatever was added since. *)
Lemma mkdir_p_again fs p fs' fs'' :
  mkdir_p fs p = Some fs' -> fs' ⊆ fs'' -> mkdir_p fs'' p = Some fs''.
Proof.
  intros Hm Hsub. apply mkdir_fold_again.
  destruct (mkdir_fold_grows _ _ _ Hm) as [_ Hall].
  eapply Forall_impl; [exact Hall |]. cbn. intros q Hq.
  apply (lookup_weaken _ _ _ _ Hq Hsub).
Qed.

Lemma ready_mono (self : Orchestrator) (fs fs' : gmap Path Kind) (k : Z) :
  fs ⊆ fs' -> ready self fs k = true -> ready self fs' k = true.
Proof.
  intros Hsub. unfold ready. intros Hr. apply andb_prop in Hr as [Ho Hi].
  rewrite (path_exists_mono _ _ _ Hsub Ho). cbn [andb].
  destruct (k =? 1); [reflexivity |]. apply (path_exists_mono _ _ _ Hsub Hi).
Qed.

(** ** Steps under the contract of the stage scripts *)

Lemma contract_of_step self k :
  honours_contract self -> known k ->
  produces self (command_of self k) (output_artifact self k).
Proof.
  intros (H1 & H2 & H3) [-> | [-> | ->]]; assumption.
Qed.

(** A step that returns [True] leaves its artifacts behind, and every file
    that was there. *)
Lemma step_true_ready self os k :
  known k ->
  produces self (command_of self k) (output_artifact self k) ->
  value (step_method k self os) = inl true ->
  files os ⊆ files (final (step_method k self os))
  /\ ready self (files (final (step_method k self os))) k = true.
Proof.
  intros Hk Hc Hv. unfold ready.
  destruct (starts self (files os) k) eqn:Hs.
  - destruct (step_started self os k Hk Hs) as [Hf Hval].
    rewrite Hv in Hval. rewrite Hf.
    destruct (subprocess_run (command_of self k) SCRIPT_DIR
                (negb (verbose self)) os) as [[cp | e] os'] eqn:Hrun;
      cbn [fst snd] in *; [| discriminate].
    injection Hval as Hz. symmetry in Hz. apply Z.eqb_eq in Hz.
    destruct (Hc os cp os' Hrun Hz) as [Hsub Hout].
    split; [exact Hsub |]. rewrite Hout. cbn [andb].
    unfold starts in Hs. apply andb_prop in Hs as [Hi _].
    destruct (k =? 1); [reflexivity |].
    apply (path_exists_mono _ _ _ Hsub Hi).
  - destruct (step_not_started self os k Hk Hs) as [Hf Hval].
    rewrite Hv in Hval. rewrite Hf. split; [reflexivity |].
    injection Hval as Hb. symmetry in Hb. apply andb_prop in Hb as [Hi Hsk].
    unfold should_skip in Hsk. apply andb_prop in Hsk as [Ho _].
    rewrite Ho, Hi. reflexivity.
Qed.

(** A step whose artifacts are there, without [--force], is skipped. *)
Lemma step_ready_skips self os k :
  known k ->
  force self = false ->
  ready self (files os) k = true ->
  value (step_method k self os) = inl true
  /\ final (step_method k self os) = os
  /\ spawned (emitted (step_method k self os)) = [].
Proof.
  intros Hk Hforce Hr. unfold ready in Hr. apply andb_prop in Hr as [Ho Hi].
  assert (Hsk : should_skip self (files os) (output_artifact self k) = true).
  { unfold should_skip. rewrite Ho, Hforce. reflexivity. }
  assert (Hs : starts self (files os) k = false).
  { unfold starts. rewrite Hsk. apply andb_false_r. }
  destruct (step_not_started self os k Hk Hs) as [Hf Hval].
  rewrite Hval, Hf, (step_spawned self os k Hk), Hs, Hsk, Hi.
  repeat split; reflexivity.
Qed.

(** After a run of the loop that ends well, every step of the list has its
    artifacts, and no file was taken away. *)
Lemma run_stages_true_ready self ks : forall results os res,
  Forall known ks ->
  honours_contract self ->
  value (run_stages self ks results os) = inl (res, true) ->
  files os ⊆ files (final (run_stages self ks results os))
  /\ Forall (fun k => ready self (files (final (run_stages self ks results os))) k
                      = true) ks.
Proof.
  induction ks as [| k ks IH]; intros results os res Hks Hc; cbn [run_stages].
  - cbn [final]. intros _. split; [reflexivity | constructor].
  - apply Forall_cons in Hks as [Hk Hks].
    pose proof (step_true_ready self os k Hk (contract_of_step self k Hc Hk))
      as Hstep.
    destruct (step_method k self os) as [[[|] | e] o ev];
      cbn [value final emitted] in *; try discriminate.
    intros Hv. destruct (Hstep eq_refl) as [Hsub Hready].
    destruct (IH _ _ _ Hks Hc Hv) as [Hsub' Hall].
    split; [etransitivity; eassumption |].
    constructor; [| exact Hall].
    apply (ready_mono self _ _ k Hsub' Hready).
Qed.

(** When every step of the list has its artifacts and [--force] is off, the
    loop skips them all: it starts nothing and changes nothing. *)
Lemma run_stages_ready self ks : forall results os,
  Forall known ks ->
  force self = false ->
  Forall (fun k => ready self (files os) k = true) ks ->
  let r := run_stages self ks results os in
  (exists res, value r = inl (res, true))
  /\ final r = os
  /\ spawned (emitted r) = [].
Proof.
  induction ks as [| k ks IH]; intros results os Hks Hforce Hall;
    cbn [run_stages].
  - cbn [value final emitted]. rewrite summary_events_spawned. eauto.
  - apply Forall_cons in Hks as [Hk Hks].
    apply Forall_cons in Hall as [Hready Hall].
    destruct (step_ready_skips self os k Hk Hforce Hready) as (Hv & Hf & Hsp).
    rewrite Hv, Hf. cbv zeta.
    destruct (IH (<[k := true]> results) os Hks Hforce Hall)
      as ((res & Hv') & Hf' & Hsp').
    cbn [value final emitted]. rewrite spawned_app, Hsp, Hsp'. eauto.
Qed.

Lemma same_os (os : OS Ext) : mkOS (files os) (outside os) = os.
Proof. destruct os; reflexivity. Qed.

(** What a run of [main] that returns 0 went through. *)
Lemma main_returned_0 args os :
  value (main args os) = inl 0 ->
  let self := new_orchestrator (arg_folder args) (arg_verbose args)
                (arg_force args) (python_for (files os)) in
  let ks := requested (effective_steps (option_map (map TInt) (arg_steps args))) in
  path_exists (files os) (input_dir self) = true
  /\ path_exists (files os) (raw_audio self) = true
  /\ exists fs' res,
       mkdir_p (files os) (output_dir self) = Some fs'
       /\ value (run_stages self ks ∅ (mkOS fs' (outside os))) = inl (res, true)
       /\ final (main args os)
          = final (run_stages self ks ∅ (mkOS fs' (outside os)))
       /\ emitted (main args os)
          = header_events self
              (effective_steps (option_map (map TInt) (arg_steps args)))
              ++ emitted (run_stages self ks ∅ (mkOS fs' (outside os))).
Proof.
  rewrite main_stages. cbv zeta.
  set (self := new_orchestrator (arg_folder args) (arg_verbose args)
                 (arg_force args) (python_for (files os))).
  destruct (path_exists (files os) (input_dir self)); cbn [negb];
    [| discriminate].
  destruct (path_exists (files os) (raw_audio self)); cbn [negb];
    [| discriminate].
  destruct (mkdir_p (files os) (output_dir self)) as [fs' |];
    [| discriminate].
  destruct (value (run_stages self _ ∅ (mkOS fs' (outside os))))
    as [[res [|]] | e] eqn:Hv; cbn [value final emitted].
  - intros _. split; [reflexivity |]. split; [reflexivity |].
    exists fs', res. auto.
  - discriminate.
  - destruct e; discriminate.
Qed.

(** ** The manifest *)

(** The manifest names the artifact of step [k] exactly when it is there. *)
Lemma manifest_lists_existing (self : Orchestrator) (fs : gmap Path Kind) k :
  known k ->
  In (manifest_line (artifact_label k) (output_artifact self k))
    (manifest self fs)
  <-> path_exists fs (output_artifact self k) = true.
Proof.
  unfold manifest, manifest_line.
  intros [-> | [-> | ->]];
    change (output_artifact self 1) with (processed_audio self);
    change (output_artifact self 2) with (transcript self);
    change (output_artifact self 3) with (blog_post self);
    cbn [artifact_label Z.eqb Pos.eqb];
    destruct (path_exists fs (processed_audio self)),
      (path_exists fs (transcript self)), (path_exists fs (blog_post self));
    cbn [app In]; split; intros H; try discriminate H; try reflexivity;
    auto 6;
    repeat (destruct H as [H | H]; [try discriminate H |]);
    try contradiction.
Qed.

(** A run of the loop that ends well ends on the summary, taken from the
    files as the last step left them. *)
Lemma run_stages_summary self ks : forall results os res,
  value (run_stages self ks results os) = inl (res, true) ->
  exists before,
    emitted (run_stages self ks results os)
    = before ++ summary_events self
                  (files (final (run_stages self ks results os))).
Proof.
  induction ks as [| k ks IH]; intros results os res; cbn [run_stages].
  - intros _. exists []. reflexivity.
  - destruct (step_method k self os) as [[[|] | e] o ev];
      cbn [value final emitted]; try discriminate.
    intros Hv. destruct (IH _ _ _ Hv) as [before Hb].
    exists (ev ++ before). rewrite Hb. apply app_assoc.
Qed.

(** C9.  When [run_workflow] returns [True], the last lines it prints are
    the summary, and the manifest in it names an artifact exactly when that
    artifact is on disk at that moment.  When all three steps were requested
    and the stage scripts honour their contract, the three artifacts are on
    disk at the end and the manifest names all three. *)
Theorem manifest_reports_artifacts self steps os :
  let r := run_workflow self steps os in
  value r = inl true ->
  let fs := files (final r) in
  (exists before, emitted r = before ++ summary_events self fs)
  /\ (forall k, known k ->
        In (manifest_line (artifact_label k) (output_artifact self k))
          (manifest self fs)
        <-> path_exists fs (output_artifact self k) = true)
  /\ (honours_contract self ->
      requested (effective_steps steps) = [1; 2; 3] ->
      path_exists fs (processed_audio self) = true
      /\ path_exists fs (transcript self) = true
      /\ path_exists fs (blog_post self) = true
      /\ manifest self fs
         = [manifest_line "Processed audio" (processed_audio self);
            manifest_line "Transcript" (transcript self);
            manifest_line "Blog post" (blog_post self)]).
Proof.
  intros r Hv fs. subst fs r. revert Hv.
  rewrite run_workflow_stages. cbv zeta. cbn [value final emitted].
  set (ks := requested (effective_steps steps)).
  destruct (value (run_stages self ks ∅ os)) as [[res ok] | e] eqn:Hs;
    [| discriminate].
  cbn [snd]. intros [= ->].
  split; [| split].
  - destruct (run_stages_summary self ks ∅ os res Hs) as [before Hb].
    exists (header_events self (effective_steps steps) ++ before).
    rewrite Hb. apply app_assoc.
  - intros k Hk. apply manifest_lists_existing, Hk.
  - intros Hc Hall.
    destruct (run_stages_true_ready self ks ∅ os res (requested_known _) Hc Hs)
      as [_ Hready].
    unfold ks in *. rewrite Hall in Hready |- *.
    apply Forall_cons in Hready as [H1 Hready].
    apply Forall_cons in Hready as [H2 Hready].
    apply Forall_cons in Hready as [H3 _].
    unfold ready in H1, H2, H3.
    apply andb_prop in H1 as [H1 _]. apply andb_prop in H2 as [H2 _].
    apply andb_prop in H3 as [H3 _].
    change (output_artifact self 1) with (processed_audio self) in H1.
    change (output_artifact self 2) with (transcript self) in H2.
    change (output_artifact self 3) with (blog_post self) in H3.
    unfold manifest. rewrite H1, H2, H3. auto.
Qed.

(** ** Running [main] again *)

(** C4.  Idempotent rerun.  Take a run of [main] without [--force] that
    returns 0, the stage scripts honouring their contract.  A second run with
    the same arguments, on the files the first one left, skips every
    requested step: it starts no process, changes nothing, and returns 0. *)
Theorem rerun_is_idempotent args os :
  let self := new_orchestrator (arg_folder args) (arg_verbose args)
                (arg_force args) (python_for (files os)) in
  arg_force args = false ->
  honours_contract self ->
  let first := main args os in
  value first = inl 0 ->
  let second := main args (final first) in
  let self' := new_orchestrator (arg_folder args) (arg_verbose args)
                 (arg_force args) (python_for (files (final first))) in
  let ks := requested (effective_steps (option_map (map TInt) (arg_steps args))) in
  value second = inl 0
  /\ exit_code second = 0
  /\ spawned (emitted second) = []
  /\ final second = final first
  /\ stages_entered (emitted second) = ks
  /\ Forall (fun k => stage_outcome (step_method k self' (final first))
                      = Some Skipped) ks.
Proof.
  intros self Hforce Hc first Hfirst second self' ks.
  destruct (main_returned_0 args os Hfirst)
    as (Hin & Hraw & fs1 & res & Hmk & Hv & Hfin & _).
  fold self ks in Hin, Hraw, Hmk, Hv, Hfin. fold first in Hfin.
  assert (Hks : Forall known ks) by apply requested_known.
  destruct (run_stages_true_ready self ks ∅ _ res Hks Hc Hv) as [Hsub Hready].
  rewrite <- Hfin in Hsub, Hready. cbn [files] in Hsub.
  assert (Hsub0 : files os ⊆ files (final first)).
  { etransitivity; [apply (mkdir_p_mono _ _ _ Hmk) | exact Hsub]. }
  assert (Hforce' : force self' = false) by exact Hforce.
  assert (Hready' : Forall (fun k => ready self' (files (final first)) k = true) ks)
    by exact Hready.
  destruct (run_stages_ready self' ks ∅ (final first) Hks Hforce' Hready')
    as ((res' & Hv') & Hf' & Hsp').
  assert (Hsecond : second
                    = mkRun (inl 0) (final first)
                        (header_events self'
                           (effective_steps
                              (option_map (map TInt) (arg_steps args)))
                           ++ emitted (run_stages self' ks ∅ (final first)))).
  { subst second. rewrite main_stages. cbv zeta. fold self' ks.
    change (input_dir self') with (input_dir self).
    change (raw_audio self') with (raw_audio self).
    change (output_dir self') with (output_dir self).
    rewrite (path_exists_mono _ _ _ Hsub0 Hin),
      (path_exists_mono _ _ _ Hsub0 Hraw). cbn [negb].
    rewrite (mkdir_p_again _ _ _ _ Hmk Hsub), same_os, Hv', Hf'.
    reflexivity. }
  rewrite Hsecond. unfold exit_code. cbn [value final emitted].
  split; [reflexivity |]. split; [reflexivity |].
  split; [rewrite spawned_app, header_events_spawned; exact Hsp' |].
  split; [reflexivity |]. split.
  - rewrite stages_entered_app, header_events_entered. cbn [app].
    apply (run_stages_entered self' ks ∅ (final first) Hks) with res'.
    exact Hv'.
  - rewrite Forall_forall in Hready', Hks |- *. intros k Hk.
    destruct (step_ready_skips self' (final first) k (Hks k Hk) Hforce'
                (Hready' k Hk)) as (Hval & _ & Hspk).
    unfold stage_outcome. rewrite Hval, Hspk. reflexivity.
Qed.

(** * Further properties of the orchestrator *)

(** ** [--force] *)

(** With [--force] no step is ever skipped: a step whose input is there
    starts its command whatever is on disk, and a step whose input is missing
    fails. *)
Theorem force_never_skips self os k :
  known k ->
  force self = true ->
  let r := step_method k self os in
  stage_outcome r <> Some Skipped
  /\ spawned (emitted r)
     = if (if k =? 1 then true
           else path_exists (files os) (input_artifact self k))
       then [command_of self k] else [].
Proof.
  intros Hk Hforce r. subst r.
  assert (Hskip : should_skip self (files os) (output_artifact self k) = false).
  { unfold should_skip. rewrite Hforce. apply andb_false_r. }
  assert (Hstarts : starts self (files os) k
                    = if k =? 1 then true
                      else path_exists (files os) (input_artifact self k)).
  { unfold starts. rewrite Hskip. apply andb_true_r. }
  split.
  - destruct (starts self (files os) k) eqn:Hs.
    + unfold stage_outcome. rewrite (step_spawned self os k Hk), Hs.
      destruct (value (step_method k self os)) as [[|] | e]; discriminate.
    + rewrite (stage_outcome_not_started self os k Hk Hs), Hskip.
      rewrite andb_false_r. discriminate.
  - rewrite (step_spawned self os k Hk), Hstarts. reflexivity.
Qed.

(** ** A list that starts with step 2 or step 3 *)

(** When the first requested step is step 2 or step 3 and its input artifact
    is missing, the run fails at once: that step is the only one entered, no
    process is started, nothing on disk changes, and [run_workflow] returns
    [False]. *)
Theorem first_step_needs_its_input self steps os k rest :
  requested (effective_steps steps) = k :: rest ->
  k = 2 \/ k = 3 ->
  path_exists (files os) (input_artifact self k) = false ->
  let r := run_workflow self steps os in
  value r = inl false
  /\ final r = os
  /\ spawned (emitted r) = []
  /\ stages_entered (emitted r) = [k]
  /\ exists ev, emitted r = ev ++ [stopped k].
Proof.
  intros Hreq Hk Hin r.
  assert (Hk3 : known k) by (unfold known; tauto).
  assert (Hs : starts self (files os) k = false).
  { unfold starts. destruct Hk as [-> | ->]; cbn [Z.eqb Pos.eqb];
      rewrite Hin; reflexivity. }
  destruct (step_not_started self os k Hk3 Hs) as [Hf Hv].
  assert (Hv' : value (step_method k self os) = inl false).
  { rewrite Hv. destruct Hk as [-> | ->]; cbn [Z.eqb Pos.eqb];
      rewrite Hin; reflexivity. }
  pose proof (step_spawned self os k Hk3) as Hsp. rewrite Hs in Hsp.
  pose proof (step_entered self os k Hk3) as He.
  subst r. rewrite run_workflow_stages. cbv zeta. rewrite Hreq.
  cbn [run_stages]. rewrite Hv', Hf. cbn [value final emitted snd].
  split; [reflexivity |]. split; [reflexivity |].
  rewrite !spawned_app, !stages_entered_app, header_events_spawned,
    header_events_entered, Hsp, He, stopped_entered.
  split; [reflexivity |]. split; [reflexivity |].
  eexists. apply app_assoc.
Qed.

(** ** Resuming a run *)

(** Skipping changes nothing, so the loop goes on from the same state. *)
Lemma run_stages_skips_ready self pre : forall post results os,
  Forall known pre ->
  force self = false ->
  Forall (fun j => ready self (files os) j = true) pre ->
  exists results' ev,
    spawned ev = []
    /\ stages_entered ev = pre
    /\ let r := run_stages self (pre ++ post) results os in
       let r' := run_stages self post results' os in
       value r = value r' /\ final r = final r'
       /\ emitted r = ev ++ emitted r'.
Proof.
  induction pre as [| j pre IH]; intros post results os Hks Hforce Hall.
  - exists results, []. cbn [app]. auto.
  - apply Forall_cons in Hks as [Hj Hks].
    apply Forall_cons in Hall as [Hready Hall].
    destruct (step_ready_skips self os j Hj Hforce Hready) as (Hv & Hf & Hsp).
    destruct (IH post (<[j := true]> results) os Hks Hforce Hall)
      as (results' & ev & Hev & Hent & Hrun).
    exists results', (emitted (step_method j self os) ++ ev).
    rewrite spawned_app, stages_entered_app, Hsp, Hev, Hent,
      (step_entered self os j Hj).
    split; [reflexivity |]. split; [reflexivity |].
    cbv zeta in Hrun |- *. destruct Hrun as (Hrv & Hrf & Hre).
    cbn [app run_stages]. rewrite Hv, Hf. cbn [value final emitted].
    rewrite Hrv, Hrf, Hre, app_assoc. auto.
Qed.

(** Without [--force], a run resumes where the artifacts end: when the
    requested steps before [k] have their artifacts and step [k] has its
    input but not its output, the first and only process started up to the
    end of step [k] is the command of step [k], started on the files as they
    were; the steps before it are entered and skipped. *)
Theorem run_resumes_at_first_incomplete_step self steps os pre k post :
  requested (effective_steps steps) = pre ++ k :: post ->
  force self = false ->
  Forall (fun j => ready self (files os) j = true) pre ->
  starts self (files os) k = true ->
  let r := run_workflow self steps os in
  exists rest_spawned rest_entered,
    spawned (emitted r) = command_of self k :: rest_spawned
    /\ stages_entered (emitted r) = pre ++ k :: rest_entered
    /\ (post = [] -> rest_spawned = [] /\ rest_entered = []
                     /\ final r = snd (subprocess_run (command_of self k)
                                         SCRIPT_DIR (negb (verbose self)) os)).
Proof.
  intros Hreq Hforce Hall Hs r.
  assert (Hks : Forall known (pre ++ k :: post)).
  { rewrite <- Hreq. apply requested_known. }
  apply Forall_app in Hks as [Hpre Hk].
  apply Forall_cons in Hk as [Hk Hpost].
  destruct (run_stages_skips_ready self pre (k :: post) ∅ os Hpre Hforce Hall)
    as (results' & ev & Hev & Hent & Hrun).
  cbv zeta in Hrun. destruct Hrun as (Hrv & Hrf & Hre).
  pose proof (step_spawned self os k Hk) as Hsp. rewrite Hs in Hsp.
  pose proof (step_entered self os k Hk) as He.
  destruct (step_started self os k Hk Hs) as [Hfin _].
  subst r. rewrite run_workflow_stages. cbv zeta. rewrite Hreq.
  cbn [value final emitted]. rewrite Hre, Hrf.
  rewrite !spawned_app, !stages_entered_app, header_events_spawned,
    header_events_entered, Hev, Hent. cbn [app run_stages].
  destruct (value (step_method k self os)) as [[|] | e];
    cbn [value final emitted].
  - rewrite spawned_app, stages_entered_app, Hsp, He. cbn [app].
    eexists _, _. split; [reflexivity |]. split; [reflexivity |].
    intros ->. cbn [run_stages emitted final].
    rewrite summary_events_spawned, summary_events_entered. auto.
  - rewrite spawned_app, stages_entered_app, Hsp, He, stopped_entered.
    cbn [app]. exists [], []. auto.
  - rewrite Hsp, He. exists [], []. auto.
Qed.

(** ** What the orchestrator itself does to the disk *)

Lemma run_stages_without_process self ks : forall results os,
  Forall known ks ->
  spawned (emitted (run_stages self ks results os)) = [] ->
  final (run_stages self ks results os) = os.
Proof.
  induction ks as [| k ks IH]; intros results os Hks; cbn [run_stages];
    [reflexivity |].
  apply Forall_cons in Hks as [Hk Hks].
  pose proof (step_spawned self os k Hk) as Hsp.
  destruct (starts self (files os) k) eqn:Hs.
  - intros Hnil. exfalso.
    destruct (step_method k self os) as [[[|] | e] o ev];
      cbn [value final emitted] in *; rewrite ?spawned_app, Hsp in Hnil;
      discriminate.
  - destruct (step_not_started self os k Hk Hs) as [Hf _].
    destruct (step_method k self os) as [[[|] | e] o ev];
      cbn [value final emitted] in *; subst o; try reflexivity.
    rewrite spawned_app, Hsp. cbn [app]. apply IH, Hks.
Qed.

Lemma mkdir_fold_adds l : forall (m m' : gmap Path Kind) q,
  fold_left mkdir_one l (Some m) = Some m' ->
  m' !! q = m !! q \/ (In q l /\ m' !! q = Some Dir).
Proof.
  induction l as [| a l IH]; intros m m' q; cbn [fold_left].
  - intros [= ->]. left. reflexivity.
  - unfold mkdir_one at 2. destruct (m !! a) as [[|] |] eqn:Ha.
    + rewrite mkdir_none. discriminate.
    + intros Hf. destruct (IH _ _ q Hf) as [He | [Hin Hd]];
        [left; exact He | right; split; [right; exact Hin | exact Hd]].
    + intros Hf. destruct (IH _ _ q Hf) as [He | [Hin Hd]].
      * destruct (decide (q = a)) as [-> | Hne].
        -- right. split; [left; reflexivity |].
           rewrite He. apply lookup_insert_eq.
        -- left. rewrite He. apply lookup_insert_ne. congruence.
      * right. split; [right; exact Hin | exact Hd].
Qed.

(** A run of [main] that starts no process changes nothing but the output
    directory: every file stays, the only new entries are the directories
    on the way to the output directory, and the world outside the
    filesystem is as it was. *)
Theorem main_alone_only_makes_the_output_directory args os :
  let self := new_orchestrator (arg_folder args) (arg_verbose args)
                (arg_force args) (python_for (files os)) in
  let r := main args os in
  spawned (emitted r) = [] ->
  outside (final r) = outside os
  /\ files os ⊆ files (final r)
  /\ forall q, files (final r) !! q = files os !! q
               \/ (In q (prefixes (output_dir self))
                   /\ files (final r) !! q = Some Dir).
Proof.
  intros self r. subst r. rewrite main_stages. cbv zeta. fold self.
  destruct (path_exists (files os) (input_dir self)); cbn [negb];
    [| cbn [final]; auto].
  destruct (path_exists (files os) (raw_audio self)); cbn [negb];
    [| cbn [final]; auto].
  destruct (mkdir_p (files os) (output_dir self)) as [fs' |] eqn:Hm;
    [| cbn [final]; auto].
  set (ks := requested _).
  set (s := run_stages self ks ∅ (mkOS fs' (outside os))).
  assert (Hfinal : spawned (emitted s) = [] ->
                   final s = mkOS fs' (outside os)).
  { apply run_stages_without_process, requested_known. }
  assert (Hgoal : spawned (header_events self
                             (effective_steps
                                (option_map (map TInt) (arg_steps args)))
                           ++ emitted s) = [] ->
                  outside (final s) = outside os
                  /\ files os ⊆ files (final s)
                  /\ forall q, files (final s) !! q = files os !! q
                               \/ (In q (prefixes (output_dir self))
                                   /\ files (final s) !! q = Some Dir)).
  { rewrite spawned_app, header_events_spawned. cbn [app]. intros Hnil.
    rewrite (Hfinal Hnil). cbn [files outside].
    split; [reflexivity |]. split; [apply (mkdir_p_mono _ _ _ Hm) |].
    intros q. apply (mkdir_fold_adds _ _ _ q Hm). }
  destruct (value s) as [[res ok] | e]; cbn [final emitted].
  - exact Hgoal.
  - destruct e; cbn [final emitted]; rewrite !spawned_app;
      intros Hnil; apply app_eq_nil in Hnil as [Hnil _];
      apply Hgoal; rewrite spawned_app; exact Hnil.
Qed.

(** ** The exit status of [main] *)


(** ** Errors that are not a failed step *)

(** An error raised by [subprocess.run] itself in the first requested step
    that has work to do is not a failed step: no "Workflow stopped" line and
    no summary are printed, no later step is entered, and the error reaches
    [main], which prints it and returns 1; the traceback follows with
    [--verbose] only.  An interrupt from the keyboard is reported as such. *)
Theorem child_error_reaches_main args os fs' k post e os' :
  let self := new_orchestrator (arg_folder args) (arg_verbose args)
                (arg_force args) (python_for (files os)) in
  let steps := effective_steps (option_map (map TInt) (arg_steps args)) in
  value (init (arg_folder args) (arg_verbose args) (arg_force args) os)
  = inl self ->
  final (init (arg_folder args) (arg_verbose args) (arg_force args) os)
  = mkOS fs' (outside os) ->
  requested steps = k :: post ->
  starts self fs' k = true ->
  subprocess_run (command_of self k) SCRIPT_DIR (negb (verbose self))
    (mkOS fs' (outside os)) = (inr e, os') ->
  let r := main args os in
  value r = inl 1
  /\ final r = os'
  /\ stages_entered (emitted r) = [k]
  /\ spawned (emitted r) = [command_of self k]
  /\ exists before,
       emitted r
       = before
           ++ match e with
              | KeyboardInterrupt =>
                  [Print (nl +:+ nl +:+ "Workflow interrupted by user")]
              | _ =>
                  Print (nl +:+ "Error: " +:+ exn_str e)
                    :: (if arg_verbose args then [Traceback] else [])
              end.
Proof.
  intros self steps Hi Hf Hreq Hs Hrun r.
  assert (Hk : known k).
  { pose proof (requested_known steps) as Hks. rewrite Hreq in Hks.
    apply Forall_cons in Hks as [Hk _]. exact Hk. }
  destruct (step_started self (mkOS fs' (outside os)) k Hk Hs) as [Hfin Hval].
  rewrite Hrun in Hfin, Hval. cbn [fst snd] in Hfin, Hval.
  pose proof (step_spawned self (mkOS fs' (outside os)) k Hk) as Hsp.
  cbn [files] in Hsp. rewrite Hs in Hsp.
  pose proof (step_entered self (mkOS fs' (outside os)) k Hk) as He.
  subst r. rewrite main_run. cbv zeta. rewrite Hi, Hf.
  rewrite run_workflow_stages. cbv zeta. fold steps. rewrite Hreq.
  cbn [run_stages]. rewrite Hval, Hfin. cbn [value final emitted].
  destruct e; cbn [value final emitted];
    rewrite !stages_entered_app, !spawned_app, header_events_entered,
      header_events_spawned, He, Hsp;
    (split; [reflexivity |]); (split; [reflexivity |]);
    (split; [destruct (arg_verbose args); reflexivity |]);
    (split; [destruct (arg_verbose args); reflexivity |]);
    eexists; reflexivity.
Qed.

(** ** The output directory *)

Lemma mkdir_fold_file l : forall (m : gmap Path Kind) q,
  In q l -> m !! q = Some File -> fold_left mkdir_one l (Some m) = None.
Proof.
  induction l as [| a l IH]; intros m q Hin Hq; [destruct Hin |].
  cbn [fold_left]. unfold mkdir_one at 2.
  destruct (decide (a = q)) as [-> | Hne].
  - rewrite Hq. apply mkdir_none.
  - destruct Hin as [-> | Hin]; [congruence |].
    destruct (m !! a) as [[|] |] eqn:Ha.
    + apply mkdir_none.
    + apply (IH m q Hin Hq).
    + apply (IH _ q Hin). rewrite lookup_insert_ne by congruence. exact Hq.
Qed.

Lemma prefixes_from_last base p :
  p <> [] -> In (base ++ p) (prefixes_from base p).
Proof.
  revert base. induction p as [| c p IH]; intros base Hp; [congruence |].
  cbn [prefixes_from]. destruct p as [| c' p].
  - left. reflexivity.
  - right. replace (base ++ c :: c' :: p) with ((base ++ [c]) ++ c' :: p)
      by (rewrite <- app_assoc; reflexivity).
    apply IH. discriminate.
Qed.

Lemma mkdir_p_makes fs p fs' :
  mkdir_p fs p = Some fs' -> kind_of fs' p = Some Dir.
Proof.
  intros Hm. destruct p as [| c p]; [reflexivity |].
  destruct (mkdir_fold_grows _ _ _ Hm) as [_ Hall].
  rewrite Forall_forall in Hall. unfold kind_of. apply Hall.
  apply list_elem_of_In. apply (prefixes_from_last [] (c :: p)). discriminate.
Qed.

(** When [__init__] returns, the output directory is a directory; every
    entry that was on disk is still there, nothing is printed, and a second
    [__init__] on the result changes nothing. *)
Theorem init_makes_output_dir folder v f os self os' :
  value (init folder v f os) = inl self ->
  final (init folder v f os) = os' ->
  kind_of (files os') (output_dir self) = Some Dir
  /\ path_exists (files os') (input_dir self) = true
  /\ path_exists (files os') (raw_audio self) = true
  /\ files os ⊆ files os'
  /\ outside os' = outside os
  /\ emitted (init folder v f os) = []
  /\ final (init folder v f os') = os'
  /\ exists self', value (init folder v f os') = inl self'
                   /\ output_dir self' = output_dir self.
Proof.
  rewrite !init_run. cbv zeta.
  set (self0 := new_orchestrator folder v f (python_for (files os))).
  destruct (path_exists (files os) (input_dir self0)) eqn:Hin; cbn [negb];
    [| discriminate].
  destruct (path_exists (files os) (raw_audio self0)) eqn:Hraw; cbn [negb];
    [| discriminate].
  destruct (mkdir_p (files os) (output_dir self0)) as [fs' |] eqn:Hm;
    [| discriminate].
  cbn [value final emitted]. intros [= <-] <-. cbn [files outside].
  pose proof (mkdir_p_mono _ _ _ Hm) as Hsub.
  split; [apply (mkdir_p_makes _ _ _ Hm) |].
  split; [apply (path_exists_mono _ _ _ Hsub Hin) |].
  split; [apply (path_exists_mono _ _ _ Hsub Hraw) |].
  split; [exact Hsub |]. split; [reflexivity |]. split; [reflexivity |].
  set (self1 := new_orchestrator folder v f (python_for fs')).
  change (input_dir self1) with (input_dir self0).
  change (raw_audio self1) with (raw_audio self0).
  change (output_dir self1) with (output_dir self0).
  rewrite (path_exists_mono _ _ _ Hsub Hin),
    (path_exists_mono _ _ _ Hsub Hraw). cbn [negb].
  assert (Hagain : mkdir_p fs' (output_dir self0) = Some fs').
  { apply (mkdir_p_again _ _ _ _ Hm). reflexivity. }
  rewrite Hagain. cbn [value final]. split; [reflexivity |].
  exists self1. split; reflexivity.
Qed.

(** When a regular file stands where the output directory, or a directory
    on the way to it, should be, [__init__] raises an [OSError].  [main] does
    not catch it: it prints nothing, enters no step, changes nothing, and
    the process ends with status 1. *)
Theorem file_in_place_of_output_dir args os q :
  let self := new_orchestrator (arg_folder args) (arg_verbose args)
                (arg_force args) (python_for (files os)) in
  path_exists (files os) (input_dir self) = true ->
  path_exists (files os) (raw_audio self) = true ->
  In q (prefixes (output_dir self)) ->
  files os !! q = Some File ->
  let r := main args os in
  (exists msg, value r = inr (OSError msg))
  /\ exit_code r = 1
  /\ emitted r = []
  /\ final r = os.
Proof.
  intros self Hin Hraw Hq Hfile r. subst r. unfold exit_code.
  rewrite main_stages. cbv zeta. fold self.
  rewrite Hin, Hraw. cbn [negb].
  assert (Hm : mkdir_p (files os) (output_dir self) = None).
  { apply (mkdir_fold_file _ _ q Hq Hfile). }
  rewrite Hm. cbn [value final emitted]. eauto.
Qed.

(** ** [run_command] *)

(** [run_command] starts exactly one process: the command it is given, in
    the scripts directory, with its output captured exactly when [--verbose]
    is off.  What the child wrote to its standard error is printed only for a
    command that failed, only without [--verbose], and only when it is not
    empty. *)
Theorem run_command_reports self command description os s :
  let r := run_command self command description os in
  let out := subprocess_run command SCRIPT_DIR (negb (verbose self)) os in
  List.filter (fun e => match e with Spawn _ _ _ => true | _ => false end)
    (emitted r)
  = [Spawn command SCRIPT_DIR (negb (verbose self))]
  /\ final r = snd out
  /\ (In (Print s) (emitted r)
      <-> exists cp,
            fst out = inl cp
            /\ returncode cp <> 0
            /\ verbose self = false
            /\ stderr cp = Some s
            /\ s <> EmptyString).
Proof.
  intros r out. subst r out. rewrite run_command_run.
  destruct (subprocess_run command SCRIPT_DIR (negb (verbose self)) os)
    as [[cp | e] os']; cbn [fst snd].
  - destruct (returncode cp =? 0) eqn:Hz; cbn [final emitted].
    + split; [reflexivity |]. split; [reflexivity |]. split.
      * cbn [In]. intros [H | [H | [H | []]]]; discriminate.
      * intros (cp' & [= <-] & Hne & _). apply Z.eqb_eq in Hz. contradiction.
    + apply Z.eqb_neq in Hz.
      destruct (verbose self) eqn:Hv; cbn [negb andb app].
      * split; [reflexivity |]. split; [reflexivity |]. split.
        -- cbn [In]. intros [H | [H | [H | []]]]; discriminate.
        -- intros (cp' & _ & _ & Hf & _). discriminate.
      * destruct (stderr cp) as [t |] eqn:Ht; cbn [truthy default app].
        -- destruct (String.eqb t "") eqn:Hempty; cbn [negb app].
           ++ apply String.eqb_eq in Hempty. subst t.
              split; [reflexivity |]. split; [reflexivity |]. split.
              ** cbn [In]. intros [H | [H | [H | []]]]; discriminate.
              ** intros (cp' & [= <-] & _ & _ & Hs & Hne).
                 rewrite Ht in Hs. injection Hs as <-. congruence.
           ++ apply String.eqb_neq in Hempty.
              split; [reflexivity |]. split; [reflexivity |]. split.
              ** cbn [In]. intros [H | [H | [H | [H | []]]]];
                   try discriminate.
                 injection H as <-. exists cp. rewrite Ht. auto.
              ** intros (cp' & [= <-] & _ & _ & Hs & _).
                 rewrite Ht in Hs. injection Hs as <-.
                 cbn [In]. auto.
        -- split; [reflexivity |]. split; [reflexivity |]. split.
           ++ cbn [In]. intros [H | [H | [H | []]]]; discriminate.
           ++ intros (cp' & [= <-] & _ & _ & Hs & _).
              rewrite Ht in Hs. discriminate.
  - cbn [final emitted]. split; [reflexivity |]. split; [reflexivity |]. split.
    + cbn [In]. intros [H | [H | []]]; discriminate.
    + intros (cp' & Hcp & _). discriminate.
Qed.

(** ** The commands of a run *)

Lemma run_stages_spawned self ks : forall results os,
  Forall known ks ->
  Forall (fun c => exists k, In k ks /\ c = command_of self k)
    (spawned (emitted (run_stages self ks results os))).
Proof.
  induction ks as [| k ks IH]; intros results os Hks; cbn [run_stages].
  - cbn [emitted]. rewrite summary_events_spawned. constructor.
  - apply Forall_cons in Hks as [Hk Hks].
    assert (Hone : Forall (fun c => exists j, In j (k :: ks)
                                              /\ c = command_of self j)
                     (spawned (emitted (step_method k self os)))).
    { rewrite (step_spawned self os k Hk).
      destruct (starts self (files os) k); repeat constructor.
      exists k. split; [left |]; reflexivity. }
    destruct (step_method k self os) as [[[|] | e] o ev];
      cbn [value final emitted] in *.
    + rewrite spawned_app. apply Forall_app. split; [exact Hone |].
      eapply Forall_impl; [apply (IH _ o Hks) |]. cbn.
      intros c (j & Hj & ->). exists j. split; [right; exact Hj | reflexivity].
    + rewrite spawned_app, stopped_spawned, app_nil_r. exact Hone.
    + exact Hone.
Qed.

(** Every process that a run of [main] starts is the command of a requested
    step, and all of them use one interpreter: the one found before the first
    step, [.venv/bin/python] of the project if it exists, else
    [venv/bin/python] if it exists, else the interpreter that runs the
    orchestrator.  A virtual environment that appears or disappears during
    the run does not change it. *)
Theorem one_interpreter_per_run args os :
  let self := new_orchestrator (arg_folder args) (arg_verbose args)
                (arg_force args) (python_for (files os)) in
  let steps := effective_steps (option_map (map TInt) (arg_steps args)) in
  let venv1 := PROJECT_ROOT // ".venv/bin/python" in
  let venv2 := PROJECT_ROOT // "venv/bin/python" in
  Forall (fun c => exists k,
                     In k (requested steps)
                     /\ c = command_of self k
                     /\ hd_error c
                        = Some (if path_exists (files os) venv1
                                then str_path venv1
                                else if path_exists (files os) venv2
                                     then str_path venv2
                                     else sys_executable))
    (spawned (emitted (main args os))).
Proof.
  intros self steps venv1 venv2.
  assert (Hstages : forall o,
            Forall (fun c => exists k,
                      In k (requested steps)
                      /\ c = command_of self k
                      /\ hd_error c = Some (python_for (files os)))
              (spawned (emitted (run_stages self (requested steps) ∅ o)))).
  { intros o. eapply Forall_impl;
      [apply (run_stages_spawned self _ ∅ o (requested_known _)) |].
    cbn. intros c (k & Hk & ->). exists k. split; [exact Hk |].
    split; [reflexivity |].
    pose proof (requested_known steps) as Hks.
    rewrite Forall_forall in Hks.
    apply list_elem_of_In in Hk.
    destruct (Hks k Hk) as [-> | [-> | ->]]; reflexivity. }
  rewrite main_stages. cbv zeta. fold self steps.
  destruct (path_exists (files os) (input_dir self)); cbn [negb];
    [| constructor].
  destruct (path_exists (files os) (raw_audio self)); cbn [negb];
    [| constructor].
  destruct (mkdir_p (files os) (output_dir self)) as [fs' |];
    [| constructor].
  specialize (Hstages (mkOS fs' (outside os))).
  destruct (value (run_stages self (requested steps) ∅ _)) as [[res ok] | e];
    [| destruct e]; cbn [emitted];
    rewrite ?spawned_app, header_events_spawned; cbn [app];
    try (destruct (arg_verbose args)); cbn [spawned flat_map app];
    rewrite ?app_nil_r; exact Hstages.
Qed.

(** ** The paths of a run *)

Lemma joinpath_name (p : Path) (name : string) :
  is_absolute name = false -> parts name = [name] -> p // name = p ++ [name].
Proof. intros Ha Hp. unfold joinpath. rewrite Ha, Hp. reflexivity. Qed.

(** The four files of a run are four different paths, whatever the folder
    argument: no step reads the file it writes. *)
Theorem artifacts_are_distinct folder v f py k :
  let self := new_orchestrator folder v f py in
  NoDup [raw_audio self; processed_audio self; transcript self; blog_post self]
  /\ (known k -> input_artifact self k <> output_artifact self k).
Proof.
  intros self.
  assert (Hraw : raw_audio self = input_dir self ++ ["raw.mp3"])
    by (apply joinpath_name; reflexivity).
  assert (Hpro : processed_audio self = output_dir self ++ ["processed.mp3"])
    by (apply joinpath_name; reflexivity).
  assert (Htra : transcript self = output_dir self ++ ["transcript.txt"])
    by (apply joinpath_name; reflexivity).
  assert (Hblo : blog_post self = output_dir self ++ ["blog_post.md"])
    by (apply joinpath_name; reflexivity).
  assert (Hlast : forall (p q : Path) (a b : string),
            a <> b -> p ++ [a] <> q ++ [b]).
  { intros p q a b Hab Heq. apply app_inj_tail in Heq as [_ Heq].
    contradiction. }
  split.
  - rewrite Hraw, Hpro, Htra, Hblo.
    apply NoDup_ListNoDup.
    repeat (constructor;
            [cbn [In]; intros H;
             repeat (destruct H as [H | H];
                     [revert H; apply Hlast; discriminate |]);
             exact H |]).
    constructor.
  - intros [-> | [-> | ->]]; unfold input_artifact, output_artifact;
      cbn [Z.eqb Pos.eqb]; rewrite ?Hraw, ?Hpro, ?Htra, ?Hblo;
      apply Hlast; discriminate.
Qed.

(** ** The steps argument *)



Lemma effective_steps_membership (l l' : list token) :
  (forall x, In x l <-> In x l') ->
  requested (effective_steps (Some l)) = requested (effective_steps (Some l')).
Proof.
  intros Hsame. unfold effective_steps.
  assert (Hall : contains (TStr "all") l = contains (TStr "all") l').
  { apply eq_true_iff_eq. rewrite !contains_spec.
    split; intros (y & Hy & He); exists y; split; try exact He;
      apply Hsame; exact Hy. }
  rewrite Hall. destruct (contains (TStr "all") l'); [reflexivity |].
  apply requested_membership, Hsame.
Qed.

(** Only which of 1, 2 and 3 occur in the steps list matters to a run, not
    their order and not how often they occur: for two lists with the same
    members, [run_workflow] gives the same result and the same final state,
    enters the same steps and starts the same processes; what the two runs
    print differs in the line of the header that shows the list, and nowhere
    else. *)
Theorem steps_list_is_read_as_a_set self (l l' : list token) os :
  (forall x, In x l <-> In x l') ->
  let r := run_workflow self (Some l) os in
  let r' := run_workflow self (Some l') os in
  value r = value r'
  /\ final r = final r'
  /\ stages_entered (emitted r) = stages_entered (emitted r')
  /\ spawned (emitted r) = spawned (emitted r')
  /\ exists body,
       emitted r = header_events self (effective_steps (Some l)) ++ body
       /\ emitted r' = header_events self (effective_steps (Some l')) ++ body.
Proof.
  intros Hsame r r'. subst r r'. rewrite !run_workflow_stages. cbv zeta.
  rewrite (effective_steps_membership l l' Hsame).
  cbn [value final emitted].
  rewrite !stages_entered_app, !spawned_app, !header_events_entered,
    !header_events_spawned.
  repeat (split; [reflexivity |]).
  eexists. split; reflexivity.
Qed.

(** ** The exit status of the script *)



(** * The Gemini stage scripts *)

(** ** Rules for computations *)

Lemma triple_weaken {A} (P P' : OS Ext -> Prop) (m : M Ext A)
  (Q Q' : A -> OS Ext -> Prop) (E E' : exn -> OS Ext -> Prop) :
  triple P' m Q' E' ->
  (forall os, P os -> P' os) ->
  (forall a os, Q' a os -> Q a os) ->
  (forall e os, E' e os -> E e os) ->
  triple P m Q E.
Proof.
  intros Hm HP HQ HE os Hos. specialize (Hm os (HP os Hos)).
  destruct (value (m os)); auto.
Qed.

Lemma triple_ret {A} (P : OS Ext -> Prop) (a : A) Q E :
  (forall os, P os -> Q a os) -> triple P (ret a) Q E.
Proof. intros H os Hos. apply H, Hos. Qed.

Lemma triple_raise {A} (P : OS Ext -> Prop) (e : exn)
  (Q : A -> OS Ext -> Prop) E :
  (forall os, P os -> E e os) -> triple P (raise e) Q E.
Proof. intros H os Hos. apply H, Hos. Qed.

Lemma triple_bind {A B} (P : OS Ext -> Prop) (m : M Ext A)
  (k : A -> M Ext B) (R : A -> OS Ext -> Prop) Q E :
  triple P m R E ->
  (forall a, triple (R a) (k a) Q E) ->
  triple P (bind m k) Q E.
Proof.
  intros Hm Hk os Hos. specialize (Hm os Hos). unfold bind. cbv zeta.
  destruct (value (m os)) as [a | e]; cbn [value final]; [| exact Hm].
  apply (Hk a _ Hm).
Qed.

Lemma triple_try {A} (P : OS Ext -> Prop) (m : M Ext A)
  (h : exn -> option (M Ext A)) Q E (E' : exn -> OS Ext -> Prop) :
  triple P m Q E' ->
  (forall e, match h e with
             | Some k => triple (E' e) k Q E
             | None => forall os, E' e os -> E e os
             end) ->
  triple P (try_except m h) Q E.
Proof.
  intros Hm Hh os Hos. specialize (Hm os Hos). unfold try_except. cbv zeta.
  destruct (value (m os)) as [a | e] eqn:Hv.
  - rewrite Hv. exact Hm.
  - specialize (Hh e). destruct (h e) as [k |].
    + cbn [value final]. apply (Hh _ Hm).
    + rewrite Hv. apply Hh, Hm.
Qed.

(** A computation that leaves the state as it is. *)
Lemma triple_same {A} (P : OS Ext -> Prop) (m : M Ext A) :
  (forall os, final (m os) = os) ->
  triple P m (fun _ => P) (fun _ => P).
Proof.
  intros Hsame os Hos. rewrite Hsame. destruct (value (m os)); exact Hos.
Qed.

(** A computation that leaves the state as it is and never raises. *)
Lemma triple_total {A} (P : OS Ext -> Prop) (m : M Ext A) E :
  (forall os, final (m os) = os /\ exists a, value (m os) = inl a) ->
  triple P m (fun _ => P) E.
Proof.
  intros Hsame os Hos. destruct (Hsame os) as [Hf [a Ha]].
  rewrite Ha, Hf. exact Hos.
Qed.

Lemma script_log_total verbose message (os : OS Ext) :
  final (script_log verbose message os) = os
  /\ exists a, value (script_log verbose message os) = inl a.
Proof. unfold script_log. destruct verbose; cbn; eauto. Qed.

Lemma read_file_same what p (os : OS Ext) : final (read_file what p os) = os.
Proof.
  unfold read_file, read_file_as.
  destruct (kind_of (files os) p) as [[|] |]; reflexivity.
Qed.

Lemma stat_size_same lib p (os : OS Ext) : final (stat_size lib p os) = os.
Proof.
  unfold stat_size. destruct (kind_of (files os) p); reflexivity.
Qed.

(** A library call keeps every fact about the files. *)
Lemma triple_call {A : Type} (F : gmap Path Kind -> Prop)
  (f : Ext -> (A + exn) * Ext) :
  triple (on_files F) (call f) (fun _ => on_files F) (fun _ => on_files F).
Proof.
  intros os Hos. unfold call. destruct (f (outside os)) as [[a | e] x];
    exact Hos.
Qed.

(** A library call whose result, when there is one, satisfies [R]. *)
Lemma triple_call_result {A : Type} (F : gmap Path Kind -> Prop)
  (f : Ext -> (A + exn) * Ext) (R : A -> Prop) :
  (forall x a x', f x = (inl a, x') -> R a) ->
  triple (on_files F) (call f)
    (fun a os => on_files F os /\ R a) (fun _ => on_files F).
Proof.
  intros HR os Hos. unfold call.
  destruct (f (outside os)) as [[a | e] x] eqn:Hf; cbn [value final].
  - split; [exact Hos | apply (HR _ _ _ Hf)].
  - exact Hos.
Qed.

(** [mkdir] keeps a fact about the files that more directories keep. *)
Lemma triple_mkdir (F : gmap Path Kind -> Prop) (p : Path) :
  (forall fs fs', F fs -> mkdir_p fs p = Some fs' -> F fs') ->
  triple (on_files F) (mkdir p) (fun _ => on_files F) (fun _ => on_files F).
Proof.
  intros HF os Hos. unfold mkdir.
  destruct (mkdir_p (files os) p) as [fs' |] eqn:Hm; cbn [value final].
  - apply (HF _ _ Hos Hm).
  - exact Hos.
Qed.

(** [write_text]: what holds when the file was opened, whether the text was
    then written or not, and what holds when it was not opened. *)
Lemma triple_write_text (P : OS Ext -> Prop) (lib : Library) (p : Path)
  (data : string) (Q : unit -> OS Ext -> Prop) (E : exn -> OS Ext -> Prop) :
  (forall os, P os ->
     files os !! p <> Some Dir -> p <> [] ->
     let os' := mkOS (<[p := File]> (files os)) (outside os) in
     Q tt os' /\ forall e, E e os') ->
  (forall os e, P os -> E e os) ->
  triple P (write_text lib p data) Q E.
Proof.
  intros Hopen Hclosed os Hos. unfold write_text.
  destruct p as [| c p].
  - cbn [kind_of value final]. apply Hclosed, Hos.
  - change (kind_of (files os) (c :: p)) with (files os !! (c :: p)).
    destruct (files os !! (c :: p)) as [[|] |] eqn:Hp;
      try (cbn [value final]; apply Hclosed, Hos);
      (destruct (kind_of (files os) (parent (c :: p))) as [[|] |];
       cbn [value final]; try (apply Hclosed, Hos));
      (assert (Hnd : files os !! (c :: p) <> Some Dir)
         by (rewrite Hp; discriminate));
      specialize (Hopen os Hos Hnd ltac:(discriminate)); cbv zeta in Hopen;
      destruct Hopen as [HQ HE];
      destruct (write_error lib (c :: p) data (outside os));
      cbn [value final]; auto.
Qed.

(** Steps through a computation: [I] holds up to the step that writes the
    output, [W] from there on.  What is to be shown of the steps that create
    directories and files is left to the caller. *)
Ltac keep2 I W :=
  repeat (lazymatch goal with
          | |- triple _ (bind ?m _) _ _ =>
              lazymatch m with
              | context [write_text] =>
                  apply (triple_bind _ _ _ (fun _ => W));
                  [| intros ?; keep2 W W]
              | _ => apply (triple_bind _ _ _ (fun _ => I)); [| intros ?]
              end
          | |- triple _ (try_except _ _) _ _ =>
              apply (triple_try _ _ _ _ _ (fun _ => I));
              [| let e := fresh "e" in intros e; destruct e; cbv beta iota]
          | |- triple _ (if ?b then _ else _) _ _ => destruct b
          | |- triple _ (script_log _ _) _ _ =>
              apply triple_total; intros; apply script_log_total
          | |- triple _ (emit _) _ _ =>
              apply triple_total; intros; cbn; eauto
          | |- triple _ (exists_ _) _ _ =>
              apply triple_total; intros; cbn; eauto
          | |- triple _ (ret _) _ _ =>
              apply triple_ret;
              try solve [auto | intros; congruence | intros; discriminate]
          | |- triple _ (raise _) _ _ => apply triple_raise; auto
          | |- triple _ (read_file _ _) _ _ =>
              apply triple_same; apply read_file_same
          | |- triple _ (stat_size _ _) _ _ =>
              apply triple_same; apply stat_size_same
          | |- triple _ (call _) _ _ => apply triple_call
          | |- triple _ (mkdir _) _ _ => apply triple_mkdir
          | |- triple _ (write_text _ _ _) _ _ => apply triple_write_text
          | |- triple _ (fun _ => _) _ _ => apply triple_same; reflexivity
          | |- forall os, _ -> _ => solve [auto]
          end).

(** Steps through a computation whose request to the model gets no answer
    that can be read, [Hfail]: [I] holds up to the request, and nothing
    comes after the answer is read. *)
Ltac upto_answer I Hfail :=
  repeat (cbv zeta;
          lazymatch goal with
          | |- triple _ (bind (call (generate_content _ _)) _) _ _ =>
              apply (triple_bind _ _ _
                       (fun response os =>
                          I os /\ exists e, response_text response = inr e));
              [ apply triple_call_result;
                let Hg := fresh "Hg" in
                intros ? ? ? Hg; apply (Hfail _ _ _ _ Hg)
              | intros ?;
                apply (triple_bind _ _ _ (fun _ _ => False));
                [ let Hr := fresh "Hr" in
                  intros ? [? [? Hr]]; cbn [value final]; rewrite Hr;
                  assumption
                | intros ? ? [] ] ]
          | |- triple _ (bind _ _) _ _ =>
              apply (triple_bind _ _ _ (fun _ => I)); [| intros ?]
          | |- triple _ (if ?b then _ else _) _ _ => destruct b
          | |- triple _ (script_log _ _) _ _ =>
              apply triple_total; intros; apply script_log_total
          | |- triple _ (exists_ _) _ _ =>
              apply triple_total; intros; cbn; eauto
          | |- triple _ (raise _) _ _ => apply triple_raise; auto
          | |- triple _ (read_file _ _) _ _ =>
              apply triple_same; apply read_file_same
          | |- triple _ (stat_size _ _) _ _ =>
              apply triple_same; apply stat_size_same
          end).

Lemma write_grows (fs fs0 : gmap Path Kind) (p : Path) :
  fs0 ⊆ fs -> fs !! p <> Some Dir -> fs0 ⊆ <[p := File]> fs.
Proof.
  intros Hsub Hp. etransitivity; [exact Hsub |].
  destruct (fs !! p) as [[|] |] eqn:Hl.
  - rewrite insert_id by exact Hl. reflexivity.
  - congruence.
  - apply insert_subseteq, Hl.
Qed.

Lemma written_is_file (fs : gmap Path Kind) (p : Path) :
  p <> [] -> kind_of (<[p := File]> fs) p = Some File.
Proof.
  intros Hp. destruct p as [| c p]; [congruence |].
  unfold kind_of. apply lookup_insert_eq.
Qed.

Lemma prefixes_from_length base (p q : Path) :
  In q (prefixes_from base p) ->
  (length q <= length base + length p)%nat.
Proof.
  clear SCRIPT_DIR sys_executable subprocess_run.
  revert base. induction p as [| c p IH]; intros base; cbn [prefixes_from In].
  - tauto.
  - intros [<- | Hin].
    + rewrite length_app. cbn [length]. lia.
    + apply IH in Hin. rewrite length_app in Hin. cbn [length] in *. lia.
Qed.

(** Making the directory of [p] does not touch the entry of [p]. *)
Lemma mkdir_parent_keeps (fs fs' : gmap Path Kind) (p : Path) :
  mkdir_p fs (parent p) = Some fs' -> fs' !! p = fs !! p.
Proof.
  clear SCRIPT_DIR sys_executable subprocess_run.
  intros Hm. destruct (mkdir_fold_adds _ _ _ p Hm) as [He | [Hin _]];
    [exact He |].
  exfalso. unfold parent, prefixes in Hin.
  destruct p as [| c p]; [destruct Hin |].
  apply prefixes_from_length in Hin.
  rewrite removelast_firstn_len, length_take in Hin.
  cbn [length] in Hin. lia.
Qed.

(** What the two facts about a script's [main] give for one run. *)
Lemma output_of_main (m : M Ext Z) (p : Path) (os : OS Ext) :
  (forall fs0 : gmap Path Kind,
      triple (on_files (fun fs => fs0 ⊆ fs)) m
        (fun _ => on_files (fun fs => fs0 ⊆ fs))
        (fun _ => on_files (fun fs => fs0 ⊆ fs))) ->
  triple (on_files (fun _ => True)) m
    (fun c os => c = 0 -> on_files (fun fs => kind_of fs p = Some File) os)
    (fun _ _ => True) ->
  files os ⊆ files (final (m os))
  /\ (value (m os) = inl 0 ->
      kind_of (files (final (m os))) p = Some File
      /\ path_exists (files (final (m os))) p = true).
Proof.
  intros Hkeep Hwrite. split.
  - assert (Hpre : on_files (fun fs => files os ⊆ fs) os)
      by (unfold on_files; reflexivity).
    specialize (Hkeep (files os) os Hpre).
    destruct (value (m os)); exact Hkeep.
  - intros Hv. specialize (Hwrite os Logic.I). rewrite Hv in Hwrite.
    specialize (Hwrite eq_refl). unfold on_files in Hwrite.
    split; [exact Hwrite |]. unfold path_exists. rewrite Hwrite. reflexivity.
Qed.

(** ** [gemini_blog_post.py] *)

Lemma blog_main_keeps_files (lib : Library) (cwd : Path)
  (input output : string) (verbose : bool) (fs0 : gmap Path Kind) :
  let I := on_files (fun fs => fs0 ⊆ fs) in
  triple I (blog_main lib cwd input output verbose)
    (fun _ => I) (fun _ => I).
Proof.
  intros I. unfold blog_main, GeminiBlogGenerator_init, generate_blog_post.
  keep2 I I.
  - intros fs fs' Hsub Hm. etransitivity; [exact Hsub |].
    apply (mkdir_p_mono _ _ _ Hm).
  - intros os Hos Hnd _. cbv zeta.
    assert (Hg : I (mkOS (<[path_of cwd output := File]> (files os))
                      (outside os))).
    { apply write_grows; assumption. }
    auto.
Qed.

Lemma blog_main_writes (lib : Library) (cwd : Path)
  (input output : string) (verbose : bool) :
  let W := on_files (fun fs => kind_of fs (path_of cwd output) = Some File) in
  triple (on_files (fun _ => True)) (blog_main lib cwd input output verbose)
    (fun c os => c = 0 -> W os) (fun _ _ => True).
Proof.
  intros W. unfold blog_main, GeminiBlogGenerator_init, generate_blog_post.
  keep2 (on_files (fun _ : gmap Path Kind => True)) W.
  - intros os _ _ Hp. cbv zeta.
    split; [| intros; exact Logic.I].
    apply written_is_file, Hp.
Qed.

(** When [main] of [gemini_blog_post.py] returns 0, the blog post is a
    regular file on disk.  Whatever it returns or raises, no entry that was
    on disk is taken away or changes its kind. *)
Theorem blog_script_writes_its_output (lib : Library) (cwd : Path)
  (input output : string) (verbose : bool) (os : OS Ext) :
  let r := blog_main lib cwd input output verbose os in
  files os ⊆ files (final r)
  /\ (value r = inl 0 ->
      kind_of (files (final r)) (path_of cwd output) = Some File
      /\ path_exists (files (final r)) (path_of cwd output) = true).
Proof.
  apply (output_of_main (blog_main lib cwd input output verbose)).
  - intros fs0. apply blog_main_keeps_files.
  - apply blog_main_writes.
Qed.

(** Until the answer of the model is read, [generate_blog_post] changes no file. *)
Lemma generate_blog_post_without_answer (lib : Library) (cwd : Path)
  (verbose : bool) (input output : string) (fs0 : gmap Path Kind) :
  (forall parts x response x',
      generate_content lib parts x = (inl response, x') ->
      exists e, response_text response = inr e) ->
  let I := on_files (fun fs => fs = fs0) in
  triple I (generate_blog_post lib cwd verbose input output)
    (fun _ _ => False) (fun _ => I).
Proof.
  intros Hfail I. unfold generate_blog_post. upto_answer I Hfail.
Qed.

Lemma blog_main_without_answer (lib : Library) (cwd : Path)
  (input output : string) (verbose : bool) (fs0 : gmap Path Kind) :
  (forall parts x response x',
      generate_content lib parts x = (inl response, x') ->
      exists e, response_text response = inr e) ->
  let I := on_files (fun fs => fs = fs0) in
  triple I (blog_main lib cwd input output verbose)
    (fun c os => c <> 0 /\ I os) (fun _ => I).
Proof.
  intros Hfail I.
  assert (Hone : forall os : OS Ext, I os -> 1 <> 0 /\ I os).
  { intros os' HI. split; [discriminate | exact HI]. }
  unfold blog_main.
  apply (triple_bind _ _ _ (fun _ => I)).
  - unfold GeminiBlogGenerator_init. keep2 I I.
  - intros made. destruct (negb made); [apply triple_ret, Hone |].
    apply (triple_try _ _ _ _ _ (fun _ => I)).
    + apply (triple_bind _ _ _ (fun _ _ => False));
        [apply generate_blog_post_without_answer, Hfail | intros ? ? []].
    + intros e. destruct e; cbv beta iota; try (intros ? HI; exact HI);
        (apply (triple_bind _ _ _ (fun _ => I));
         [apply triple_total; intros; cbn; eauto | intros _]);
        (apply (triple_bind _ _ _ (fun _ => I));
         [destruct verbose; apply triple_total; intros; cbn; eauto
         | intros _]);
        apply triple_ret, Hone.
Qed.

(** When the model gives no answer that can be read, because the request
    raises or because reading [response.text] raises, [main] of
    [gemini_blog_post.py] does not return 0 and leaves every file as it was:
    a blog post that is
    on disk is neither removed nor emptied, and no directory is made. *)
Theorem blog_script_without_answer (lib : Library) (cwd : Path)
  (input output : string) (verbose : bool) (os : OS Ext) :
  (forall parts x response x',
      generate_content lib parts x = (inl response, x') ->
      exists e, response_text response = inr e) ->
  let r := blog_main lib cwd input output verbose os in
  value r <> inl 0
  /\ files (final r) = files os
  /\ files (final r) !! path_of cwd output = files os !! path_of cwd output.
Proof.
  intros Hfail r.
  pose proof (blog_main_without_answer lib cwd input output verbose
                (files os) Hfail os eq_refl) as H.
  fold r in H. unfold on_files in H.
  destruct (value r) as [c | e].
  - destruct H as [Hc Hf]. split; [congruence |]. rewrite Hf. auto.
  - split; [discriminate |]. rewrite H. auto.
Qed.

(** Without an API key in the environment, [main] of [gemini_blog_post.py]
    prints the error and returns 1; it calls no library, reads nothing and
    changes nothing. *)
Theorem blog_script_needs_a_key (lib : Library) (cwd : Path)
  (input output : string) (verbose : bool) (os : OS Ext) :
  truthy (os_getenv lib "GEMINI_API_KEY" (outside os)) = false ->
  blog_main lib cwd input output verbose os
  = mkRun (inl 1) os
      [Print "Error: GEMINI_API_KEY not found in environment or .env file"].
Proof.
  intros Hkey.
  assert (Hinit : GeminiBlogGenerator_init lib verbose os
                  = mkRun (inr (ValueError
                                  "GEMINI_API_KEY not found in environment or .env file"))
                      os []).
  { unfold GeminiBlogGenerator_init, bind. cbn [ret value final emitted].
    rewrite Hkey. reflexivity. }
  unfold blog_main. cbv beta zeta delta [bind try_except]. rewrite Hinit.
  reflexivity.
Qed.

Lemma GeminiBlogGenerator_init_run (lib : Library) (verbose : bool)
  (os : OS Ext) key x1 x2 :
  os_getenv lib "GEMINI_API_KEY" (outside os) = Some key ->
  key <> EmptyString ->
  genai_configure lib key (outside os) = (inl tt, x1) ->
  genai_GenerativeModel lib "gemini-2.5-flash" x1 = (inl tt, x2) ->
  GeminiBlogGenerator_init lib verbose os
  = mkRun (inl tt) (mkOS (files os) x2)
      (said verbose ["Gemini blog generator initialized"]).
Proof.
  intros Hkey Hne Hc Hm. apply String.eqb_neq in Hne.
  unfold GeminiBlogGenerator_init, bind, call, script_log.
  cbn [ret value final emitted files outside]. rewrite Hkey.
  cbn [truthy default from_option id]. rewrite Hne. cbn [negb].
  unfold id. rewrite Hc.
  cbn [value final emitted files outside]. rewrite Hm.
  destruct verbose; reflexivity.
Qed.

Lemma generate_blog_post_missing (lib : Library) (cwd : Path)
  (verbose : bool) (input output : string) (os : OS Ext) :
  path_exists (files os) (path_of cwd input) = false ->
  generate_blog_post lib cwd verbose input output os
  = mkRun (inr (OSError ("Transcript not found: " +:+ path_text input))) os
      (said verbose [rule 60; "Starting blog post generation"; rule 60]).
Proof.
  intros Hmissing. unfold generate_blog_post.
  match goal with
  | |- context [bind (exists_ ?p) ?k] => set (rest := k)
  end.
  destruct verbose;
    lazy beta iota zeta delta
      [bind script_log emit ret exists_ value final emitted app];
    rewrite Hmissing; reflexivity.
Qed.

(** When the transcript is missing, [main] of [gemini_blog_post.py] reports
    it and returns 1 without sending anything to the model and without
    touching the files. *)
Theorem blog_script_needs_the_transcript (lib : Library) (cwd : Path)
  (input output : string) (verbose : bool) (os : OS Ext) key x1 x2 :
  os_getenv lib "GEMINI_API_KEY" (outside os) = Some key ->
  key <> EmptyString ->
  genai_configure lib key (outside os) = (inl tt, x1) ->
  genai_GenerativeModel lib "gemini-2.5-flash" x1 = (inl tt, x2) ->
  path_exists (files os) (path_of cwd input) = false ->
  blog_main lib cwd input output verbose os
  = mkRun (inl 1) (mkOS (files os) x2)
      (said verbose ["Gemini blog generator initialized"; rule 60;
                     "Starting blog post generation"; rule 60]
         ++ [Print (nl +:+ "✗ Error generating blog post: "
                       +:+ "Transcript not found: " +:+ path_text input)]
         ++ (if verbose then [Traceback] else [])).
Proof.
  intros Hkey Hne Hc Hm Hmissing.
  pose proof (GeminiBlogGenerator_init_run lib verbose os key x1 x2
                Hkey Hne Hc Hm) as Hinit.
  pose proof (generate_blog_post_missing lib cwd verbose input output
                (mkOS (files os) x2) Hmissing) as Hgen.
  unfold blog_main. cbv beta zeta delta [bind try_except].
  rewrite Hinit. cbn [value final emitted ret negb]. rewrite Hgen.
  destruct verbose; reflexivity.
Qed.

(** ** [gemini_transcribe.py] *)

Lemma transcribe_main_keeps_files (lib : Library) (cwd : Path)
  (input output : string) (verbose : bool) (fs0 : gmap Path Kind) :
  let I := on_files (fun fs => fs0 ⊆ fs) in
  triple I (transcribe_main lib cwd input output verbose)
    (fun _ => I) (fun _ => I).
Proof.
  intros I. unfold transcribe_main, GeminiTranscriber_init, transcribe_audio.
  keep2 I I.
  - intros fs fs' Hsub Hm. etransitivity; [exact Hsub |].
    apply (mkdir_p_mono _ _ _ Hm).
  - intros os Hos Hnd _. cbv zeta.
    assert (Hg : I (mkOS (<[path_of cwd output := File]> (files os))
                      (outside os))).
    { apply write_grows; assumption. }
    auto.
Qed.

Lemma transcribe_main_writes (lib : Library) (cwd : Path)
  (input output : string) (verbose : bool) :
  let W := on_files (fun fs => kind_of fs (path_of cwd output) = Some File) in
  triple (on_files (fun _ => True))
    (transcribe_main lib cwd input output verbose)
    (fun c os => c = 0 -> W os) (fun _ _ => True).
Proof.
  intros W. unfold transcribe_main, GeminiTranscriber_init, transcribe_audio.
  keep2 (on_files (fun _ : gmap Path Kind => True)) W.
  - intros os _ _ Hp. cbv zeta.
    split; [| intros; exact Logic.I].
    apply written_is_file, Hp.
Qed.

(** When [main] of [gemini_transcribe.py] returns 0, the transcript is a
    regular file on disk.  Whatever it returns or raises, no entry that was
    on disk is taken away or changes its kind. *)
Theorem transcribe_script_writes_its_output (lib : Library) (cwd : Path)
  (input output : string) (verbose : bool) (os : OS Ext) :
  let r := transcribe_main lib cwd input output verbose os in
  files os ⊆ files (final r)
  /\ (value r = inl 0 ->
      kind_of (files (final r)) (path_of cwd output) = Some File
      /\ path_exists (files (final r)) (path_of cwd output) = true).
Proof.
  apply (output_of_main (transcribe_main lib cwd input output verbose)).
  - intros fs0. apply transcribe_main_keeps_files.
  - apply transcribe_main_writes.
Qed.

(** Until the answer of the model is read, [transcribe_audio] changes no file. *)
Lemma transcribe_audio_without_answer (lib : Library) (cwd : Path)
  (verbose : bool) (input output : string) (fs0 : gmap Path Kind) :
  (forall parts x response x',
      generate_content lib parts x = (inl response, x') ->
      exists e, response_text response = inr e) ->
  let I := on_files (fun fs => fs = fs0) in
  triple I (transcribe_audio lib cwd verbose input output)
    (fun _ _ => False) (fun _ => I).
Proof.
  intros Hfail I. unfold transcribe_audio. upto_answer I Hfail.
Qed.

Lemma transcribe_main_without_answer (lib : Library) (cwd : Path)
  (input output : string) (verbose : bool) (fs0 : gmap Path Kind) :
  (forall parts x response x',
      generate_content lib parts x = (inl response, x') ->
      exists e, response_text response = inr e) ->
  let I := on_files (fun fs => fs = fs0) in
  triple I (transcribe_main lib cwd input output verbose)
    (fun c os => c <> 0 /\ I os) (fun _ => I).
Proof.
  intros Hfail I.
  assert (Hone : forall os : OS Ext, I os -> 1 <> 0 /\ I os).
  { intros os' HI. split; [discriminate | exact HI]. }
  unfold transcribe_main.
  apply (triple_bind _ _ _ (fun _ => I)).
  - unfold GeminiTranscriber_init. keep2 I I.
  - intros made. destruct (negb made); [apply triple_ret, Hone |].
    apply (triple_try _ _ _ _ _ (fun _ => I)).
    + apply (triple_bind _ _ _ (fun _ _ => False));
        [apply transcribe_audio_without_answer, Hfail | intros ? ? []].
    + intros e. destruct e; cbv beta iota; try (intros ? HI; exact HI);
        (apply (triple_bind _ _ _ (fun _ => I));
         [apply triple_total; intros; cbn; eauto | intros _]);
        (apply (triple_bind _ _ _ (fun _ => I));
         [destruct verbose; apply triple_total; intros; cbn; eauto
         | intros _]);
        apply triple_ret, Hone.
Qed.

(** When the model gives no answer that can be read, because the request
    raises or because reading [response.text] raises, [main] of
    [gemini_transcribe.py] does not return 0 and leaves every file as it was:
    a transcript that
    is on disk is neither removed nor emptied, and no directory is made. *)
Theorem transcribe_script_without_answer (lib : Library) (cwd : Path)
  (input output : string) (verbose : bool) (os : OS Ext) :
  (forall parts x response x',
      generate_content lib parts x = (inl response, x') ->
      exists e, response_text response = inr e) ->
  let r := transcribe_main lib cwd input output verbose os in
  value r <> inl 0
  /\ files (final r) = files os
  /\ files (final r) !! path_of cwd output = files os !! path_of cwd output.
Proof.
  intros Hfail r.
  pose proof (transcribe_main_without_answer lib cwd input output verbose
                (files os) Hfail os eq_refl) as H.
  fold r in H. unfold on_files in H.
  destruct (value r) as [c | e].
  - destruct H as [Hc Hf]. split; [congruence |]. rewrite Hf. auto.
  - split; [discriminate |]. rewrite H. auto.
Qed.

Lemma GeminiTranscriber_init_run (lib : Library) (verbose : bool)
  (os : OS Ext) key x1 x2 :
  os_getenv lib "GEMINI_API_KEY" (outside os) = Some key ->
  key <> EmptyString ->
  genai_configure lib key (outside os) = (inl tt, x1) ->
  genai_GenerativeModel lib "gemini-2.5-flash" x1 = (inl tt, x2) ->
  GeminiTranscriber_init lib verbose os
  = mkRun (inl tt) (mkOS (files os) x2)
      (said verbose ["Gemini transcriber initialized (gemini-2.5-flash)"]).
Proof.
  intros Hkey Hne Hc Hm. apply String.eqb_neq in Hne.
  unfold GeminiTranscriber_init, bind, call, script_log.
  cbn [ret value final emitted files outside]. rewrite Hkey.
  cbn [truthy default from_option id]. rewrite Hne. cbn [negb].
  unfold id. rewrite Hc.
  cbn [value final emitted files outside]. rewrite Hm.
  destruct verbose; reflexivity.
Qed.

Lemma transcribe_audio_missing (lib : Library) (cwd : Path)
  (verbose : bool) (input output : string) (os : OS Ext) :
  path_exists (files os) (path_of cwd input) = false ->
  transcribe_audio lib cwd verbose input output os
  = mkRun (inr (OSError ("No such file or directory: "
                           +:+ str_path (path_of cwd input)))) os
      (said verbose [rule 60; "Starting transcription with light redaction";
                     rule 60]).
Proof.
  intros Hmissing. unfold transcribe_audio.
  assert (Hstat : stat_size lib (path_of cwd input) os
                  = mkRun (inr (OSError ("No such file or directory: "
                                           +:+ str_path (path_of cwd input))))
                      os []).
  { unfold stat_size. unfold path_exists in Hmissing.
    destruct (kind_of (files os) (path_of cwd input)); [discriminate |].
    reflexivity. }
  match goal with
  | |- context [bind (stat_size ?l ?p) ?k] => set (rest := k)
  end.
  destruct verbose;
    lazy beta iota zeta delta
      [bind script_log emit ret value final emitted app];
    rewrite Hstat; reflexivity.
Qed.

(** When the audio file is missing, [main] of [gemini_transcribe.py]
    reports the error and returns 1 without sending anything to the model
    and without touching the files. *)
Theorem transcribe_script_needs_the_audio (lib : Library) (cwd : Path)
  (input output : string) (verbose : bool) (os : OS Ext) key x1 x2 :
  os_getenv lib "GEMINI_API_KEY" (outside os) = Some key ->
  key <> EmptyString ->
  genai_configure lib key (outside os) = (inl tt, x1) ->
  genai_GenerativeModel lib "gemini-2.5-flash" x1 = (inl tt, x2) ->
  path_exists (files os) (path_of cwd input) = false ->
  exists reason,
    transcribe_main lib cwd input output verbose os
    = mkRun (inl 1) (mkOS (files os) x2)
        (said verbose ["Gemini transcriber initialized (gemini-2.5-flash)";
                       rule 60; "Starting transcription with light redaction";
                       rule 60]
           ++ [Print (nl +:+ "✗ Error transcribing: " +:+ reason)]
           ++ (if verbose then [Traceback] else [])).
Proof.
  intros Hkey Hne Hc Hm Hmissing.
  pose proof (GeminiTranscriber_init_run lib verbose os key x1 x2
                Hkey Hne Hc Hm) as Hinit.
  pose proof (transcribe_audio_missing lib cwd verbose input output
                (mkOS (files os) x2) Hmissing) as Haudio.
  eexists. unfold transcribe_main. cbv beta zeta delta [bind try_except].
  rewrite Hinit. cbn [value final emitted ret negb]. rewrite Haudio.
  destruct verbose; reflexivity.
Qed.

(** ** Paths handed to a script *)

Lemma append_cons (x : ascii) (a b : string) :
  String x a +:+ b = String x (a +:+ b).
Proof. reflexivity. Qed.

Lemma append_nil_l (a : string) : "" +:+ a = a.
Proof. reflexivity. Qed.

Lemma string_app_assoc (a b c : string) : (a +:+ b) +:+ c = a +:+ (b +:+ c).
Proof.
  induction a as [| x a IH]; [reflexivity |].
  rewrite !append_cons, IH. reflexivity.
Qed.

Lemma string_app_nil_r (a : string) : a +:+ "" = a.
Proof.
  induction a as [| x a IH]; [reflexivity |].
  rewrite append_cons, IH. reflexivity.
Qed.

Lemma has_slash_app (a b : string) :
  has_slash (a +:+ b) = has_slash a || has_slash b.
Proof.
  induction a as [| x a IH]; [reflexivity |].
  rewrite append_cons. cbn [has_slash]. rewrite IH. apply orb_assoc.
Qed.

Lemma split_slash_component (c rest cur : string) :
  has_slash c = false ->
  split_slash (c +:+ rest) cur = split_slash rest (cur +:+ c).
Proof.
  revert cur. induction c as [| x c IH]; intros cur Hc.
  - rewrite append_nil_l, string_app_nil_r. reflexivity.
  - rewrite append_cons. cbn [split_slash].
    cbn [has_slash] in Hc. apply orb_false_elim in Hc as [Hx Hc]. rewrite Hx.
    rewrite (IH _ Hc), string_app_assoc. reflexivity.
Qed.

Lemma split_slash_no_slash (s : string) : forall cur,
  has_slash cur = false ->
  Forall (fun c => has_slash c = false) (split_slash s cur).
Proof.
  induction s as [| x s IH]; intros cur Hcur; cbn [split_slash].
  - repeat constructor. exact Hcur.
  - destruct (Ascii.eqb x "/") eqn:Hx.
    + constructor; [exact Hcur | apply IH; reflexivity].
    + apply IH. rewrite has_slash_app, Hcur. cbn [has_slash orb].
      rewrite Hx. reflexivity.
Qed.

(** The components that [pathlib] makes of a string are clean. *)
Lemma parts_clean (s : string) : Forall (fun c => clean c = true) (parts s).
Proof.
  unfold parts. pose proof (split_slash_no_slash s "" eq_refl) as Hall.
  induction Hall as [| c l Hc _ IH]; cbn [List.filter]; [constructor |].
  destruct (is_component c) eqn:Hcomp; [| exact IH].
  constructor; [| exact IH]. unfold clean. rewrite Hcomp, Hc. reflexivity.
Qed.

Lemma split_slash_concat (p : list string) : forall c cur,
  Forall (fun c => has_slash c = false) (c :: p) ->
  split_slash (String.concat "/" (c :: p)) cur = (cur +:+ c) :: p.
Proof.
  induction p as [| c' p IH]; intros c cur Hall;
    apply Forall_cons in Hall as [Hc Hall].
  - cbn [String.concat]. rewrite <- (string_app_nil_r c) at 1.
    rewrite (split_slash_component c "" cur Hc). reflexivity.
  - change (String.concat "/" (c :: c' :: p))
      with (c +:+ "/" +:+ String.concat "/" (c' :: p)).
    rewrite (split_slash_component c _ cur Hc).
    change (split_slash ("/" +:+ String.concat "/" (c' :: p)) (cur +:+ c))
      with ((cur +:+ c) :: split_slash (String.concat "/" (c' :: p)) "").
    rewrite (IH c' "" Hall). reflexivity.
Qed.

Lemma parts_str_path (p : Path) :
  Forall (fun c => clean c = true) p -> parts (str_path p) = p.
Proof.
  intros Hclean. unfold parts, str_path.
  change (split_slash ("/" +:+ String.concat "/" p) "")
    with ("" :: split_slash (String.concat "/" p) "").
  cbn [List.filter is_component String.eqb negb andb].
  destruct p as [| c p]; [reflexivity |].
  rewrite split_slash_concat.
  - rewrite append_nil_l.
    induction Hclean as [| x l Hx _ IH]; cbn [List.filter]; [reflexivity |].
    unfold clean in Hx. apply andb_prop in Hx as [Hx _]. rewrite Hx, IH.
    reflexivity.
  - eapply Forall_impl; [exact Hclean |]. cbn. intros x Hx.
    unfold clean in Hx. apply andb_prop in Hx as [_ Hx].
    apply negb_true_iff in Hx. exact Hx.
Qed.

Lemma path_of_str_path (p cwd : Path) :
  Forall (fun c => clean c = true) p -> path_of cwd (str_path p) = p.
Proof.
  intros Hclean. unfold path_of, joinpath.
  change (is_absolute (str_path p)) with true. cbv beta iota.
  apply parts_str_path, Hclean.
Qed.

(** Printing a path and reading it back gives the path, when its
    components are clean: the script sees the path that the orchestrator
    printed on its command line, whatever its working directory.  The
    components that [pathlib] makes of any string are clean. *)
Theorem printed_path_reads_back (p cwd : Path) (s : string) :
  Forall (fun c => clean c = true) (parts s)
  /\ (Forall (fun c => clean c = true) p ->
      parts (str_path p) = p
      /\ path_of cwd (str_path p) = p
      /\ path_text (str_path p) = str_path p).
Proof.
  split; [apply parts_clean |]. intros Hclean.
  split; [apply parts_str_path, Hclean |].
  split; [apply path_of_str_path, Hclean |].
  unfold path_text. change (is_absolute (str_path p)) with true.
  cbv beta iota. rewrite (parts_str_path p Hclean). reflexivity.
Qed.

(** ** The scripts under the orchestrator *)

Lemma clean_removelast (p : Path) :
  Forall (fun c => clean c = true) p ->
  Forall (fun c => clean c = true) (removelast p).
Proof.
  induction 1 as [| c p Hc Hp IH]; [constructor |].
  cbn [removelast]. destruct p; [constructor |].
  constructor; assumption.
Qed.

Lemma clean_joinpath (p : Path) (s : string) :
  Forall (fun c => clean c = true) p ->
  Forall (fun c => clean c = true) (p // s).
Proof.
  intros Hp. unfold joinpath. destruct (is_absolute s).
  - apply parts_clean.
  - apply Forall_app. split; [exact Hp | apply parts_clean].
Qed.

Lemma orchestrator_paths_clean folder v f py :
  Forall (fun c => clean c = true) SCRIPT_DIR ->
  let self := new_orchestrator folder v f py in
  Forall (fun c => clean c = true) (raw_audio self)
  /\ Forall (fun c => clean c = true) (processed_audio self)
  /\ Forall (fun c => clean c = true) (transcript self)
  /\ Forall (fun c => clean c = true) (blog_post self).
Proof.
  intros Hdir self.
  assert (Hroot : Forall (fun c => clean c = true) PROJECT_ROOT)
    by apply clean_removelast, Hdir.
  unfold self, new_orchestrator.
  cbn [raw_audio processed_audio transcript blog_post].
  repeat split; repeat apply clean_joinpath; exact Hroot.
Qed.

(** The two Gemini scripts honour the contract that the orchestrator's
    reruns and manifest rely on.  When the scripts directory has a clean
    path and the child processes of step 2 and step 3 run [main] of
    [gemini_transcribe.py] and of [gemini_blog_post.py] on the command line
    the orchestrator builds, a child that exits with status 0 has left its
    output artifact on disk, at the path where the orchestrator looks for
    it, and has taken no file away. *)
Theorem gemini_scripts_honour_the_contract (lib : Library) folder v f py :
  let self := new_orchestrator folder v f py in
  Forall (fun c => clean c = true) SCRIPT_DIR ->
  runs_script (command_2 self) (negb (verbose self))
    (transcribe_main lib SCRIPT_DIR (str_path (processed_audio self))
       (str_path (transcript self)) (verbose self)) ->
  runs_script (command_3 self) (negb (verbose self))
    (blog_main lib SCRIPT_DIR (str_path (transcript self))
       (str_path (blog_post self)) (verbose self)) ->
  produces self (command_2 self) (transcript self)
  /\ produces self (command_3 self) (blog_post self).
Proof.
  intros self Hdir Hrun2 Hrun3.
  destruct (orchestrator_paths_clean folder v f py Hdir)
    as (_ & _ & Htra & Hblog).
  fold self in Htra, Hblog.
  pose proof (path_of_str_path (transcript self) SCRIPT_DIR Htra) as Hback2.
  pose proof (path_of_str_path (blog_post self) SCRIPT_DIR Hblog) as Hback3.
  split; intros os cp os' Hsub Hz.
  - destruct (Hrun2 os cp os' Hsub Hz) as [Hv Hf].
    destruct (output_of_main
                (transcribe_main lib SCRIPT_DIR
                   (str_path (processed_audio self))
                   (str_path (transcript self)) (verbose self))
                (path_of SCRIPT_DIR (str_path (transcript self))) os)
      as [Hgrow Hout].
    + intros fs0. apply transcribe_main_keeps_files.
    + apply transcribe_main_writes.
    + rewrite Hf, Hback2 in *. split; [exact Hgrow | apply (Hout Hv)].
  - destruct (Hrun3 os cp os' Hsub Hz) as [Hv Hf].
    destruct (output_of_main
                (blog_main lib SCRIPT_DIR (str_path (transcript self))
                   (str_path (blog_post self)) (verbose self))
                (path_of SCRIPT_DIR (str_path (blog_post self))) os)
      as [Hgrow Hout].
    + intros fs0. apply blog_main_keeps_files.
    + apply blog_main_writes.
    + rewrite Hf, Hback3 in *. split; [exact Hgrow | apply (Hout Hv)].
Qed.

(** * [preprocess_audio.py] *)

(** ** [remove_silence] *)

Lemma padded_in_bounds (total padding : Z) (range : Z * Z) :
  0 <= padding -> 0 <= fst range <= snd range -> snd range <= total ->
  0 <= fst (padded total padding range) <= snd (padded total padding range)
  /\ snd (padded total padding range) <= total.
Proof.
  clear SCRIPT_DIR sys_executable subprocess_run.
  intros Hp Hr Ht. unfold padded. cbn [fst snd]. lia.
Qed.

Lemma append_ranges_length {Audio Float : Type} (lib : Pydub Audio Float)
  (audio : Audio) (padding : Z) (ranges : list (Z * Z)) : forall output,
  length_laws lib ->
  0 <= padding ->
  Forall (fun range => 0 <= fst range <= snd range
                       /\ snd range <= audio_len lib audio) ranges ->
  audio_len lib (append_ranges lib audio padding ranges output)
  = audio_len lib output + padded_length (audio_len lib audio) padding ranges.
Proof.
  clear SCRIPT_DIR sys_executable subprocess_run.
  intros output (_ & Happ & Hslice) Hpad Hall. revert output.
  induction Hall as [| range ranges [Hr Ht] _ IH]; intros output.
  - cbn. lia.
  - unfold append_ranges, padded_length in *. cbn [fold_left fold_right].
    destruct (padded_in_bounds (audio_len lib audio) padding range Hpad Hr Ht)
      as [Hb Hb'].
    destruct (padded (audio_len lib audio) padding range) as [start stop].
    cbn [fst snd] in Hb, Hb'.
    rewrite IH, Happ, (Hslice _ _ _ Hb Hb'). lia.
Qed.

(** What [remove_silence] returns.  Without a range of sound it returns the
    audio it was given.  With ranges it returns the slices of the widened
    ranges one after the other: ranges that come to overlap are not merged,
    and the length of the result is the sum of the lengths of the widened
    ranges, which can exceed the length of the audio.  It leaves the state
    as it is. *)
Theorem remove_silence_length {Audio Float : Type} (lib : Pydub Audio Float)
  (self : AudioPreprocessor) (audio : Audio)
  (silence_thresh min_silence_len padding : Z) (os : OS Ext) :
  let ranges := detect_nonsilent lib audio min_silence_len silence_thresh in
  let r := remove_silence lib self audio silence_thresh min_silence_len
             padding os in
  final r = os
  /\ (ranges = [] -> value r = inl audio)
  /\ (ranges <> [] -> audio_len lib audio <> 0 ->
      value r = inl (append_ranges lib audio padding ranges (audio_empty lib))
      /\ (length_laws lib ->
          0 <= padding ->
          Forall (fun range => 0 <= fst range <= snd range
                               /\ snd range <= audio_len lib audio) ranges ->
          forall output, value r = inl output ->
            audio_len lib output
            = padded_length (audio_len lib audio) padding ranges)).
Proof.
  intros ranges r. subst r. unfold remove_silence. fold ranges.
  unfold pre_log, bind, script_log.
  destruct (pre_verbose self); cbn [emit ret value final emitted].
  - destruct ranges as [| range ranges'] eqn:Hranges.
    + cbn [value final]. repeat split; congruence.
    + split; [destruct (audio_len lib audio =? 0); reflexivity |].
      split; [discriminate |]. intros _ Hlen.
      apply Z.eqb_neq in Hlen. rewrite Hlen. cbn [value].
      split; [reflexivity |]. intros Hlaws Hpad Hall output Hout.
      assert (Hout' : output = append_ranges lib audio padding
                                 (range :: ranges') (audio_empty lib))
        by congruence.
      rewrite Hout'.
      rewrite (append_ranges_length lib audio padding _ _ Hlaws Hpad Hall).
      destruct Hlaws as (Hempty & _). rewrite Hempty. lia.
  - destruct ranges as [| range ranges'] eqn:Hranges.
    + cbn [value final]. repeat split; congruence.
    + split; [destruct (audio_len lib audio =? 0); reflexivity |].
      split; [discriminate |]. intros _ Hlen.
      apply Z.eqb_neq in Hlen. rewrite Hlen. cbn [value].
      split; [reflexivity |]. intros Hlaws Hpad Hall output Hout.
      assert (Hout' : output = append_ranges lib audio padding
                                 (range :: ranges') (audio_empty lib))
        by congruence.
      rewrite Hout'.
      rewrite (append_ranges_length lib audio padding _ _ Hlaws Hpad Hall).
      destruct Hlaws as (Hempty & _). rewrite Hempty. lia.
Qed.

(** ** [main] *)

Lemma read_file_as_same {A : Type} (what : Path -> Ext -> A + exn)
  (p : Path) (os : OS Ext) : final (read_file_as what p os) = os.
Proof.
  unfold read_file_as. destruct (kind_of (files os) p) as [[|] |]; reflexivity.
Qed.

Lemma triple_export {Audio Float : Type} (lib : Pydub Audio Float)
  (audio : Audio) (p : Path) (P : OS Ext -> Prop)
  (Q : unit -> OS Ext -> Prop) (E : exn -> OS Ext -> Prop) :
  (forall os res os',
      P os -> export_mp3 lib audio p os = (res, os') ->
      match res with
      | inl _ => Q tt os'
      | inr e => E e os'
      end) ->
  triple P (export_to lib audio p) Q E.
Proof.
  intros H os Hos. unfold export_to.
  specialize (H os). destruct (export_mp3 lib audio p os) as [res os'].
  specialize (H res os' Hos eq_refl). cbn [value final].
  destruct res as [[] | e]; exact H.
Qed.

(** Steps through [main] of [preprocess_audio.py]: [I] holds up to the
    export, [W] from there on. *)
Ltac walk I W :=
  repeat (lazymatch goal with
          | |- triple _ (bind ?m _) _ _ =>
              lazymatch m with
              | context [@export_to] =>
                  apply (triple_bind _ _ _ (fun _ => W));
                  [| intros ?; walk W W]
              | _ => apply (triple_bind _ _ _ (fun _ => I)); [| intros ?]
              end
          | |- triple _ (try_except _ _) _ _ =>
              apply (triple_try _ _ _ _ _ (fun _ => I));
              [| let e := fresh "e" in intros e; destruct e; cbv beta iota]
          | |- triple _ (script_log _ _) _ _ =>
              apply triple_total; intros; apply script_log_total
          | |- triple _ (emit _) _ _ =>
              apply triple_total; intros; cbn; eauto
          | |- triple _ (ret _) _ _ =>
              apply triple_ret;
              try solve [auto | intros; congruence | intros; discriminate]
          | |- triple _ (raise _) _ _ => apply triple_raise; auto
          | |- triple _ (read_file_as _ _) _ _ =>
              apply triple_same; apply read_file_as_same
          | |- triple _ (call _) _ _ => apply triple_call
          | |- triple _ (mkdir _) _ _ => apply triple_mkdir
          | |- triple _ (export_to _ _ _) _ _ => apply triple_export
          | |- triple _ (match ?x with _ => _ end) _ _ => destruct x
          | |- forall os, _ -> _ => solve [auto]
          end).

Ltac open_preprocess_main :=
  unfold preprocess_main, process, load_audio, convert_to_mono,
    remove_silence, reduce_noise, normalize_audio, apply_compression,
    optimize_for_stt, pre_log;
  cbv zeta; cbn [pre_verbose pre_cwd input_path output_path].

Lemma preprocess_main_keeps_files {Audio Float : Type}
  (lib : Pydub Audio Float) (cwd : Path) (input output : string)
  (steps : option (list string)) (verbose : bool) (fs0 : gmap Path Kind) :
  export_laws lib ->
  let I := on_files (fun fs => fs0 ⊆ fs) in
  triple I (preprocess_main lib cwd input output steps verbose)
    (fun _ => I) (fun _ => I).
Proof.
  intros Hexport I. open_preprocess_main.
  walk I I.
  - intros fs fs' Hsub Hm. etransitivity; [exact Hsub |].
    apply (mkdir_p_mono _ _ _ Hm).
  - intros os res os' Hos Hrun.
    destruct (Hexport _ _ _ _ _ Hrun) as [Hsub _].
    assert (Hg : I os') by (unfold I, on_files in *; etransitivity; eassumption).
    destruct res; exact Hg.
Qed.

Lemma preprocess_main_writes {Audio Float : Type}
  (lib : Pydub Audio Float) (cwd : Path) (input output : string)
  (steps : option (list string)) (verbose : bool) :
  export_laws lib ->
  let W := on_files (fun fs => path_exists fs (path_of cwd output) = true) in
  triple (on_files (fun _ => True))
    (preprocess_main lib cwd input output steps verbose)
    (fun c os => c = 0 -> W os) (fun _ _ => True).
Proof.
  intros Hexport W. open_preprocess_main.
  walk (on_files (fun _ : gmap Path Kind => True)) W.
  - intros os res os' _ Hrun.
    destruct (Hexport _ _ _ _ _ Hrun) as [_ Hout].
    destruct res as [[] | e]; [apply Hout; reflexivity | exact Logic.I].
Qed.

Lemma preprocess_main_exports {Audio Float : Type}
  (lib : Pydub Audio Float) (cwd : Path) (input output : string)
  (steps : option (list string)) (verbose : bool) :
  let W := fun os' => exists audio os,
               export_mp3 lib audio (path_of cwd output) os = (inl tt, os') in
  triple (on_files (fun _ => True))
    (preprocess_main lib cwd input output steps verbose)
    (fun c os => c = 0 -> W os) (fun _ _ => True).
Proof.
  intros W. open_preprocess_main.
  walk (on_files (fun _ : gmap Path Kind => True)) W.
  - intros os res os' _ Hrun.
    destruct res as [[] | e]; [| exact Logic.I].
    unfold W. eauto.
Qed.

(** A fact that does not depend on the state can be taken out of the
    precondition. *)
Lemma triple_assume {A} (fact : Prop) (P : OS Ext -> Prop) (m : M Ext A) Q E :
  (fact -> triple P m Q E) -> triple (fun os => P os /\ fact) m Q E.
Proof. intros H os [HP Hfact]. apply (H Hfact os HP). Qed.

Lemma bind_raised {A B} (m : M Ext A) (k : A -> M Ext B) (os : OS Ext) e :
  value (m os) = inr e ->
  bind m k os = mkRun (inr e) (final (m os)) (emitted (m os)).
Proof. intros Hv. unfold bind. cbv zeta. rewrite Hv. reflexivity. Qed.

Lemma try_except_caught {A} (m : M Ext A) (h : exn -> option (M Ext A))
  (os : OS Ext) e k :
  value (m os) = inr e -> h e = Some k ->
  try_except m h os
  = mkRun (value (k (final (m os)))) (final (k (final (m os))))
      (emitted (m os) ++ emitted (k (final (m os)))).
Proof.
  intros Hv Hh. unfold try_except. cbv zeta. rewrite Hv, Hh. reflexivity.
Qed.

(** [process] on an audio of length zero in which [detect_nonsilent] finds
    sound: the division of [remove_silence] raises, and the state is the one
    [process] started in. *)
Lemma process_divides_by_length {Audio Float : Type}
  (lib : Pydub Audio Float) (self : AudioPreprocessor)
  (steps : option (list string)) (os : OS Ext) (audio : Audio) :
  kind_of (files os) (path_of (pre_cwd self) (input_path self)) = Some File ->
  from_file lib (path_of (pre_cwd self) (input_path self)) (outside os)
  = inl audio ->
  let names := default all_processing_steps steps in
  let heard := if has_step "mono" names && (1 <? audio_channels lib audio)
               then set_channels lib audio 1 else audio in
  has_step "silence" names = true ->
  detect_nonsilent lib heard 500 (-40) <> [] ->
  audio_len lib heard = 0 ->
  value (process lib self steps os) = inr (OtherException "division by zero")
  /\ final (process lib self steps os) = os.
Proof.
  intros Hkind Hfrom names heard Hsilence Hranges Hlen.
  pose (I := fun o : OS Ext => o = os).
  assert (Hlog : forall (P : OS Ext -> Prop) message E,
            triple P (pre_log self message) (fun _ => P) E).
  { intros P message E. apply triple_total. intros o.
    apply script_log_total. }
  assert (H : triple I (process lib self steps) (fun _ _ => False)
                (fun e o => e = OtherException "division by zero" /\ I o)).
  { unfold process. cbv zeta. fold names.
    do 3 (apply (triple_bind _ _ _ (fun _ => I)); [apply Hlog | intros _]).
    apply (triple_bind _ _ _ (fun a o => I o /\ a = audio)).
    { unfold load_audio.
      apply (triple_bind _ _ _ (fun _ => I)); [apply Hlog | intros _].
      apply (triple_bind _ _ _ (fun a o => I o /\ a = audio)).
      - intros o Ho. unfold I in Ho. subst o. unfold read_file_as.
        rewrite Hkind. cbn [value final]. rewrite Hfrom. split; reflexivity.
      - intros a.
        apply (triple_bind _ _ _ (fun _ o => I o /\ a = audio));
          [apply Hlog |].
        intros _. apply triple_ret. auto. }
    intros a. apply triple_assume. intros ->.
    apply (triple_bind _ _ _ (fun a o => I o /\ a = heard)).
    { unfold heard, convert_to_mono.
      destruct (has_step "mono" names); cbn [andb];
        [destruct (1 <? audio_channels lib audio) |];
        try (apply (triple_bind _ _ _ (fun _ => I)); [apply Hlog | intros _]);
        apply triple_ret; intros o Ho; (split; [exact Ho | reflexivity]). }
    intros a. apply triple_assume. intros ->.
    apply (triple_bind _ _ _ (fun _ _ => False)); [| intros ? ? []].
    rewrite Hsilence. unfold remove_silence.
    apply (triple_bind _ _ _ (fun _ => I)); [apply Hlog | intros _].
    cbv zeta.
    destruct (detect_nonsilent lib heard 500 (-40)) as [| range ranges];
      [congruence |].
    rewrite Hlen. cbn [Z.eqb]. apply triple_raise. intros o Ho.
    split; [reflexivity | exact Ho]. }
  specialize (H os eq_refl).
  destruct (value (process lib self steps os)) as [[] | e];
    [destruct H |].
  destruct H as [-> ->]. split; reflexivity.
Qed.

(** An audio of length zero in which [detect_nonsilent] finds sound stops
    [main] of [preprocess_audio.py] whenever silence is to be removed, with
    or without [--verbose]: [remove_silence] divides by the length, [main]
    reports the division by zero and returns 1, and nothing is exported: the
    state is as the [mkdir] of the output directory left it. *)
Theorem empty_audio_stops_the_preprocess_script {Audio Float : Type}
  (lib : Pydub Audio Float) (cwd : Path) (input output : string)
  (steps : option (list string)) (verbose : bool) (os : OS Ext)
  (fs' : gmap Path Kind) (audio : Audio) :
  mkdir_p (files os) (parent (path_of cwd output)) = Some fs' ->
  kind_of (files os) (path_of cwd input) = Some File ->
  from_file lib (path_of cwd input) (outside os) = inl audio ->
  let names := default all_processing_steps steps in
  let heard := if has_step "mono" names && (1 <? audio_channels lib audio)
               then set_channels lib audio 1 else audio in
  has_step "silence" names = true ->
  detect_nonsilent lib heard 500 (-40) <> [] ->
  audio_len lib heard = 0 ->
  let r := preprocess_main lib cwd input output steps verbose os in
  value r = inl 1
  /\ final r = mkOS fs' (outside os)
  /\ files (final r) !! path_of cwd output = files os !! path_of cwd output
  /\ exists before,
       emitted r
       = before
           ++ Print (nl +:+ "✗ Error processing " +:+ path_name input
                       +:+ ": division by zero")
           :: (if verbose then [Traceback] else []).
Proof.
  intros Hm Hkind Hfrom names heard Hsilence Hranges Hlen r.
  set (os1 := mkOS fs' (outside os)).
  set (self := mkPreprocessor cwd input output verbose).
  assert (Hkind1 : kind_of (files os1) (path_of (pre_cwd self) (input_path self))
                   = Some File).
  { cbn [files os1 pre_cwd input_path self].
    destruct (path_of cwd input) as [| c p] eqn:Hp; [discriminate Hkind |].
    cbn [kind_of] in *.
    apply (lookup_weaken (files os)); [exact Hkind |].
    apply (mkdir_p_mono _ _ _ Hm). }
  destruct (process_divides_by_length lib self steps os1 audio Hkind1 Hfrom
              Hsilence Hranges Hlen) as [Hv Hf].
  assert (Hr : r = mkRun (inl 1) os1
                 (emitted (process lib self steps os1)
                    ++ Print (nl +:+ "✗ Error processing " +:+ path_name input
                                +:+ ": division by zero")
                    :: (if verbose then [Traceback] else []))).
  { subst r. unfold preprocess_main. unfold bind at 1. unfold mkdir.
    rewrite Hm. cbn [value final emitted]. cbv zeta. fold os1 self.
    rewrite (try_except_caught _ _ os1 (OtherException "division by zero") _
               (f_equal value (bind_raised _ _ _ _ Hv)) eq_refl).
    rewrite (bind_raised _ _ _ _ Hv). cbn [final emitted]. rewrite Hf.
    destruct verbose; reflexivity. }
  rewrite Hr. cbn [value final emitted files].
  split; [reflexivity |]. split; [reflexivity |].
  split; [apply (mkdir_parent_keeps _ _ _ Hm) |].
  eexists. reflexivity.
Qed.

(** [main] of [preprocess_audio.py] returns 0 only when [export] has
    returned, and nothing changes the state after it: the state that [main]
    leaves is the state that [export] left.  The directory of the output is
    made first, outside the [try]: when it cannot be made the error is not
    caught, nothing is printed and nothing is loaded. *)
Theorem preprocess_script_exports_last {Audio Float : Type}
  (lib : Pydub Audio Float) (cwd : Path) (input output : string)
  (steps : option (list string)) (verbose : bool) (os : OS Ext) :
  let r := preprocess_main lib cwd input output steps verbose os in
  (value r = inl 0 ->
   exists audio os1,
     export_mp3 lib audio (path_of cwd output) os1 = (inl tt, final r))
  /\ (mkdir_p (files os) (parent (path_of cwd output)) = None ->
      (exists msg, value r = inr (OSError msg))
      /\ final r = os /\ emitted r = []).
Proof.
  intros r. split.
  - intros Hv.
    pose proof (preprocess_main_exports lib cwd input output steps verbose
                  os Logic.I) as H.
    cbv zeta in H. fold r in H. rewrite Hv in H. apply H. reflexivity.
  - intros Hm.
    assert (Hr : r = mkRun (inr (OSError
                                   ("File exists: "
                                      +:+ str_path (parent (path_of cwd output)))))
                       os []).
    { subst r. unfold preprocess_main. unfold bind at 1. unfold mkdir.
      rewrite Hm. reflexivity. }
    rewrite Hr. cbn [value final emitted]. eauto.
Qed.

(** With a [pydub] whose [export] leaves the file it was asked for and
    takes none away: when [main] of [preprocess_audio.py] returns 0 the
    processed audio is on disk, and whatever it returns or raises no entry
    that was on disk is taken away. *)
Theorem preprocess_script_writes_its_output {Audio Float : Type}
  (lib : Pydub Audio Float) (cwd : Path) (input output : string)
  (steps : option (list string)) (verbose : bool) (os : OS Ext) :
  export_laws lib ->
  let r := preprocess_main lib cwd input output steps verbose os in
  files os ⊆ files (final r)
  /\ (value r = inl 0 ->
      path_exists (files (final r)) (path_of cwd output) = true).
Proof.
  intros Hexport r. split.
  - pose proof (preprocess_main_keeps_files lib cwd input output steps verbose
                  (files os) Hexport os) as H.
    cbv zeta in H. fold r in H.
    assert (Hpre : on_files (fun fs => files os ⊆ fs) os)
      by (unfold on_files; reflexivity).
    specialize (H Hpre). destruct (value r); exact H.
  - intros Hv.
    pose proof (preprocess_main_writes lib cwd input output steps verbose
                  Hexport os Logic.I) as H.
    cbv zeta in H. fold r in H. rewrite Hv in H. apply H. reflexivity.
Qed.

(** The preprocessing script honours the contract of step 1: when the
    scripts directory has a clean path, [export] keeps its promise and the
    child process of step 1 runs [main] of [preprocess_audio.py] on the
    command line the orchestrator builds, a child that exits with status 0
    has left [processed.mp3] where the orchestrator looks for it, and has
    taken no file away. *)
Theorem preprocess_script_honours_the_contract {Audio Float : Type}
  (lib : Pydub Audio Float) folder v f py :
  let self := new_orchestrator folder v f py in
  Forall (fun c => clean c = true) SCRIPT_DIR ->
  export_laws lib ->
  runs_script (command_1 self) (negb (verbose self))
    (preprocess_main lib SCRIPT_DIR (str_path (raw_audio self))
       (str_path (processed_audio self)) None (verbose self)) ->
  produces self (command_1 self) (processed_audio self).
Proof.
  intros self Hdir Hexport Hrun os cp os' Hsub Hz.
  destruct (orchestrator_paths_clean folder v f py Hdir) as (_ & Hpro & _).
  fold self in Hpro.
  pose proof (path_of_str_path (processed_audio self) SCRIPT_DIR Hpro) as Hback.
  destruct (Hrun os cp os' Hsub Hz) as [Hv Hf].
  pose proof (preprocess_main_keeps_files lib SCRIPT_DIR
                (str_path (raw_audio self)) (str_path (processed_audio self))
                None (verbose self) (files os) Hexport os) as Hkeep.
  pose proof (preprocess_main_writes lib SCRIPT_DIR
                (str_path (raw_audio self)) (str_path (processed_audio self))
                None (verbose self) Hexport os Logic.I) as Hwrite.
  cbv zeta in Hkeep, Hwrite. rewrite Hv, Hf in Hkeep, Hwrite.
  unfold on_files in Hkeep, Hwrite. rewrite Hback in Hwrite.
  split.
  - apply Hkeep. reflexivity.
  - apply Hwrite. reflexivity.
Qed.

End Orchestrator.

Arguments audio_len {Ext Audio Float} _ _.
Arguments detect_nonsilent {Ext Audio Float} _ _ _ _.
Arguments export_mp3 {Ext Audio Float} _ _ _ _.

(** * The properties on a concrete project *)

(** The orchestrator of folder 7 of the project of [Demo], without
    [--verbose] and without [--force]. *)
Local Notation "'self7'" :=
  (new_orchestrator Demo.scripts "7" false false Demo.interpreter).

(** Step 2 over a transcript whose processed audio is missing: the step
    fails, although its output is there and [--force] is off. *)
Lemma skip_after_input_check_witness :
  let os := mkOS Demo.orphan_transcript tt in
  let r := step_method Demo.scripts Demo.quiet 2 self7 os in
  stage_outcome r
  = (if path_exists (files os) (input_artifact self7 2)
     then Some Skipped else Some Failed)
  /\ spawned (emitted r) = []
  /\ final r = os.
Proof.
  apply (skip_after_input_check Demo.scripts Demo.quiet self7
           (mkOS Demo.orphan_transcript tt) 2).
  - left. reflexivity.
  - vm_compute. reflexivity.
  - reflexivity.
Defined.

(** The output of step 2 exists and [--force] is off, its input does not
    exist: the step is not skipped, it fails. *)
Lemma skip_needs_the_input :
  let os := mkOS Demo.orphan_transcript tt in
  let r := step_method Demo.scripts Demo.quiet 2 self7 os in
  path_exists (files os) (output_artifact self7 2) = true
  /\ force self7 = false
  /\ path_exists (files os) (input_artifact self7 2) = false
  /\ stage_outcome r = Some Failed
  /\ stage_outcome r <> Some Skipped.
Proof.
  vm_compute. repeat split; discriminate.
Qed.

(** Step 1 on the fresh project starts its command. *)
Lemma outcome_is_exit_status_witness :
  let os := mkOS Demo.fresh tt in
  let r := step_method Demo.scripts Demo.writer 1 self7 os in
  let out := Demo.writer (command_of self7 1) Demo.scripts
               (negb (verbose self7)) os in
  spawned (emitted r) = [command_of self7 1]
  /\ final r = snd out
  /\ value r = match fst out with
               | inl cp => inl (returncode cp =? 0)
               | inr e => inr e
               end
  /\ stage_outcome r = match fst out with
                       | inl cp =>
                           Some (if returncode cp =? 0
                                 then Succeeded else Failed)
                       | inr _ => None
                       end.
Proof.
  apply (outcome_is_exit_status Demo.scripts Demo.writer self7
           (mkOS Demo.fresh tt) 1).
  - left. reflexivity.
  - vm_compute. discriminate.
Defined.

(** A child process that exits with status 0 without writing its output:
    step 1 has succeeded, and [processed.mp3] is not there. *)
Lemma success_without_output :
  let os := mkOS Demo.fresh tt in
  let r := step_method Demo.scripts Demo.quiet 1 self7 os in
  spawned (emitted r) = [command_of self7 1]
  /\ value r = inl true
  /\ stage_outcome r = Some Succeeded
  /\ path_exists (files (final r)) (output_artifact self7 1) = false.
Proof.
  vm_compute. repeat split; reflexivity.
Qed.

(** With a child process that exits with status 1, the run of [main] on
    the fresh project stops at step 1: [run_workflow], started on the files
    that [__init__] left, records [False] for step 1. *)
Lemma fail_fast_witness :
  let os0 := mkOS Demo.fresh tt in
  let os := final (init Demo.scripts Demo.interpreter "7" false false os0) in
  let r := run_workflow Demo.scripts Demo.broken self7 None os in
  value r = inl false
  /\ stages_entered (emitted r) = [1]
  /\ stages_invoked (emitted r) = [1]
  /\ (exists ev, emitted r = ev ++ [stopped 1])
  /\ value (main Demo.scripts Demo.interpreter Demo.broken
              (mkArgs "7" None false false) os0) = inl 1
  /\ exit_code (main Demo.scripts Demo.interpreter Demo.broken
                  (mkArgs "7" None false false) os0) = 1.
Proof.
  intros os0 os r.
  assert (Hrec : value (run_workflow_results Demo.scripts Demo.broken self7
                          None os) = inl (<[1 := false]> ∅, false))
    by (vm_compute; reflexivity).
  assert (Hone : (<[1 := false]> ∅ : gmap Z bool) !! 1 = Some false)
    by (vm_compute; reflexivity).
  destruct (fail_fast Demo.scripts Demo.interpreter Demo.broken self7 None os
              (<[1 := false]> ∅) false 1 Hrec Hone)
    as (_ & Hv & _ & _ & Hev & Hmain).
  assert (Hinit : value (init Demo.scripts Demo.interpreter "7" false false
                           os0) = inl self7)
    by (vm_compute; reflexivity).
  destruct (Hmain (mkArgs "7" None false false) os0 eq_refl Hinit eq_refl)
    as [Hm He].
  split; [exact Hv |].
  split; [vm_compute; reflexivity |].
  split; [vm_compute; reflexivity |].
  split; [exact Hev |]. split; [exact Hm | exact He].
Defined.

(** Step 3 alone on the fresh project. *)
Lemma step_3_alone_needs_transcript_witness :
  path_exists Demo.fresh (transcript self7) = false
  /\ value (run_workflow Demo.scripts Demo.writer self7 (Some [TInt 3])
              (mkOS Demo.fresh tt)) = inl false.
Proof.
  assert (H : path_exists (files (mkOS Demo.fresh tt)) (transcript self7)
              = false) by (vm_compute; reflexivity).
  split; [exact H |].
  apply (step_3_alone_needs_transcript Demo.scripts Demo.interpreter
           Demo.writer self7 (mkOS Demo.fresh tt) H).
Defined.

(** Folder 8 does not exist in the fresh project. *)
Lemma missing_input_stops_main_witness :
  let r := main Demo.scripts Demo.interpreter Demo.writer
             (mkArgs "8" None false false) (mkOS Demo.fresh tt) in
  value r = inl 1 /\ exit_code r = 1 /\ final r = mkOS Demo.fresh tt.
Proof.
  destruct (missing_input_stops_main Demo.scripts Demo.interpreter
              Demo.writer (mkArgs "8" None false false) (mkOS Demo.fresh tt))
    as (Hv & He & Hf & _).
  - left. vm_compute. reflexivity.
  - repeat split; assumption.
Defined.

(** The child process of [Demo.writer] honours the contract of a stage
    script. *)
Lemma touch_grows (p : Path) (fs : gmap Path Kind) : fs ⊆ Demo.touch p fs.
Proof.
  unfold Demo.touch.
  match goal with
  | |- context [match ?t with _ => _ end] => destruct t eqn:Hp
  end; [reflexivity |].
  apply insert_subseteq. exact Hp.
Qed.

Lemma touch_exists (c : string) (p : Path) (fs : gmap Path Kind) :
  path_exists (Demo.touch (c :: p) fs) (c :: p) = true.
Proof.
  unfold path_exists, kind_of, Demo.touch. cbv beta iota.
  match goal with
  | |- context [match ?t with Some _ => fs | None => _ end] =>
      destruct t as [kd |] eqn:Hp
  end;
    match goal with
    | |- match ?t' with _ => _ end = true =>
        first [ assert (H' : t' = Some kd) by exact Hp
              | assert (H' : t' = Some File) by apply lookup_insert_eq ];
        rewrite H'
    end; reflexivity.
Qed.

Lemma writer_honours_contract :
  honours_contract Demo.scripts Demo.writer self7.
Proof.
  unfold honours_contract, produces.
  split; [| split]; intros os cp os' Hrun _; injection Hrun as _ <-;
    cbn [files]; (split; [apply touch_grows |]);
    match goal with
    | |- path_exists (Demo.touch ?q _) ?p = true =>
        let q' := eval vm_compute in q in
        let p' := eval vm_compute in p in
        change q with q'; change p with p'
    end;
    apply touch_exists.
Qed.

(** A full run on the fresh project, then the same run again. *)
Lemma rerun_is_idempotent_witness :
  let args := mkArgs "7" None false false in
  let first := main Demo.scripts Demo.interpreter Demo.writer args
                 (mkOS Demo.fresh tt) in
  let second := main Demo.scripts Demo.interpreter Demo.writer args
                  (final first) in
  value first = inl 0
  /\ value second = inl 0
  /\ spawned (emitted second) = []
  /\ final second = final first.
Proof.
  intros args first second.
  assert (Hpy : python_for Demo.scripts Demo.interpreter
                  (files (mkOS Demo.fresh tt)) = Demo.interpreter)
    by (vm_compute; reflexivity).
  assert (Hc : honours_contract Demo.scripts Demo.writer
                 (new_orchestrator Demo.scripts (arg_folder args)
                    (arg_verbose args) (arg_force args)
                    (python_for Demo.scripts Demo.interpreter
                       (files (mkOS Demo.fresh tt)))))
    by (rewrite Hpy; exact writer_honours_contract).
  assert (Hfirst : value first = inl 0) by (vm_compute; reflexivity).
  pose proof (rerun_is_idempotent Demo.scripts Demo.interpreter Demo.writer
                args (mkOS Demo.fresh tt) eq_refl Hc Hfirst) as Hrerun.
  cbv zeta in Hrerun. fold first in Hrerun. fold second in Hrerun.
  destruct Hrerun as (Hv & _ & Hs & Hf & _).
  split; [exact Hfirst |]. split; [exact Hv |]. split; [exact Hs | exact Hf].
Defined.

(** A first run of step 1 whose child process exits with status 0 and
    writes nothing returns 0; the same run again, without [--force], starts
    the command again: step 1 is not skipped. *)
Lemma rerun_after_silent_success :
  let args := mkArgs "7" (Some [1]) false false in
  let first := main Demo.scripts Demo.interpreter Demo.quiet args
                 (mkOS Demo.fresh tt) in
  let second := main Demo.scripts Demo.interpreter Demo.quiet args
                  (final first) in
  arg_force args = false
  /\ value first = inl 0
  /\ value second = inl 0
  /\ spawned (emitted second) = [command_1 self7]
  /\ spawned (emitted second) <> []
  /\ stages_invoked (emitted second) = [1]
  /\ stage_outcome (step_method Demo.scripts Demo.quiet 1 self7 (final first))
     = Some Succeeded
  /\ stage_outcome (step_method Demo.scripts Demo.quiet 1 self7 (final first))
     <> Some Skipped.
Proof.
  vm_compute. repeat split; try reflexivity; discriminate.
Qed.

(** The manifest of a full run on the fresh project. *)
Lemma manifest_reports_artifacts_witness :
  let r := run_workflow Demo.scripts Demo.writer self7 None
             (mkOS Demo.fresh tt) in
  value r = inl true
  /\ manifest self7 (files (final r))
     = [manifest_line "Processed audio" (processed_audio self7);
        manifest_line "Transcript" (transcript self7);
        manifest_line "Blog post" (blog_post self7)].
Proof.
  assert (Hv : value (run_workflow Demo.scripts Demo.writer self7 None
                        (mkOS Demo.fresh tt)) = inl true)
    by (vm_compute; reflexivity).
  split; [exact Hv |].
  destruct (manifest_reports_artifacts Demo.scripts Demo.writer self7 None
              (mkOS Demo.fresh tt) Hv) as (_ & _ & Hall).
  apply (Hall writer_honours_contract). vm_compute. reflexivity.
Defined.

(** A full run in which the blog-post script exits with status 0 without
    writing its file returns [True]; the blog post is not on disk and the
    manifest has two lines. *)
Lemma full_run_without_blog_post :
  let r := run_workflow Demo.scripts Demo.forgetful self7 None
             (mkOS Demo.fresh tt) in
  requested (effective_steps None) = [1; 2; 3]
  /\ value r = inl true
  /\ stages_entered (emitted r) = [1; 2; 3]
  /\ path_exists (files (final r)) (blog_post self7) = false
  /\ manifest self7 (files (final r))
     = [manifest_line "Processed audio" (processed_audio self7);
        manifest_line "Transcript" (transcript self7)].
Proof.
  vm_compute. repeat split; reflexivity.
Qed.

(** The list [3, 1, 2] selects the three steps; with a child process that
    exits with status 1 the run enters step 1 only. *)
Lemma failing_step_ends_the_run :
  let steps := Some [TInt 3; TInt 1; TInt 2] in
  let r := run_workflow Demo.scripts Demo.broken self7 steps
             (mkOS Demo.fresh tt) in
  requested (effective_steps steps) = [1; 2; 3]
  /\ value r = inl false
  /\ stages_entered (emitted r) = [1]
  /\ stages_entered (emitted r) <> requested (effective_steps steps)
  /\ ~ In 2 (stages_entered (emitted r))
  /\ ~ In 3 (stages_entered (emitted r)).
Proof.
  vm_compute. repeat split; try reflexivity; try discriminate;
    intros [H | H]; try discriminate H; destruct H.
Qed.

(** ** The further properties on the same project *)

(** Step 1 of a forced run over an existing [processed.mp3]. *)
Lemma force_never_skips_witness :
  let self := new_orchestrator Demo.scripts "7" false true Demo.interpreter in
  let r := step_method Demo.scripts Demo.writer 1 self
             (mkOS Demo.transcribed tt) in
  stage_outcome r <> Some Skipped
  /\ spawned (emitted r) = [command_of self 1].
Proof.
  apply (force_never_skips Demo.scripts Demo.writer
           (new_orchestrator Demo.scripts "7" false true Demo.interpreter)
           (mkOS Demo.transcribed tt) 1).
  - left. reflexivity.
  - reflexivity.
Defined.

(** [--steps 2 3] on the fresh project. *)
Lemma first_step_needs_its_input_witness :
  let r := run_workflow Demo.scripts Demo.writer self7
             (Some [TInt 2; TInt 3]) (mkOS Demo.fresh tt) in
  value r = inl false
  /\ final r = mkOS Demo.fresh tt
  /\ spawned (emitted r) = []
  /\ stages_entered (emitted r) = [2]
  /\ exists ev, emitted r = ev ++ [stopped 2].
Proof.
  apply (first_step_needs_its_input Demo.scripts Demo.writer self7
           (Some [TInt 2; TInt 3]) (mkOS Demo.fresh tt) 2 [3]).
  - vm_compute. reflexivity.
  - left. reflexivity.
  - vm_compute. reflexivity.
Defined.

(** A full run over the project that has its transcript. *)
Lemma run_resumes_at_first_incomplete_step_witness :
  let r := run_workflow Demo.scripts Demo.writer self7 None
             (mkOS Demo.transcribed tt) in
  exists rest_spawned rest_entered,
    spawned (emitted r) = command_of self7 3 :: rest_spawned
    /\ stages_entered (emitted r) = [1; 2] ++ 3 :: rest_entered
    /\ (([] : list Z) = [] ->
        rest_spawned = [] /\ rest_entered = []
        /\ final r = snd (Demo.writer (command_of self7 3) Demo.scripts
                            (negb (verbose self7)) (mkOS Demo.transcribed tt))).
Proof.
  apply (run_resumes_at_first_incomplete_step Demo.scripts Demo.writer self7
           None (mkOS Demo.transcribed tt) [1; 2] 3 []).
  - vm_compute. reflexivity.
  - reflexivity.
  - repeat constructor; vm_compute; reflexivity.
  - vm_compute. reflexivity.
Defined.

(** [--steps 1 2] over the project that has its transcript: both steps are
    skipped. *)
Lemma main_alone_only_makes_the_output_directory_witness :
  let r := main Demo.scripts Demo.interpreter Demo.writer
             (mkArgs "7" (Some [1; 2]) false false)
             (mkOS Demo.transcribed tt) in
  spawned (emitted r) = []
  /\ outside (final r) = tt
  /\ Demo.transcribed ⊆ files (final r).
Proof.
  assert (Hnil : spawned (emitted (main Demo.scripts Demo.interpreter
                                     Demo.writer
                                     (mkArgs "7" (Some [1; 2]) false false)
                                     (mkOS Demo.transcribed tt))) = [])
    by (vm_compute; reflexivity).
  split; [exact Hnil |].
  destruct (main_alone_only_makes_the_output_directory Demo.scripts
              Demo.interpreter Demo.writer
              (mkArgs "7" (Some [1; 2]) false false)
              (mkOS Demo.transcribed tt) Hnil) as (Ho & Hsub & _).
  split; [exact Ho | exact Hsub].
Defined.

(** [subprocess.run] raises in step 1 of a full run on the fresh project. *)
Lemma child_error_reaches_main_witness :
  let args := mkArgs "7" None false false in
  let r := main Demo.scripts Demo.interpreter Demo.crash args
             (mkOS Demo.fresh tt) in
  value r = inl 1
  /\ stages_entered (emitted r) = [1]
  /\ spawned (emitted r) = [command_of self7 1].
Proof.
  intros args.
  pose (fs' := files (final (init Demo.scripts Demo.interpreter "7" false
                               false (mkOS Demo.fresh tt)))).
  destruct (child_error_reaches_main Demo.scripts Demo.interpreter Demo.crash
              args (mkOS Demo.fresh tt) fs' 1 [2; 3]
              (OtherException "No such file or directory") (mkOS fs' tt))
    as (Hv & _ & He & Hs & _).
  - vm_compute. reflexivity.
  - vm_compute. reflexivity.
  - vm_compute. reflexivity.
  - vm_compute. reflexivity.
  - vm_compute. reflexivity.
  - split; [exact Hv |]. split; [exact He | exact Hs].
Defined.

(** [__init__] on the fresh project. *)
Lemma init_makes_output_dir_witness :
  let i := init Demo.scripts Demo.interpreter "7" false false
             (mkOS Demo.fresh tt) in
  value i = inl self7
  /\ kind_of (files (final i)) (output_dir self7) = Some Dir
  /\ Demo.fresh ⊆ files (final i)
  /\ final (init Demo.scripts Demo.interpreter "7" false false (final i))
     = final i.
Proof.
  intros i.
  assert (Hv : value i = inl self7) by (vm_compute; reflexivity).
  destruct (init_makes_output_dir Demo.scripts Demo.interpreter "7" false
              false (mkOS Demo.fresh tt) self7 (final i) Hv eq_refl)
    as (Hd & _ & _ & Hsub & _ & _ & Hagain & _).
  split; [exact Hv |]. split; [exact Hd |]. split; [exact Hsub | exact Hagain].
Defined.

(** A regular file named [output] in the project. *)
Lemma file_in_place_of_output_dir_witness :
  let r := main Demo.scripts Demo.interpreter Demo.writer
             (mkArgs "7" None false false) (mkOS Demo.blocked tt) in
  (exists msg, value r = inr (OSError msg))
  /\ exit_code r = 1
  /\ emitted r = []
  /\ final r = mkOS Demo.blocked tt.
Proof.
  apply (file_in_place_of_output_dir Demo.scripts Demo.interpreter Demo.writer
           (mkArgs "7" None false false) (mkOS Demo.blocked tt)
           (Demo.root ++ ["output"])).
  - vm_compute. reflexivity.
  - vm_compute. reflexivity.
  - vm_compute. auto.
  - vm_compute. reflexivity.
Defined.

(** The lists [3, 1, 2, 1] and [1, 2, 3] give the same run of the fresh
    project. *)
Lemma steps_list_is_read_as_a_set_witness :
  let r := run_workflow Demo.scripts Demo.writer self7
             (Some [TInt 3; TInt 1; TInt 2; TInt 1]) (mkOS Demo.fresh tt) in
  let r' := run_workflow Demo.scripts Demo.writer self7
              (Some [TInt 1; TInt 2; TInt 3]) (mkOS Demo.fresh tt) in
  value r = value r'
  /\ final r = final r'
  /\ stages_entered (emitted r) = stages_entered (emitted r')
  /\ spawned (emitted r) = spawned (emitted r').
Proof.
  destruct (steps_list_is_read_as_a_set Demo.scripts Demo.writer self7
              [TInt 3; TInt 1; TInt 2; TInt 1] [TInt 1; TInt 2; TInt 3]
              (mkOS Demo.fresh tt)) as (Hv & Hf & He & Hs & _).
  - intros x. cbn [In]. tauto.
  - exact (conj Hv (conj Hf (conj He Hs))).
Defined.

(** ** The Gemini scripts on the same project *)

(** A library that answers every request, with a key in the environment. *)
Local Notation "'lib7'" :=
  (@mkLibrary unit
     (fun _ _ => Some "secret")
     (fun _ x => (inl tt, x))
     (fun _ x => (inl tt, x))
     (fun _ x => (inl (mkResponse (inl "A post.")), x))
     (fun _ _ => inl "words")
     (fun _ _ => inl "bytes")
     (fun _ _ => 1048576)
     (fun _ => Some "audio/mpeg")
     (fun s => s)
     (fun s => Z.of_nat (String.length s))
     (fun _ => "1.00")
     (fun _ _ _ => None)).

(** The same library without a key in the environment. *)
Local Notation "'lib_without_key'" :=
  (@mkLibrary unit
     (fun _ _ => None)
     (fun _ x => (inl tt, x))
     (fun _ x => (inl tt, x))
     (fun _ x => (inl (mkResponse (inl "A post.")), x))
     (fun _ _ => inl "words")
     (fun _ _ => inl "bytes")
     (fun _ _ => 1048576)
     (fun _ => Some "audio/mpeg")
     (fun s => s)
     (fun s => Z.of_nat (String.length s))
     (fun _ => "1.00")
     (fun _ _ _ => None)).

(** The same library when every request to the model raises. *)
Local Notation "'lib_offline'" :=
  (@mkLibrary unit
     (fun _ _ => Some "secret")
     (fun _ x => (inl tt, x))
     (fun _ x => (inl tt, x))
     (fun _ x => (inr (OtherException "503 Service Unavailable"), x))
     (fun _ _ => inl "words")
     (fun _ _ => inl "bytes")
     (fun _ _ => 1048576)
     (fun _ => Some "audio/mpeg")
     (fun s => s)
     (fun s => Z.of_nat (String.length s))
     (fun _ => "1.00")
     (fun _ _ _ => None)).

(** The blog script on the project that has its transcript. *)
Lemma blog_script_writes_its_output_witness :
  let r := blog_main lib7 Demo.scripts (str_path (transcript self7))
             (str_path (blog_post self7)) false (mkOS Demo.transcribed tt) in
  value r = inl 0
  /\ kind_of (files (final r)) (blog_post self7) = Some File.
Proof.
  assert (Hv : value (blog_main lib7 Demo.scripts
                        (str_path (transcript self7))
                        (str_path (blog_post self7)) false
                        (mkOS Demo.transcribed tt)) = inl 0)
    by (vm_compute; reflexivity).
  split; [exact Hv |].
  destruct (blog_script_writes_its_output lib7 Demo.scripts
              (str_path (transcript self7)) (str_path (blog_post self7))
              false (mkOS Demo.transcribed tt)) as [_ Hout].
  apply (Hout Hv).
Defined.

(** The blog script on the project that has its transcript, when the
    request to the model raises. *)
Lemma blog_script_without_answer_witness :
  let r := blog_main lib_offline Demo.scripts (str_path (transcript self7))
             (str_path (blog_post self7)) false (mkOS Demo.transcribed tt) in
  value r = inl 1
  /\ files (final r) = Demo.transcribed
  /\ path_exists (files (final r)) (blog_post self7) = false.
Proof.
  split; [vm_compute; reflexivity |].
  destruct (blog_script_without_answer lib_offline Demo.scripts
              (str_path (transcript self7)) (str_path (blog_post self7))
              false (mkOS Demo.transcribed tt)) as (_ & Hf & _).
  - intros parts x response x' H. discriminate H.
  - split; [exact Hf |]. rewrite Hf. vm_compute. reflexivity.
Defined.

Lemma blog_script_needs_a_key_witness :
  blog_main lib_without_key Demo.scripts (str_path (transcript self7))
    (str_path (blog_post self7)) false (mkOS Demo.transcribed tt)
  = mkRun (inl 1) (mkOS Demo.transcribed tt)
      [Print "Error: GEMINI_API_KEY not found in environment or .env file"].
Proof.
  apply (blog_script_needs_a_key lib_without_key Demo.scripts
           (str_path (transcript self7)) (str_path (blog_post self7)) false
           (mkOS Demo.transcribed tt)).
  reflexivity.
Defined.

Lemma blog_script_needs_the_transcript_witness :
  value (blog_main lib7 Demo.scripts (str_path (transcript self7))
           (str_path (blog_post self7)) true (mkOS Demo.fresh tt)) = inl 1
  /\ final (blog_main lib7 Demo.scripts (str_path (transcript self7))
              (str_path (blog_post self7)) true (mkOS Demo.fresh tt))
     = mkOS Demo.fresh tt.
Proof.
  rewrite (blog_script_needs_the_transcript lib7 Demo.scripts
             (str_path (transcript self7)) (str_path (blog_post self7)) true
             (mkOS Demo.fresh tt) "secret" tt tt).
  - split; reflexivity.
  - reflexivity.
  - discriminate.
  - reflexivity.
  - reflexivity.
  - vm_compute. reflexivity.
Defined.

(** The transcription script on the project that has its processed audio. *)
Lemma transcribe_script_writes_its_output_witness :
  let r := transcribe_main lib7 Demo.scripts
             (str_path (processed_audio self7)) (str_path (transcript self7))
             false (mkOS Demo.transcribed tt) in
  value r = inl 0
  /\ kind_of (files (final r)) (transcript self7) = Some File.
Proof.
  assert (Hv : value (transcribe_main lib7 Demo.scripts
                        (str_path (processed_audio self7))
                        (str_path (transcript self7)) false
                        (mkOS Demo.transcribed tt)) = inl 0)
    by (vm_compute; reflexivity).
  split; [exact Hv |].
  destruct (transcribe_script_writes_its_output lib7 Demo.scripts
              (str_path (processed_audio self7))
              (str_path (transcript self7))
              false (mkOS Demo.transcribed tt)) as [_ Hout].
  apply (Hout Hv).
Defined.

(** The transcription script on the project that has its processed audio,
    and a transcript already, when the request to the model raises. *)
Lemma transcribe_script_without_answer_witness :
  let r := transcribe_main lib_offline Demo.scripts
             (str_path (processed_audio self7)) (str_path (transcript self7))
             false (mkOS Demo.transcribed tt) in
  value r = inl 1
  /\ files (final r) = Demo.transcribed
  /\ kind_of (files (final r)) (transcript self7) = Some File.
Proof.
  split; [vm_compute; reflexivity |].
  destruct (transcribe_script_without_answer lib_offline Demo.scripts
              (str_path (processed_audio self7))
              (str_path (transcript self7))
              false (mkOS Demo.transcribed tt)) as (_ & Hf & _).
  - intros parts x response x' H. discriminate H.
  - split; [exact Hf |]. rewrite Hf. vm_compute. reflexivity.
Defined.

Lemma transcribe_script_needs_the_audio_witness :
  exists reason,
    transcribe_main lib7 Demo.scripts (str_path (processed_audio self7))
      (str_path (transcript self7)) false (mkOS Demo.fresh tt)
    = mkRun (inl 1) (mkOS Demo.fresh tt)
        (said false ["Gemini transcriber initialized (gemini-2.5-flash)";
                     rule 60; "Starting transcription with light redaction";
                     rule 60]
           ++ [Print (nl +:+ "✗ Error transcribing: " +:+ reason)]
           ++ []).
Proof.
  apply (transcribe_script_needs_the_audio lib7 Demo.scripts
           (str_path (processed_audio self7)) (str_path (transcript self7))
           false (mkOS Demo.fresh tt) "secret" tt tt).
  - reflexivity.
  - discriminate.
  - reflexivity.
  - reflexivity.
  - vm_compute. reflexivity.
Defined.

(** Child processes that run the two Gemini scripts on the command line of
    folder 7 and exit with what [main] returns. *)
Local Notation "'python7'" :=
  (fun (command : list string) (_ : Path) (_ : bool) (os : OS unit) =>
     let r :=
       if decide (command = command_3 self7) then
         blog_main lib7 Demo.scripts (str_path (transcript self7))
           (str_path (blog_post self7)) false os
       else if decide (command = command_2 self7) then
         transcribe_main lib7 Demo.scripts (str_path (processed_audio self7))
           (str_path (transcript self7)) false os
       else mkRun (inl 1) os [] in
     (inl (mkCompleted (match value r with inl c => c | inr _ => 1 end) None)
        : CompletedProcess + exn,
      final r)).

Lemma gemini_scripts_honour_the_contract_witness :
  produces Demo.scripts python7 self7 (command_2 self7) (transcript self7)
  /\ produces Demo.scripts python7 self7 (command_3 self7) (blog_post self7).
Proof.
  apply (gemini_scripts_honour_the_contract Demo.scripts python7 lib7
           "7" false false Demo.interpreter).
  - vm_compute. repeat constructor.
  - intros os cp os' Hrun Hz. cbv beta zeta in Hrun.
    rewrite decide_False in Hrun by (vm_compute; discriminate).
    rewrite decide_True in Hrun by reflexivity.
    set (r := transcribe_main lib7 Demo.scripts
                (str_path (processed_audio self7))
                (str_path (transcript self7)) false os) in Hrun.
    change (value r = inl 0 /\ final r = os').
    injection Hrun as Hcp Hos. subst cp.
    change (match value r with inl c => c | inr _ => 1 end = 0) in Hz.
    split; [| exact Hos].
    destruct (value r) as [c | e]; [rewrite Hz; reflexivity | discriminate].
  - intros os cp os' Hrun Hz. cbv beta zeta in Hrun.
    rewrite decide_True in Hrun by reflexivity.
    set (r := blog_main lib7 Demo.scripts (str_path (transcript self7))
                (str_path (blog_post self7)) false os) in Hrun.
    change (value r = inl 0 /\ final r = os').
    injection Hrun as Hcp Hos. subst cp.
    change (match value r with inl c => c | inr _ => 1 end = 0) in Hz.
    split; [| exact Hos].
    destruct (value r) as [c | e]; [rewrite Hz; reflexivity | discriminate].
Defined.

(** ** The preprocessing script on the same project *)

(** Audio as a list of milliseconds.  Every file holds two seconds of audio
    with sound from 0 to 700 ms and from 1250 ms to the end; [export]
    writes its file. *)
Local Notation "'pydub7'" :=
  (@mkPydub unit (list bool) Z
     (fun _ _ => inl (repeat true 2000))
     (fun a => Z.of_nat (length a))
     (fun _ => 2)
     (fun _ => 44100)
     (fun a _ => a)
     (fun a _ => a)
     (fun _ _ _ => [(0, 700); (1250, 2000)])
     []
     (fun a start stop =>
        firstn (Z.to_nat (stop - start)) (skipn (Z.to_nat start) a))
     (fun a b => a ++ b)
     (fun a x => (inl a, x))
     (fun a => a)
     (fun _ => -20)
     (fun a _ => a)
     (fun a => a)
     (fun _ p os => (inl tt, mkOS (Demo.touch p (files os)) (outside os)))
     (fun n => n)
     Z.sub
     (fun a b => a * 100 / b)
     pretty
     pretty).

Lemma pydub7_length_laws : length_laws pydub7.
Proof.
  unfold length_laws. cbn. split; [reflexivity |]. split.
  - intros a b. rewrite length_app. lia.
  - intros a start stop Hs He.
    rewrite length_take, length_drop. lia.
Qed.

Lemma touch_makes (p : Path) (fs : gmap Path Kind) :
  path_exists (Demo.touch p fs) p = true.
Proof. destruct p as [| c p]; [reflexivity | apply touch_exists]. Qed.

Lemma pydub7_export_laws : export_laws pydub7.
Proof.
  intros audio p os res os' [= <- <-]. cbn [files].
  split; [apply touch_grows | intros _; apply touch_makes].
Qed.

(** Two ranges of sound 550 ms apart, widened by 300 ms each, overlap by
    50 ms: the result is 50 ms longer than the audio. *)
Lemma remove_silence_length_witness :
  let audio := repeat true 2000 in
  let self := mkPreprocessor Demo.scripts "raw.mp3" "processed.mp3" false in
  let r := remove_silence pydub7 self audio (-40) 500 300 (mkOS Demo.fresh tt) in
  audio_len pydub7 audio = 2000
  /\ forall output, value r = inl output -> audio_len pydub7 output = 2050.
Proof.
  intros audio self r. split; [reflexivity |].
  destruct (remove_silence_length pydub7 self audio (-40) 500 300
              (mkOS Demo.fresh tt)) as (_ & _ & H).
  destruct H as [_ Hlen]; [discriminate | discriminate |].
  intros output Hout.
  rewrite (Hlen pydub7_length_laws ltac:(lia)
             ltac:(repeat constructor; cbn; lia) output Hout).
  reflexivity.
Defined.

(** A [pydub] that loads an audio of length zero from every file, and
    finds sound in it. *)
Local Notation "'pydub_empty'" :=
  (@mkPydub unit (list bool) Z
     (fun _ _ => inl [])
     (fun a => Z.of_nat (length a))
     (fun _ => 1)
     (fun _ => 44100)
     (fun a _ => a)
     (fun a _ => a)
     (fun _ _ _ => [(0, 0)])
     []
     (fun a start stop =>
        firstn (Z.to_nat (stop - start)) (skipn (Z.to_nat start) a))
     (fun a b => a ++ b)
     (fun a x => (inl a, x))
     (fun a => a)
     (fun _ => -20)
     (fun a _ => a)
     (fun a => a)
     (fun _ p os => (inl tt, mkOS (Demo.touch p (files os)) (outside os)))
     (fun n => n)
     Z.sub
     (fun a b => a * 100 / b)
     pretty
     pretty).

(** Step 1's script on the fresh project, with that [pydub]: it returns 1
    and there is no processed audio. *)
Lemma empty_audio_stops_the_preprocess_script_witness :
  let r := preprocess_main pydub_empty Demo.scripts
             (str_path (raw_audio self7)) (str_path (processed_audio self7))
             None true (mkOS Demo.fresh tt) in
  value r = inl 1
  /\ files (final r) !! path_of Demo.scripts (str_path (processed_audio self7))
     = None.
Proof.
  intros r.
  assert (Hmade : match mkdir_p (files (mkOS Demo.fresh tt))
                          (parent (path_of Demo.scripts
                                     (str_path (processed_audio self7))))
                  with Some _ => true | None => false end = true)
    by (vm_compute; reflexivity).
  destruct (mkdir_p (files (mkOS Demo.fresh tt))
              (parent (path_of Demo.scripts
                         (str_path (processed_audio self7)))))
    as [fs' |] eqn:Hm; [| discriminate Hmade].
  assert (Hkind : kind_of (files (mkOS Demo.fresh tt))
                    (path_of Demo.scripts (str_path (raw_audio self7)))
                  = Some File)
    by (vm_compute; reflexivity).
  assert (Hnone : files (mkOS Demo.fresh tt)
                    !! path_of Demo.scripts (str_path (processed_audio self7))
                  = None)
    by (vm_compute; reflexivity).
  destruct (empty_audio_stops_the_preprocess_script pydub_empty Demo.scripts
              (str_path (raw_audio self7)) (str_path (processed_audio self7))
              None true (mkOS Demo.fresh tt) fs' [] Hm Hkind eq_refl eq_refl
              ltac:(discriminate) eq_refl)
    as (Hv & _ & Hkeep & _).
  split; [exact Hv |]. fold r in Hkeep. rewrite Hkeep. exact Hnone.
Defined.

(** Step 1's script on the fresh project. *)
Lemma preprocess_script_writes_its_output_witness :
  let r := preprocess_main pydub7 Demo.scripts (str_path (raw_audio self7))
             (str_path (processed_audio self7)) None false
             (mkOS Demo.fresh tt) in
  value r = inl 0
  /\ Demo.fresh ⊆ files (final r)
  /\ path_exists (files (final r)) (processed_audio self7) = true.
Proof.
  assert (Hv : value (preprocess_main pydub7 Demo.scripts
                        (str_path (raw_audio self7))
                        (str_path (processed_audio self7)) None false
                        (mkOS Demo.fresh tt)) = inl 0)
    by (vm_compute; reflexivity).
  split; [exact Hv |].
  destruct (preprocess_script_writes_its_output pydub7 Demo.scripts
              (str_path (raw_audio self7)) (str_path (processed_audio self7))
              None false (mkOS Demo.fresh tt) pydub7_export_laws)
    as [Hgrow Hout].
  split; [exact Hgrow | apply (Hout Hv)].
Defined.

Lemma preprocess_script_exports_last_witness :
  let r := preprocess_main pydub7 Demo.scripts (str_path (raw_audio self7))
             (str_path (processed_audio self7)) None false
             (mkOS Demo.fresh tt) in
  exists audio os1,
    export_mp3 pydub7 audio
      (path_of Demo.scripts (str_path (processed_audio self7))) os1
    = (inl tt, final r).
Proof.
  apply (preprocess_script_exports_last pydub7 Demo.scripts
           (str_path (raw_audio self7)) (str_path (processed_audio self7))
           None false (mkOS Demo.fresh tt)).
  vm_compute. reflexivity.
Defined.

(** A child process that runs the preprocessing script on the command line
    of folder 7 and exits with what [main] returns. *)
Local Notation "'ffmpeg7'" :=
  (fun (command : list string) (_ : Path) (_ : bool) (os : OS unit) =>
     let r :=
       if decide (command = command_1 self7) then
         preprocess_main pydub7 Demo.scripts (str_path (raw_audio self7))
           (str_path (processed_audio self7)) None false os
       else mkRun (inl 1) os [] in
     (inl (mkCompleted (match value r with inl c => c | inr _ => 1 end) None)
        : CompletedProcess + exn,
      final r)).

Lemma preprocess_script_honours_the_contract_witness :
  produces Demo.scripts ffmpeg7 self7 (command_1 self7)
    (processed_audio self7).
Proof.
  apply (preprocess_script_honours_the_contract Demo.scripts ffmpeg7 pydub7
           "7" false false Demo.interpreter).
  - vm_compute. repeat constructor.
  - exact pydub7_export_laws.
  - intros os cp os' Hrun Hz. cbv beta zeta in Hrun.
    rewrite decide_True in Hrun by reflexivity.
    set (r := preprocess_main pydub7 Demo.scripts (str_path (raw_audio self7))
                (str_path (processed_audio self7)) None false os) in Hrun.
    change (value r = inl 0 /\ final r = os').
    injection Hrun as Hcp Hos. subst cp.
    change (match value r with inl c => c | inr _ => 1 end = 0) in Hz.
    split; [| exact Hos].
    destruct (value r) as [c | e]; [rewrite Hz; reflexivity | discriminate].
Defined.
